(** * Transaction input selection and output balancing of [cardano_clusterlib.txtools]

    A shallow embedding of [src/cardano_clusterlib/txtools.py] and the
    properties of its coin-aware selection ([_collect_utxos_amount],
    [_select_utxos]), balancing ([_balance_txouts]), orchestration
    ([_get_tx_ins_outs]) and UTxO decoding ([get_utxo]).

    Python [int] is [Z]; [str] is [string]; a [Dict[str, list]] keyed by coin
    is a [gmap string (list _)]; the dict keyed by UTxO id, whose [items()]
    order is observed, is an association list in insertion order; a
    [Set[str]] is a [gset string]. *)

From Stdlib Require Import ZArith String Ascii List Lia.
From stdpp Require Import base option list strings gmap pretty.

Local Open Scope string_scope.
Local Open Scope Z_scope.
Local Open Scope list_scope.

(** ** [consts] and [structs] *)

(** Modelled from the spec: [consts.DEFAULT_COIN], the fixed sentinel naming
    the base coin; [consts.py] is not part of the sources read here. *)
Definition DEFAULT_COIN : string := "lovelace".

(** Modelled from the spec: [structs.UTXOData], the immutable record of one
    coin held at one unspent output (hash, index, amount, address, coin,
    decoded coin name, datum hash), with the fields [get_utxo] fills in. *)
Module UTXOData.
Record t : Type := mk {
  utxo_hash : string;
  utxo_ix : Z;
  amount : Z;
  address : string;
  coin : string;
  decoded_coin : string;
  datum_hash : string
}.
End UTXOData.

(** Modelled from the spec: [structs.TxOut], a desired output.  The datum and
    reference-script fields default to the empty string. *)
Module TxOut.
Record t : Type := mk {
  address : string;
  amount : Z;
  coin : string;
  datum_hash : string;
  datum_hash_file : string;
  datum_hash_cbor_file : string;
  datum_hash_value : string;
  inline_datum_file : string;
  inline_datum_cbor_file : string;
  inline_datum_value : string;
  reference_script_file : string
}.

(** [structs.TxOut(address=a, amount=n, coin=c)] *)
Definition make (a : string) (n : Z) (c : string) : t :=
  mk a n c "" "" "" "" "" "" "" "".
End TxOut.

#[global] Instance UTXOData_eq_dec : EqDecision UTXOData.t.
Proof. solve_decision. Defined.
#[global] Instance TxOut_eq_dec : EqDecision TxOut.t.
Proof. solve_decision. Defined.

(** Inputs and outputs are both read through [.coin] and [.amount]. *)
Class CoinRecord (A : Type) : Type := {
  rec_coin : A → string;
  rec_amount : A → Z
}.

#[global] Instance UTXOData_record : CoinRecord UTXOData.t :=
  {| rec_coin := UTXOData.coin; rec_amount := UTXOData.amount |}.
#[global] Instance TxOut_record : CoinRecord TxOut.t :=
  {| rec_coin := TxOut.coin; rec_amount := TxOut.amount |}.

(** [exceptions.CLIError] and the built-in exceptions the module can raise;
    [ExternalError] stands for whatever an external lookup raises. *)
Inductive exn : Type :=
  | CLIError (msg : string)
  | ValueError (msg : string)
  | KeyError (msg : string)
  | TypeError (msg : string)
  | IndexError (msg : string)
  | ExternalError (msg : string).

(** [structs.TxFiles] is only handed on to [get_tx_deposit]. *)
Definition TxFiles : Type := list string.

(** What a run leaves behind besides its result: the external lookups made,
    the messages given to [LOGGER.error], and the call of [_select_utxos]
    made by [_get_tx_ins_outs] together with the ids it returned. *)
Inductive event : Type :=
  | GetUtxo (address : string)
  | GetTxDeposit (tx_files : TxFiles)
  | LogError (msg : string)
  | SelectUtxos (ids : gset string).

(** ** Python runtime pieces the module relies on *)

(** Iterating over a [set] of strings visits every member once, in an order
    the language leaves open.  [set_iter s] is the order in which the members
    of [s] are visited. *)
Class SetOrder : Type := {
  set_iter : gset string → list string;
  set_iter_perm : ∀ s, set_iter s ≡ₚ elements s
}.

(** The order stdpp happens to enumerate a set in: one possible [SetOrder]. *)
Definition elements_order : SetOrder :=
  {| set_iter := elements; set_iter_perm := λ s, reflexivity (elements s) |}.

(** The same enumeration backwards: another possible [SetOrder]. *)
Definition reversed_order : SetOrder :=
  {| set_iter := λ s, reverse (elements s);
     set_iter_perm := λ s, reverse_Permutation (elements s) |}.

(** [functools.reduce(lambda x, y: x + y.amount, l, 0)] *)
Definition total_amount {A : Type} `{CoinRecord A} (l : list A) : Z :=
  foldl (λ x y, x + rec_amount y) 0 l.

(** [f"{rec.utxo_hash}#{rec.utxo_ix}"] *)
Definition utxo_id (rec : UTXOData.t) : string :=
  UTXOData.utxo_hash rec +:+ "#" +:+ pretty (UTXOData.utxo_ix rec).

(** [db.get(k) or []] *)
Definition get_or_nil {A : Type} (db : gmap string (list A)) (k : string) : list A :=
  default [] (db !! k).

(** Computations that log and may raise: the events so far and either the
    exception raised or the value returned. *)
Definition M (A : Type) : Type := list event * (exn + A).

#[global] Instance M_ret : MRet M := λ A x, ([], inr x).
#[global] Instance M_bind : MBind M := λ A B f m,
  match m with
  | (t, inl e) => (t, inl e)
  | (t, inr x) => let '(t', r) := f x in (t ++ t', r)
  end.

Definition raise {A : Type} (e : exn) : M A := ([], inl e).
Definition tell (ev : event) : M unit := ([ev], inr tt).
(** An external lookup: the call is recorded, its failure propagates. *)
Definition call {A : Type} (ev : event) (r : exn + A) : M A := ([ev], r).

(** ** Coin grouping *)

(** One step of the loop of [_organize_tx_ins_outs_by_coin]. *)
Definition organize_step {A : Type} `{CoinRecord A}
    (db : gmap string (list A)) (rec : A) : gmap string (list A) :=
  let db1 := if decide (rec_coin rec ∈ dom db) then db else <[rec_coin rec := []]> db in
  alter (λ l, l ++ [rec]) (rec_coin rec) db1.

Definition _organize_tx_ins_outs_by_coin {A : Type} `{CoinRecord A}
    (tx_list : list A) : gmap string (list A) :=
  foldl organize_step ∅ tx_list.

(** The dict of [_organize_utxos_by_id]; its [items()] are read in insertion
    order by [_get_tx_ins_outs]. *)
Definition odict (V : Type) : Type := list (string * V).

Fixpoint odict_get {V : Type} (db : odict V) (k : string) : option V :=
  match db with
  | [] => None
  | (k', v) :: db' => if decide (k' = k) then Some v else odict_get db' k
  end.

(** [db[k].append(rec)] on an existing key. *)
Fixpoint odict_append {A : Type} (db : odict (list A)) (k : string) (rec : A)
    : odict (list A) :=
  match db with
  | [] => []
  | (k', v) :: db' =>
      if decide (k' = k) then (k', v ++ [rec]) :: db'
      else (k', v) :: odict_append db' k rec
  end.

Definition organize_id_step (db : odict (list UTXOData.t)) (rec : UTXOData.t)
    : odict (list UTXOData.t) :=
  let uid := utxo_id rec in
  let db1 := if odict_get db uid is Some _ then db else db ++ [(uid, [])] in
  odict_append db1 uid rec.

Definition _organize_utxos_by_id (tx_list : list UTXOData.t)
    : odict (list UTXOData.t) :=
  foldl organize_id_step [] tx_list.

(** ** Multi-coin UTxO filter *)

Definition utxos_with_coins_step (txins_by_id : odict (list UTXOData.t))
    (coins : gset string) (st : list UTXOData.t * gset string) (rec : UTXOData.t)
    : list UTXOData.t * gset string :=
  let '(txins, seen_ids) := st in
  let uid := utxo_id rec in
  if decide (UTXOData.coin rec ∈ coins ∧ uid ∉ seen_ids)
  then (txins ++ default [] (odict_get txins_by_id uid), {[uid]} ∪ seen_ids)
  else st.

Definition _get_utxos_with_coins (address_utxos : list UTXOData.t)
    (coins : gset string) : list UTXOData.t :=
  let txins_by_id := _organize_utxos_by_id address_utxos in
  (foldl (utxos_with_coins_step txins_by_id coins) ([], ∅) address_utxos).1.

(** ** Greedy fund collector *)

(** The [for] loop of [_collect_utxos_amount]; both [break]s return the
    UTxOs collected so far. *)
Fixpoint collect_loop (utxos : list UTXOData.t) (amount amount_plus_change : Z)
    (collected_utxos : list UTXOData.t) (collected_amount : Z)
    : list UTXOData.t :=
  match utxos with
  | [] => collected_utxos
  | utxo :: rest =>
      if decide (collected_amount = amount) then collected_utxos
      else if decide (amount_plus_change ≤ collected_amount) then collected_utxos
      else collect_loop rest amount amount_plus_change
             (collected_utxos ++ [utxo])
             (collected_amount + UTXOData.amount utxo)
  end.

Definition _collect_utxos_amount (utxos : list UTXOData.t)
    (amount min_change_value : Z) : list UTXOData.t :=
  let amount_plus_change :=
    match utxos with
    | u :: _ =>
        if decide (UTXOData.coin u = DEFAULT_COIN)
        then amount + min_change_value else amount
    | [] => amount
    end in
  collect_loop utxos amount amount_plus_change [] 0.

(** ** Coverage selector *)

(** [val.amount == -1]: the output asks for all remaining funds of its coin. *)
Definition is_max (o : TxOut.t) : Prop := TxOut.amount o = -1.
#[global] Instance is_max_dec (o : TxOut.t) : Decision (is_max o).
Proof. unfold is_max. apply _. Defined.

(** [[idx for idx, val in enumerate(coin_txouts) if val.amount == -1]] *)
Definition max_index (coin_txouts : list TxOut.t) : list nat :=
  (filter (λ p, is_max p.2) (imap pair coin_txouts)).*1.

(** The amount [_select_utxos] hands to the collector for [coin]. *)
Definition input_funds_needed (coin : string) (coin_txouts : list TxOut.t)
    (txouts_mint_db : gmap string (list TxOut.t)) (fee : Z)
    (withdrawals : list TxOut.t) (deposit : Z) : Z :=
  let total_output_amount := total_amount coin_txouts in
  if decide (coin = DEFAULT_COIN) then
    let tx_fee := if decide (1 < fee) then fee else 1 in
    let funds_needed := total_output_amount + tx_fee + deposit in
    let total_withdrawals_amount := total_amount withdrawals in
    Z.max (funds_needed - total_withdrawals_amount) tx_fee
  else
    let coin_txouts_minted := get_or_nil txouts_mint_db coin in
    let total_minted_amount := total_amount coin_txouts_minted in
    total_output_amount - total_minted_amount.

(** The body of the loop of [_select_utxos]. *)
Definition select_coin (txins_db : gmap string (list UTXOData.t))
    (txouts_passed_db txouts_mint_db : gmap string (list TxOut.t)) (fee : Z)
    (withdrawals : list TxOut.t) (min_change_value deposit : Z)
    (utxo_ids : gset string) (coin : string) : gset string :=
  let coin_txins := get_or_nil txins_db coin in
  let coin_txouts := get_or_nil txouts_passed_db coin in
  if max_index coin_txouts is _ :: _ then
    utxo_ids ∪ list_to_set (utxo_id <$> coin_txins)
  else
    let filtered_coin_utxos :=
      _collect_utxos_amount coin_txins
        (input_funds_needed coin coin_txouts txouts_mint_db fee withdrawals deposit)
        min_change_value in
    utxo_ids ∪ list_to_set (utxo_id <$> filtered_coin_utxos).

(** The coins both loops run over:
    [set(txins_db).union(txouts_passed_db).union(txouts_mint_db)]. *)
Definition coins_of (txins_db : gmap string (list UTXOData.t))
    (txouts_passed_db txouts_mint_db : gmap string (list TxOut.t)) : gset string :=
  dom txins_db ∪ dom txouts_passed_db ∪ dom txouts_mint_db.

Definition _select_utxos `{SetOrder} (txins_db : gmap string (list UTXOData.t))
    (txouts_passed_db txouts_mint_db : gmap string (list TxOut.t)) (fee : Z)
    (withdrawals : list TxOut.t) (min_change_value deposit : Z) : gset string :=
  foldl (select_coin txins_db txouts_passed_db txouts_mint_db fee withdrawals
           min_change_value deposit)
        ∅ (set_iter (coins_of txins_db txouts_passed_db txouts_mint_db)).

(** ** Balancer *)

(** The mutable part of a run of [_balance_txouts]: the lists kept in
    [txouts_passed_db] (changed in place by [pop]), [txouts_result], and the
    messages logged so far. *)
Record bal_state : Type := mk_bal_state {
  bs_passed_db : gmap string (list TxOut.t);
  bs_result : list TxOut.t;
  bs_log : list event
}.

(** The three-way branch computing [change] for one coin, with the message
    logged when it is negative. *)
Definition coin_change (coin : string) (total_input_amount total_output_amount : Z)
    (txouts_mint_db : gmap string (list TxOut.t)) (fee : Z)
    (withdrawals : list TxOut.t) (deposit : Z) (lovelace_balanced : bool)
    : Z * list event :=
  if bool_decide (coin = DEFAULT_COIN) && lovelace_balanced then (0, [])
  else if bool_decide (coin = DEFAULT_COIN) then
    let tx_fee := if decide (0 < fee) then fee else 0 in
    let total_withdrawals_amount := total_amount withdrawals in
    let funds_available := total_input_amount + total_withdrawals_amount in
    let funds_needed := total_output_amount + tx_fee + deposit in
    let change := funds_available - funds_needed in
    (change,
     if decide (change < 0) then
       [LogError ("Not enough funds to make the transaction - available: "
                  +:+ pretty funds_available +:+ "; needed: "
                  +:+ pretty funds_needed)]
     else [])
  else
    let coin_txouts_minted := get_or_nil txouts_mint_db coin in
    let total_minted_amount := total_amount coin_txouts_minted in
    let funds_available := total_input_amount + total_minted_amount in
    let change := funds_available - total_output_amount in
    (change,
     if decide (change < 0) then
       [LogError ("Amount of coin `" +:+ coin +:+ "` is not sufficient - available: "
                  +:+ pretty funds_available +:+ "; needed: "
                  +:+ pretty total_output_amount)]
     else []).

(** [max_address or src_address] *)
Definition or_address (max_address : option string) (src_address : string) : string :=
  match max_address with
  | Some a => if decide (a = "") then src_address else a
  | None => src_address
  end.

(** The body of the loop of [_balance_txouts] for one coin.  [inl] is the
    exception raised, with the state as it was when it was raised. *)
Definition balance_coin (src_address : string)
    (txins_db : gmap string (list UTXOData.t))
    (txouts_mint_db : gmap string (list TxOut.t)) (fee : Z)
    (withdrawals : list TxOut.t) (deposit : Z) (lovelace_balanced : bool)
    (st : bal_state) (coin : string) : exn + bal_state :=
  let coin_txins := get_or_nil txins_db coin in
  let coin_txouts := get_or_nil (bs_passed_db st) coin in
  let max_idx := max_index coin_txouts in
  if decide (1 < length max_idx)%nat then
    inl (CLIError "Cannot send all remaining funds to more than one address.")
  else
    let popped :=
      match max_idx with
      | i :: _ =>
          match coin_txouts !! i with
          | Some o =>
              inr (Some (TxOut.address o), delete i coin_txouts,
                   <[coin := delete i coin_txouts]> (bs_passed_db st))
          | None => inl (IndexError "pop index out of range")
          end
      | [] => inr (None, coin_txouts, bs_passed_db st)
      end in
    match popped with
    | inl e => inl e
    | inr (max_address, coin_txouts, passed_db) =>
        let total_input_amount := total_amount coin_txins in
        let total_output_amount := total_amount coin_txouts in
        let '(change, msgs) :=
          coin_change coin total_input_amount total_output_amount txouts_mint_db
            fee withdrawals deposit lovelace_balanced in
        let txouts_result :=
          if decide (0 < change)
          then bs_result st ++ [TxOut.make (or_address max_address src_address) change coin]
          else bs_result st in
        inr (mk_bal_state passed_db txouts_result (bs_log st ++ msgs))
    end.

Fixpoint balance_loop (src_address : string)
    (txins_db : gmap string (list UTXOData.t))
    (txouts_mint_db : gmap string (list TxOut.t)) (fee : Z)
    (withdrawals : list TxOut.t) (deposit : Z) (lovelace_balanced : bool)
    (coins : list string) (st : bal_state) : bal_state * option exn :=
  match coins with
  | [] => (st, None)
  | coin :: coins' =>
      match balance_coin src_address txins_db txouts_mint_db fee withdrawals
              deposit lovelace_balanced st coin with
      | inl e => (st, Some e)
      | inr st' =>
          balance_loop src_address txins_db txouts_mint_db fee withdrawals
            deposit lovelace_balanced coins' st'
      end
  end.

(** What a call of [_balance_txouts] leaves: the lists of [txouts_passed_db]
    as they are afterwards, the messages logged, and the list returned or the
    exception raised. *)
Record balanced : Type := mk_balanced {
  passed_db_after : gmap string (list TxOut.t);
  logged : list event;
  returned : exn + list TxOut.t
}.

Definition _balance_txouts `{SetOrder} (src_address : string) (txouts : list TxOut.t)
    (txins_db : gmap string (list UTXOData.t))
    (txouts_passed_db txouts_mint_db : gmap string (list TxOut.t)) (fee : Z)
    (withdrawals : list TxOut.t) (deposit : Z) (lovelace_balanced : bool)
    : balanced :=
  let txouts_result := txouts in
  let '(st, raised) :=
    balance_loop src_address txins_db txouts_mint_db fee withdrawals deposit
      lovelace_balanced
      (set_iter (coins_of txins_db txouts_passed_db txouts_mint_db))
      (mk_bal_state txouts_passed_db txouts_result []) in
  match raised with
  | Some e => mk_balanced (bs_passed_db st) (bs_log st) (inl e)
  | None =>
      mk_balanced (bs_passed_db st) (bs_log st)
        (inr (filter (λ r, 0 < TxOut.amount r) (bs_result st)))
  end.

(** ** Orchestrator *)

(** The collaborator [clusterlib_obj], as far as [_get_tx_ins_outs] uses it. *)
Module ClusterLib.
Record t : Type := mk {
  get_utxo : string → exn + list UTXOData.t;
  get_tx_deposit : TxFiles → exn + Z;
  _min_change_value : Z
}.
End ClusterLib.

(** [structs.OptionalUTXOData]: the default [()] or a list.  Both are read
    through their truth value and [list(txins)]. *)
Inductive OptionalUTXOData : Type :=
  | EmptyTuple
  | PyList (l : list UTXOData.t).

Definition to_list (txins : OptionalUTXOData) : list UTXOData.t :=
  match txins with EmptyTuple => [] | PyList l => l end.

Definition truthy {A : Type} (l : list A) : bool :=
  if l is [] then false else true.

Definition _get_tx_ins_outs `{SetOrder} (clusterlib_obj : ClusterLib.t)
    (src_address : string) (tx_files : TxFiles) (txins : OptionalUTXOData)
    (txouts : list TxOut.t) (fee : Z) (deposit : option Z)
    (withdrawals mint_txouts : list TxOut.t) (lovelace_balanced : bool)
    : M (list UTXOData.t * list TxOut.t) :=
  let txouts_passed_db := _organize_tx_ins_outs_by_coin txouts in
  let txouts_mint_db := _organize_tx_ins_outs_by_coin mint_txouts in
  let outcoins_all : gset string :=
    {[DEFAULT_COIN]} ∪ dom txouts_mint_db ∪ dom txouts_passed_db in
  let outcoins_passed : gset string := {[DEFAULT_COIN]} ∪ dom txouts_passed_db in
  txins_all ←
    (if truthy (to_list txins) then mret (to_list txins)
     else
       address_utxos ← call (GetUtxo src_address)
                          (ClusterLib.get_utxo clusterlib_obj src_address);
       mret (_get_utxos_with_coins address_utxos outcoins_all));
  let txins_db_all := _organize_tx_ins_outs_by_coin txins_all in
  tx_deposit ←
    (match deposit with
     | None => call (GetTxDeposit tx_files)
                 (ClusterLib.get_tx_deposit clusterlib_obj tx_files)
     | Some d => mret d
     end);
  _ ← (if negb (truthy txins_all) then tell (LogError "No input UTxO.")
       else if negb (bool_decide (outcoins_passed ∖ dom txouts_mint_db ⊆ dom txins_db_all))
       then tell (LogError "Not all output coins are present in input UTxO.")
       else mret tt);
  '(txins_filtered, txins_db_filtered) ←
    (if truthy (to_list txins) then mret (txins_all, txins_db_all)
     else
       let selected_utxo_ids :=
         _select_utxos txins_db_all txouts_passed_db txouts_mint_db fee
           withdrawals (ClusterLib._min_change_value clusterlib_obj) tx_deposit in
       _ ← tell (SelectUtxos selected_utxo_ids);
       let txins_by_id := _organize_utxos_by_id txins_all in
       let _txins_filtered :=
         (filter (λ p, p.1 ∈ selected_utxo_ids) txins_by_id).*2 in
       let txins_filtered := concat _txins_filtered in
       mret (txins_filtered, _organize_tx_ins_outs_by_coin txins_filtered));
  _ ← (if negb (truthy txins_filtered)
       then tell (LogError "Cannot build transaction, empty `txins`.")
       else mret tt);
  txouts_balanced ←
    (let b := _balance_txouts src_address txouts txins_db_filtered txouts_passed_db
                txouts_mint_db fee withdrawals tx_deposit lovelace_balanced in
     (logged b, returned b) : M (list TxOut.t));
  mret (txins_filtered, txouts_balanced).

(** ** UTxO decoder *)

(** The library functions [get_utxo] calls: [int(s)],
    [base64.b16decode(s.encode(), casefold=True)] and [bytes.decode("utf-8")].
    [None] is the exception each of them can raise.  A [str] and the bytes
    that encode it are the same [string]. *)
Class Builtins : Type := {
  int_of_str : string → option Z;
  b16decode : string → option string;
  utf8_decode : string → option string
}.

(** The JSON of [query utxo], as far as [get_utxo] reads it.  The amounts of
    the assets of a policy come as a mapping (older tool versions) or as a
    sequence of pairs; the base coin carries an integer. *)
Inductive coin_data : Type :=
  | JInt (n : Z)
  | JDict (items : list (string * Z))
  | JList (items : list (string * Z)).

Record utxo_data : Type := mk_utxo_data {
  j_address : option string;
  j_value : option (list (string * coin_data));
  j_data : option string;
  j_datumhash : option string
}.

(** [s.split("#")] *)
Fixpoint split_hash (s : string) : list string :=
  match s with
  | EmptyString => [EmptyString]
  | String c s' =>
      if decide (c = "#"%char) then EmptyString :: split_hash s'
      else match split_hash s' with
           | h :: t => String c h :: t
           | [] => [String c EmptyString]
           end
  end.

(** [a or b] on strings *)
Definition str_or (a b : string) : string := if decide (a = "") then b else a.

(** Run fallible steps in order and chain their results; the first exception
    ends the run. *)
Fixpoint chain_results {A : Type} (steps : list (exn + list A)) : exn + list A :=
  match steps with
  | [] => inr []
  | inl e :: _ => inl e
  | inr xs :: steps' =>
      match chain_results steps' with
      | inl e => inl e
      | inr ys => inr (xs ++ ys)
      end
  end.

(** [structs.UTXOData(utxo_hash=utxo_hash, utxo_ix=int(utxo_ix), ...)] *)
Definition make_utxo `{Builtins} (utxo_hash utxo_ix : string) (amount : Z)
    (address coin decoded_coin datum_hash : string) : exn + list UTXOData.t :=
  match int_of_str utxo_ix with
  | Some ix => inr [UTXOData.mk utxo_hash ix amount address coin decoded_coin datum_hash]
  | None => inl (ValueError "invalid literal for int()")
  end.

(** The best-effort decoding of an asset name; [except Exception: pass]
    leaves [decoded_coin] as it was initialised. *)
Definition decode_coin `{Builtins} (policyid asset_name : string) : string :=
  if decide (asset_name = "") then policyid
  else match b16decode asset_name ≫= utf8_decode with
       | Some decoded_name => policyid +:+ "." +:+ decoded_name
       | None => ""
       end.

(** The body of [for asset_name, amount in coin_iter]. *)
Definition asset_record `{Builtins} (utxo_hash utxo_ix address utxo_address
    datum_hash policyid : string) (entry : string * Z) : exn + list UTXOData.t :=
  let '(asset_name, amount) := entry in
  let decoded_coin := decode_coin policyid asset_name in
  make_utxo utxo_hash utxo_ix amount (str_or address utxo_address)
    (if decide (asset_name = "") then policyid else policyid +:+ "." +:+ asset_name)
    decoded_coin datum_hash.

(** The body of [for policyid, coin_data in addr_data.items()].  A base coin
    entry that is not an integer is outside what [amount: int] admits and is
    rejected here; an integer under a policy id cannot be iterated. *)
Definition value_records `{Builtins} (utxo_hash utxo_ix address utxo_address
    datum_hash : string) (entry : string * coin_data) : exn + list UTXOData.t :=
  let '(policyid, coin_data) := entry in
  if decide (policyid = DEFAULT_COIN) then
    match coin_data with
    | JInt n =>
        make_utxo utxo_hash utxo_ix n (str_or address utxo_address)
          DEFAULT_COIN "" datum_hash
    | _ => inl (TypeError "amount is not an integer")
    end
  else
    match coin_data with
    | JInt _ => inl (TypeError "'int' object is not iterable")
    | JDict coin_iter | JList coin_iter =>
        chain_results
          (asset_record utxo_hash utxo_ix address utxo_address datum_hash policyid
             <$> coin_iter)
    end.

(** The body of [for utxo_rec, utxo_data in utxo_dict.items()]. *)
Definition utxo_records `{Builtins} (address : string)
    (item : string * utxo_data) : exn + list UTXOData.t :=
  let '(utxo_rec, utxo_data) := item in
  match split_hash utxo_rec with
  | [utxo_hash; utxo_ix] =>
      let utxo_address := str_or (default "" (j_address utxo_data)) "" in
      match j_value utxo_data with
      | None => inl (KeyError "value")
      | Some addr_data =>
          let datum_hash :=
            str_or (default "" (j_data utxo_data))
              (str_or (default "" (j_datumhash utxo_data)) "") in
          chain_results
            (value_records utxo_hash utxo_ix address utxo_address datum_hash
               <$> addr_data)
      end
  | _ => inl (ValueError "wrong number of values to unpack")
  end.

Definition get_utxo `{Builtins} (utxo_dict : list (string * utxo_data))
    (address : string) (coins : list string) : exn + list UTXOData.t :=
  match chain_results (utxo_records address <$> utxo_dict) with
  | inl e => inl e
  | inr utxo =>
      if truthy coins
      then inr (filter (λ u, UTXOData.coin u ∈ coins) utxo)
      else inr utxo
  end.

(** One [Builtins] to run the decoder with: [int] on the unsigned decimal
    numerals the query prints, [b16decode] with [casefold=True], and UTF-8
    decoding of a byte string. *)
Definition digit_value (c : ascii) : option Z :=
  let n := Z.of_N (N_of_ascii c) in
  if decide (48 ≤ n ≤ 57) then Some (n - 48) else None.

Definition hex_value (c : ascii) : option N :=
  let n := N_of_ascii c in
  if decide (48 ≤ n ≤ 57)%N then Some (n - 48)%N
  else if decide (65 ≤ n ≤ 70)%N then Some (n - 55)%N
  else if decide (97 ≤ n ≤ 102)%N then Some (n - 87)%N
  else None.

Fixpoint decimal_loop (s : string) (acc : Z) : option Z :=
  match s with
  | EmptyString => Some acc
  | String c s' => d ← digit_value c; decimal_loop s' (10 * acc + d)
  end.

Definition decimal (s : string) : option Z :=
  if decide (s = "") then None else decimal_loop s 0.

Fixpoint unhexlify (s : string) : option string :=
  match s with
  | EmptyString => Some EmptyString
  | String hi (String lo s') =>
      h ← hex_value hi; l ← hex_value lo; rest ← unhexlify s';
      Some (String (ascii_of_N (16 * h + l)) rest)
  | String _ EmptyString => None
  end.

(** Well-formed UTF-8: the byte ranges of the Unicode standard (no overlong
    forms, no surrogates, nothing above U+10FFFF). *)
Definition in_range (lo hi : N) (c : ascii) : bool :=
  bool_decide (lo ≤ N_of_ascii c ≤ hi)%N.

Fixpoint utf8_wf (s : string) : bool :=
  match s with
  | EmptyString => true
  | String b0 r0 =>
      if in_range 0 127 b0 then utf8_wf r0
      else match r0 with
      | EmptyString => false
      | String b1 r1 =>
          if in_range 194 223 b0 then in_range 128 191 b1 && utf8_wf r1
          else match r1 with
          | EmptyString => false
          | String b2 r2 =>
              if in_range 224 239 b0 then
                (in_range 224 224 b0 && in_range 160 191 b1
                 || in_range 225 236 b0 && in_range 128 191 b1
                 || in_range 237 237 b0 && in_range 128 159 b1
                 || in_range 238 239 b0 && in_range 128 191 b1)
                && in_range 128 191 b2 && utf8_wf r2
              else match r2 with
              | EmptyString => false
              | String b3 r3 =>
                  (in_range 240 240 b0 && in_range 144 191 b1
                   || in_range 241 243 b0 && in_range 128 191 b1
                   || in_range 244 244 b0 && in_range 128 143 b1)
                  && in_range 128 191 b2 && in_range 128 191 b3 && utf8_wf r3
              end
          end
      end
  end.

Definition utf8 (s : string) : option string :=
  if utf8_wf s then Some s else None.

Definition plain_builtins : Builtins :=
  {| int_of_str := decimal; b16decode := unhexlify; utf8_decode := utf8 |}.

(** ** Withdrawals *)

(** Modelled from the spec: [structs.StakeAddrInfo], what the stake-info
    lookup returns; only the reward balance is read here. *)
Module StakeAddrInfo.
Record t : Type := mk { reward_account_balance : Z }.
End StakeAddrInfo.

(** Modelled from the spec: [structs.ScriptWithdrawal], a withdrawal wrapped
    with the data of its script.  [_replace(txout=...)] keeps that data, of
    whatever type [Meta] it is. *)
Module ScriptWithdrawal.
Record t (Meta : Type) : Type := mk { txout : TxOut.t; meta : Meta }.
Arguments mk {Meta} _ _.
Arguments txout {Meta} _.
Arguments meta {Meta} _.

(** [s._replace(txout=o)] *)
Definition replace_txout {Meta : Type} (s : t Meta) (o : TxOut.t) : t Meta :=
  mk o (meta s).
End ScriptWithdrawal.

(** The loop of [_resolve_withdrawals].  [get_stake_addr_info] is the lookup
    of [clusterlib_obj]; its exception ends the loop. *)
Fixpoint resolve_loop (get_stake_addr_info : string → exn + StakeAddrInfo.t)
    (withdrawals resolved_withdrawals : list TxOut.t) : exn + list TxOut.t :=
  match withdrawals with
  | [] => inr resolved_withdrawals
  | rec :: rest =>
      if decide (TxOut.amount rec = -1) then
        match get_stake_addr_info (TxOut.address rec) with
        | inl e => inl e
        | inr info =>
            let balance := StakeAddrInfo.reward_account_balance info in
            resolve_loop get_stake_addr_info rest
              (resolved_withdrawals
               ++ [TxOut.make (TxOut.address rec) balance DEFAULT_COIN])
        end
      else
        resolve_loop get_stake_addr_info rest (resolved_withdrawals ++ [rec])
  end.

Definition _resolve_withdrawals
    (get_stake_addr_info : string → exn + StakeAddrInfo.t)
    (withdrawals : list TxOut.t) : exn + list TxOut.t :=
  resolve_loop get_stake_addr_info withdrawals [].

(** The list comprehension of [_get_withdrawals] over the script
    withdrawals; [[0]] of an empty list raises. *)
Fixpoint resolve_scripts {Meta : Type}
    (get_stake_addr_info : string → exn + StakeAddrInfo.t)
    (script_withdrawals : list (ScriptWithdrawal.t Meta))
    : exn + list (ScriptWithdrawal.t Meta) :=
  match script_withdrawals with
  | [] => inr []
  | s :: rest =>
      match _resolve_withdrawals get_stake_addr_info [ScriptWithdrawal.txout s] with
      | inl e => inl e
      | inr [] => inl (IndexError "list index out of range")
      | inr (o :: _) =>
          match resolve_scripts get_stake_addr_info rest with
          | inl e => inl e
          | inr rest' => inr (ScriptWithdrawal.replace_txout s o :: rest')
          end
      end
  end.

Definition _get_withdrawals {Meta : Type}
    (get_stake_addr_info : string → exn + StakeAddrInfo.t)
    (withdrawals : list TxOut.t)
    (script_withdrawals : list (ScriptWithdrawal.t Meta))
    : exn + (list TxOut.t * list (ScriptWithdrawal.t Meta) * list TxOut.t) :=
  match (if truthy withdrawals
         then _resolve_withdrawals get_stake_addr_info withdrawals
         else inr withdrawals) with
  | inl e => inl e
  | inr withdrawals =>
      match resolve_scripts get_stake_addr_info script_withdrawals with
      | inl e => inl e
      | inr script_withdrawals =>
          let withdrawals_txouts :=
            withdrawals ++ (ScriptWithdrawal.txout <$> script_withdrawals) in
          inr (withdrawals, script_withdrawals, withdrawals_txouts)
      end
  end.

(** ** Output arguments *)

Definition _get_txout_plutus_args (txout : TxOut.t) : list string :=
  let txout_args :=
    if negb (bool_decide (TxOut.datum_hash txout = "")) then
      ["--tx-out-datum-hash"; TxOut.datum_hash txout]
    else if negb (bool_decide (TxOut.datum_hash_file txout = "")) then
      ["--tx-out-datum-hash-file"; TxOut.datum_hash_file txout]
    else if negb (bool_decide (TxOut.datum_hash_cbor_file txout = "")) then
      ["--tx-out-datum-hash-cbor-file"; TxOut.datum_hash_cbor_file txout]
    else if negb (bool_decide (TxOut.datum_hash_value txout = "")) then
      ["--tx-out-datum-hash-value"; TxOut.datum_hash_value txout]
    else if negb (bool_decide (TxOut.inline_datum_file txout = "")) then
      ["--tx-out-inline-datum-file"; TxOut.inline_datum_file txout]
    else if negb (bool_decide (TxOut.inline_datum_cbor_file txout = "")) then
      ["--tx-out-inline-datum-cbor-file"; TxOut.inline_datum_cbor_file txout]
    else if negb (bool_decide (TxOut.inline_datum_value txout = "")) then
      ["--tx-out-inline-datum-value"; TxOut.inline_datum_value txout]
    else [] in
  if negb (bool_decide (TxOut.reference_script_file txout = "")) then
    txout_args ++ ["--tx-out-reference-script-file"; TxOut.reference_script_file txout]
  else txout_args.

(** [str(rec.datum_hash or rec.datum_hash_file or ... or rec.inline_datum_value)] *)
Definition datum_src (rec : TxOut.t) : string :=
  str_or (TxOut.datum_hash rec)
    (str_or (TxOut.datum_hash_file rec)
       (str_or (TxOut.datum_hash_cbor_file rec)
          (str_or (TxOut.datum_hash_value rec)
             (str_or (TxOut.inline_datum_file rec)
                (str_or (TxOut.inline_datum_cbor_file rec)
                   (TxOut.inline_datum_value rec)))))).

(** [if k not in db: db[k] = []] followed by [db[k].append(rec)], on a dict
    read in insertion order. *)
Definition odict_setdefault_append {A : Type} (db : odict (list A)) (k : string)
    (rec : A) : odict (list A) :=
  let db1 := if odict_get db k is Some _ then db else db ++ [(k, [])] in
  odict_append db1 k rec.

(** The first loop of [_join_txouts]: the datum sources in the order first
    seen, and for each the outputs by address.  The inner dictionaries are
    read through [items()], the outer one only by key. *)
Definition join_step (st : list string * gmap string (odict (list TxOut.t)))
    (rec : TxOut.t) : list string * gmap string (odict (list TxOut.t)) :=
  let '(txouts_datum_order, txouts_by_datum) := st in
  let datum_src := datum_src rec in
  let txouts_datum_order :=
    if decide (datum_src ∈ txouts_datum_order) then txouts_datum_order
    else txouts_datum_order ++ [datum_src] in
  let txouts_by_datum :=
    if decide (datum_src ∈ dom txouts_by_datum) then txouts_by_datum
    else <[datum_src := []]> txouts_by_datum in
  let txouts_by_addr := default [] (txouts_by_datum !! datum_src) in
  (txouts_datum_order,
   <[datum_src := odict_setdefault_append txouts_by_addr (TxOut.address rec) rec]>
     txouts_by_datum).

(** [f"{rec.amount}{coin}"] with [coin] empty for the base coin *)
Definition amount_str (rec : TxOut.t) : string :=
  let coin :=
    if negb (bool_decide (TxOut.coin rec = ""))
       && negb (bool_decide (TxOut.coin rec = DEFAULT_COIN))
    then " " +:+ TxOut.coin rec else "" in
  pretty (TxOut.amount rec) +:+ coin.

(** The arguments of one address of one datum source; [recs[0]] of an empty
    list raises. *)
Definition join_group (group : string * list TxOut.t) : exn + list string :=
  let '(addr, recs) := group in
  let amounts := amount_str <$> recs in
  let amounts_joined := String.concat "+" amounts in
  match recs with
  | [] => inl (IndexError "list index out of range")
  | rec0 :: _ =>
      inr (["--tx-out"; addr +:+ "+" +:+ amounts_joined]
           ++ _get_txout_plutus_args rec0)
  end.

Definition _join_txouts (txouts : list TxOut.t) : exn + list string :=
  let '(txouts_datum_order, txouts_by_datum) := foldl join_step ([], ∅) txouts in
  chain_results
    ((λ datum_src,
        match txouts_by_datum !! datum_src with
        | None => inl (KeyError datum_src)
        | Some txouts_by_addr => chain_results (join_group <$> txouts_by_addr)
        end) <$> txouts_datum_order).

Definition list_txout (rec : TxOut.t) : list string :=
  ["--tx-out"; TxOut.address rec +:+ "+" +:+ pretty (TxOut.amount rec)]
  ++ _get_txout_plutus_args rec.

Definition _list_txouts (txouts : list TxOut.t) : list string :=
  flat_map list_txout txouts.

Definition _process_txouts (txouts : list TxOut.t) (join_txouts : bool)
    : exn + list string :=
  if join_txouts then _join_txouts txouts else inr (_list_txouts txouts).

(** ** What the specification says, in its own terms *)

(** The collector's stopping condition on a running total: the total equals
    the amount, or it has reached the amount plus the minimum change for the
    base coin, the amount itself for any other coin. *)
Definition stop_reached (c : string) (amount min_change_value running : Z) : Prop :=
  running = amount ∨
  (if decide (c = DEFAULT_COIN) then amount + min_change_value ≤ running
   else amount ≤ running).

(** The requested outputs of a coin once its [-1] output is taken out. *)
Definition requested (db : gmap string (list TxOut.t)) (c : string) : list TxOut.t :=
  filter (λ o, ¬ is_max o) (get_or_nil db c).

(** Where the change of a coin goes: to the address of its [-1] output when
    there is one (and it is not empty), to the source address otherwise. *)
Definition change_address (src_address : string)
    (db : gmap string (list TxOut.t)) (c : string) : string :=
  or_address (TxOut.address <$> head (filter is_max (get_or_nil db c))) src_address.

(** The accounting identity of one coin, with [fee_paid] the fee term:
    inputs plus withdrawals (base coin) or minted amount (other coins) equal
    requested outputs plus fee and deposit (base coin only) plus change. *)
Definition coin_balances (fee_paid : Z) (txins_db : gmap string (list UTXOData.t))
    (txouts_passed_db txouts_mint_db : gmap string (list TxOut.t))
    (withdrawals : list TxOut.t) (deposit : Z) (c : string) (change : Z) : Prop :=
  if decide (c = DEFAULT_COIN) then
    total_amount (get_or_nil txins_db c) + total_amount withdrawals
    = total_amount (requested txouts_passed_db c) + fee_paid + deposit + change
  else
    total_amount (get_or_nil txins_db c) + total_amount (get_or_nil txouts_mint_db c)
    = total_amount (requested txouts_passed_db c) + change.

(** One change output per coin whose change is positive, in the order the
    coins are visited. *)
Definition change_outputs (src_address : string)
    (txouts_passed_db : gmap string (list TxOut.t)) (change : string → Z)
    (coins : list string) : list TxOut.t :=
  flat_map (λ c, if decide (0 < change c)
                 then [TxOut.make (change_address src_address txouts_passed_db c)
                         (change c) c]
                 else []) coins.

(** The balancer's result is balanced with fee term [fee_paid]: each coin
    visited has a change satisfying its identity, and the result is the
    positive requested outputs followed by the change outputs. *)
Definition balanced_by (fee_paid : Z) (src_address : string) (txouts : list TxOut.t)
    (txins_db : gmap string (list UTXOData.t))
    (txouts_passed_db txouts_mint_db : gmap string (list TxOut.t))
    (withdrawals : list TxOut.t) (deposit : Z) (coins : list string)
    (result : exn + list TxOut.t) : Prop :=
  ∃ change : string → Z,
    (∀ c, c ∈ coins →
       coin_balances fee_paid txins_db txouts_passed_db txouts_mint_db
         withdrawals deposit c (change c)) ∧
    result = inr (filter (λ o, 0 < TxOut.amount o) txouts
                  ++ change_outputs src_address txouts_passed_db change coins) ∧
    Forall (λ o, 0 < TxOut.amount o)
      (filter (λ o, 0 < TxOut.amount o) txouts
       ++ change_outputs src_address txouts_passed_db change coins).

(** The change the balancer computes for a coin, read off the lists it was
    given. *)
Definition change_of (txins_db : gmap string (list UTXOData.t))
    (txouts_passed_db txouts_mint_db : gmap string (list TxOut.t)) (fee : Z)
    (withdrawals : list TxOut.t) (deposit : Z) (lovelace_balanced : bool)
    (c : string) : Z :=
  (coin_change c (total_amount (get_or_nil txins_db c))
     (total_amount (requested txouts_passed_db c)) txouts_mint_db fee withdrawals
     deposit lovelace_balanced).1.

(** The selector as the specification words it.  Funds needed: for the base
    coin, requested outputs plus [max(fee,1)] plus deposit, minus the
    withdrawals, but never below [max(fee,1)]; for any other coin, requested
    outputs minus minted amount.  The collector is invoked with the funds
    needed clamped to be non-negative; a coin with a [-1] output takes all
    its inputs. *)
Definition funds_needed_spec (coin : string) (coin_txouts : list TxOut.t)
    (txouts_mint_db : gmap string (list TxOut.t)) (fee : Z)
    (withdrawals : list TxOut.t) (deposit : Z) : Z :=
  if decide (coin = DEFAULT_COIN) then
    Z.max (total_amount coin_txouts + Z.max fee 1 + deposit - total_amount withdrawals)
          (Z.max fee 1)
  else total_amount coin_txouts - total_amount (get_or_nil txouts_mint_db coin).

Definition select_coin_spec (txins_db : gmap string (list UTXOData.t))
    (txouts_passed_db txouts_mint_db : gmap string (list TxOut.t)) (fee : Z)
    (withdrawals : list TxOut.t) (min_change_value deposit : Z)
    (utxo_ids : gset string) (coin : string) : gset string :=
  let coin_txins := get_or_nil txins_db coin in
  let coin_txouts := get_or_nil txouts_passed_db coin in
  if decide (Exists is_max coin_txouts) then
    utxo_ids ∪ list_to_set (utxo_id <$> coin_txins)
  else
    utxo_ids ∪ list_to_set (utxo_id <$>
      _collect_utxos_amount coin_txins
        (Z.max 0 (funds_needed_spec coin coin_txouts txouts_mint_db fee
                    withdrawals deposit))
        min_change_value).

Definition select_utxos_spec `{SetOrder} (txins_db : gmap string (list UTXOData.t))
    (txouts_passed_db txouts_mint_db : gmap string (list TxOut.t)) (fee : Z)
    (withdrawals : list TxOut.t) (min_change_value deposit : Z) : gset string :=
  foldl (select_coin_spec txins_db txouts_passed_db txouts_mint_db fee withdrawals
           min_change_value deposit)
        ∅ (set_iter (coins_of txins_db txouts_passed_db txouts_mint_db)).

(** Every list of a dictionary grouped by coin holds records of its key. *)
Definition grouped_by_coin {A : Type} `{CoinRecord A} (db : gmap string (list A)) : Prop :=
  ∀ c l, db !! c = Some l → Forall (λ r, rec_coin r = c) l.

(** The events of the steps of [_get_tx_ins_outs] around selection: the
    deposit lookup, the check of the candidate inputs, and the check of the
    inputs kept. *)
Definition deposit_events (tx_files : TxFiles) (deposit : option Z) : list event :=
  if deposit is None then [GetTxDeposit tx_files] else [].

Definition check_events (txins_all : list UTXOData.t)
    (txouts_passed_db txouts_mint_db : gmap string (list TxOut.t)) : list event :=
  if negb (truthy txins_all) then [LogError "No input UTxO."]
  else if negb (bool_decide
                  (({[DEFAULT_COIN]} ∪ dom txouts_passed_db) ∖ dom txouts_mint_db
                   ⊆ dom (_organize_tx_ins_outs_by_coin txins_all)))
  then [LogError "Not all output coins are present in input UTxO."]
  else [].

Definition empty_events (txins_filtered : list UTXOData.t) : list event :=
  if negb (truthy txins_filtered)
  then [LogError "Cannot build transaction, empty `txins`."] else [].

(** The claim that a run raised and did so before any selection was made. *)
Definition raised_before_selection {A : Type} (run : M A) : Prop :=
  (∃ e, run.2 = inl e) ∧ ∀ ids, SelectUtxos ids ∉ run.1.

(** A record without its display name, and a result of [get_utxo] read
    without the display names of its records. *)
Definition forget_decoded (r : UTXOData.t) : UTXOData.t :=
  UTXOData.mk (UTXOData.utxo_hash r) (UTXOData.utxo_ix r) (UTXOData.amount r)
    (UTXOData.address r) (UTXOData.coin r) "" (UTXOData.datum_hash r).

Definition identity_view (res : exn + list UTXOData.t) : exn + list UTXOData.t :=
  match res with
  | inl e => inl e
  | inr utxo => inr (forget_decoded <$> utxo)
  end.

(** The raw coin identifier of an asset: [policyid.asset_name], or the bare
    policy id when the asset name is empty. *)
Definition raw_coin (policyid asset_name : string) : string :=
  if decide (asset_name = "") then policyid else policyid +:+ "." +:+ asset_name.

(** Library functions whose decoding always fails. *)
Definition failing_decoders (B : Builtins) : Builtins :=
  {| int_of_str := @int_of_str B; b16decode := λ _, None; utf8_decode := λ _, None |}.

(** The outputs the balancer appended to the positive requested ones, and
    the claim that none of them is base-coin change below the minimum. *)
Definition appended (txouts outs : list TxOut.t) : list TxOut.t :=
  drop (length (filter (λ r, 0 < TxOut.amount r) txouts)) outs.

Definition dust_free (min_change_value : Z) (txouts outs : list TxOut.t) : Prop :=
  ∀ o, o ∈ appended txouts outs → TxOut.coin o = DEFAULT_COIN →
       min_change_value ≤ TxOut.amount o.

(** The requested outputs of the base coin. *)
Definition base_outputs (txouts : list TxOut.t) : list TxOut.t :=
  filter (λ o, TxOut.coin o = DEFAULT_COIN) txouts.

(** The base-coin records of a list of UTxO records. *)
Definition base_records (l : list UTXOData.t) : list UTXOData.t :=
  filter (λ u, UTXOData.coin u = DEFAULT_COIN) l.

(** The requested or minted outputs of one coin. *)
Definition outputs_of (c : string) (txouts : list TxOut.t) : list TxOut.t :=
  filter (λ o, TxOut.coin o = c) txouts.

(** The distinct members of a list in the order they first occur. *)
Definition first_seen (l : list string) : list string :=
  foldl (λ acc x, if decide (x ∈ acc) then acc else acc ++ [x]) [] l.

(** Grouping by a key, declaratively: one group per distinct key, in the
    order the keys first occur, each holding the records of its key in their
    order. *)
Definition groups_of {A : Type} (key : A → string) (l : list A) : odict (list A) :=
  (λ k, (k, filter (λ r, key r = k) l)) <$> first_seen (key <$> l).

(** The arguments of one group of joined outputs. *)
Definition joined_args (group : string * list TxOut.t) : list string :=
  ["--tx-out"; group.1 +:+ "+" +:+ String.concat "+" (amount_str <$> group.2)]
  ++ from_option _get_txout_plutus_args [] (head group.2).

(** The messages the balancer logs for a coin, read off the lists it was
    given. *)
Definition change_log (txins_db : gmap string (list UTXOData.t))
    (txouts_passed_db txouts_mint_db : gmap string (list TxOut.t)) (fee : Z)
    (withdrawals : list TxOut.t) (deposit : Z) (lovelace_balanced : bool)
    (c : string) : list event :=
  (coin_change c (total_amount (get_or_nil txins_db c))
     (total_amount (requested txouts_passed_db c)) txouts_mint_db fee withdrawals
     deposit lovelace_balanced).2.

(** Two outcomes of the balancer that differ at most in the order of the
    outputs returned. *)
Definition same_outcome (r1 r2 : exn + list TxOut.t) : Prop :=
  match r1, r2 with
  | inl e1, inl e2 => e1 = e2
  | inr outs1, inr outs2 => outs1 ≡ₚ outs2
  | _, _ => False
  end.

Definition is_log (ev : event) : Prop :=
  if ev is LogError _ then True else False.

(** ** Sample data *)

Definition ada (utxo_hash : string) (utxo_ix amount : Z) (address : string)
    : UTXOData.t :=
  UTXOData.mk utxo_hash utxo_ix amount address DEFAULT_COIN "" "".

Definition wallet3 : list UTXOData.t :=
  [ada "txA" 0 500 "addr1"; ada "txB" 0 300 "addr1"; ada "txC" 1 400 "addr1"].

(** One UTxO of 1000 of the base coin at [addr1], grouped by coin. *)
Definition txA : UTXOData.t := ada "txA" 0 1000 "addr1".
Definition txA_db : gmap string (list UTXOData.t) := {[DEFAULT_COIN := [txA]]}.

(** A payment of 300 to [addr2], and a request for all remaining funds. *)
Definition pay300 : TxOut.t := TxOut.make "addr2" 300 DEFAULT_COIN.
Definition pay_all (address : string) : TxOut.t := TxOut.make address (-1) DEFAULT_COIN.

(** A collaborator that finds [txA] at every address, asks for no deposit
    and has the given minimum change value. *)
Definition one_utxo_node (min_change_value : Z) : ClusterLib.t :=
  ClusterLib.mk (λ _, inr [txA]) (λ _, inr 0) min_change_value.

(** A record of the asset [policy.T], and a collaborator that finds the
    given UTxO records at every address and asks for no deposit. *)
Definition token (utxo_hash : string) (utxo_ix amount : Z) (address : string)
    : UTXOData.t :=
  UTXOData.mk utxo_hash utxo_ix amount address "policy.T" "" "".

Definition node_with (utxos : list UTXOData.t) (min_change_value : Z)
    : ClusterLib.t :=
  ClusterLib.mk (λ _, inr utxos) (λ _, inr 0) min_change_value.

(** Three UTxOs, the first holding 7 of [policy.T] beside its base coin. *)
Definition mixed_wallet : list UTXOData.t :=
  [ada "txA" 0 500 "addr1"; token "txA" 0 7 "addr1";
   ada "txB" 0 300 "addr1"; ada "txC" 1 400 "addr1"].

(** The query result for one output holding 5 of the asset [policy.zz],
    whose name is not hexadecimal, and 7 of [policy.4142] (the name [AB]). *)
Definition token_utxo : list (string * utxo_data) :=
  [("txT#1",
    mk_utxo_data (Some "addr1")
      (Some [("policy", JList [("zz", 5); ("4142", 7)])]) None None)].

(** * Properties *)

Section totals.
Context {A : Type} `{CoinRecord A}.

Lemma foldl_amount_shift (l : list A) (z : Z) :
  foldl (λ x y, x + rec_amount y) z l = z + total_amount l.
Proof.
  unfold total_amount. revert z.
  induction l as [|a l IH]; intros z; simpl; [lia|].
  rewrite IH, (IH (0 + rec_amount a)). lia.
Qed.

Lemma total_amount_nil : total_amount (@nil A) = 0.
Proof. reflexivity. Qed.

Lemma total_amount_cons (a : A) (l : list A) :
  total_amount (a :: l) = rec_amount a + total_amount l.
Proof. unfold total_amount at 1. simpl. rewrite foldl_amount_shift. lia. Qed.

Lemma total_amount_app (l1 l2 : list A) :
  total_amount (l1 ++ l2) = total_amount l1 + total_amount l2.
Proof.
  induction l1 as [|a l1 IH]; simpl; [rewrite total_amount_nil; lia|].
  rewrite !total_amount_cons, IH. lia.
Qed.
End totals.

(** ** The collector *)

Lemma collect_loop_acc utxos amount apc acc n :
  collect_loop utxos amount apc acc n = acc ++ collect_loop utxos amount apc [] n.
Proof.
  revert acc n. induction utxos as [|u us IH]; intros acc n; simpl.
  - by rewrite app_nil_r.
  - repeat case_decide; rewrite ?app_nil_r; try done.
    rewrite IH, (IH [u]). by rewrite <- app_assoc.
Qed.

(** The loop started with running total [n] returns the shortest prefix at
    which [n] plus the prefix total meets a stopping test, or everything. *)
Lemma collect_loop_prefix utxos amount apc n :
  let sel := collect_loop utxos amount apc [] n in
  sel `prefix_of` utxos ∧
  (∀ p, p `prefix_of` sel → p ≠ sel →
        ¬ (n + total_amount p = amount ∨ apc ≤ n + total_amount p)) ∧
  (sel ≠ utxos → n + total_amount sel = amount ∨ apc ≤ n + total_amount sel).
Proof.
  revert n. induction utxos as [|u us IH]; intros n; simpl.
  - split; [done|]. split; [|done].
    intros p Hp Hne. apply prefix_nil_inv in Hp. done.
  - destruct (decide (n = amount)) as [Heq|Hne1].
    { split; [apply prefix_nil|]. split.
      - intros p Hp Hne. apply prefix_nil_inv in Hp. done.
      - intros _. rewrite total_amount_nil. lia. }
    destruct (decide (apc ≤ n)) as [Hle|Hgt].
    { split; [apply prefix_nil|]. split.
      - intros p Hp Hne. apply prefix_nil_inv in Hp. done.
      - intros _. rewrite total_amount_nil. lia. }
    rewrite collect_loop_acc. simpl.
    destruct (IH (n + UTXOData.amount u)) as (Hpre & Hmin & Hstop).
    split; [by apply prefix_cons|]. split.
    + intros p Hp Hne. destruct p as [|u' p'].
      * rewrite total_amount_nil. lia.
      * pose proof (prefix_cons_inv_1 _ _ _ _ Hp) as ->.
        apply prefix_cons_inv_2 in Hp.
        rewrite total_amount_cons.
        specialize (Hmin p' Hp). simpl in Hmin.
        replace (n + (rec_amount u + total_amount p'))
          with (n + UTXOData.amount u + total_amount p') by (simpl; lia).
        apply Hmin. congruence.
    + intros Hne. rewrite total_amount_cons.
      replace (n + (rec_amount u + total_amount (collect_loop us amount apc [] (n + UTXOData.amount u))))
        with (n + UTXOData.amount u + total_amount (collect_loop us amount apc [] (n + UTXOData.amount u)))
        by (simpl; lia).
      apply Hstop. congruence.
Qed.

(** C2. On the UTxOs of one coin [c], the collector returns a prefix of the
    list in its given order: the shortest prefix whose total meets the
    stopping condition (total equal to the amount, or total at least the
    amount plus the minimum change for the base coin), or the whole list when
    no prefix meets it.  For any other coin the minimum change plays no part:
    the condition is that the total has reached the amount. *)
Theorem collect_first_stopping_prefix (c : string) (utxos : list UTXOData.t)
    (amount min_change_value : Z) :
  Forall (λ u, UTXOData.coin u = c) utxos →
  let sel := _collect_utxos_amount utxos amount min_change_value in
  sel `prefix_of` utxos ∧
  (∀ p, p `prefix_of` sel → p ≠ sel →
        ¬ stop_reached c amount min_change_value (total_amount p)) ∧
  (sel ≠ utxos → stop_reached c amount min_change_value (total_amount sel)) ∧
  (c ≠ DEFAULT_COIN →
   ∀ running, stop_reached c amount min_change_value running ↔ amount ≤ running).
Proof.
  intros Hcoin sel.
  assert (Hlast : c ≠ DEFAULT_COIN →
    ∀ running, stop_reached c amount min_change_value running ↔ amount ≤ running).
  { intros Hc r. unfold stop_reached. rewrite decide_False by done. lia. }
  destruct utxos as [|u us].
  { subst sel. simpl. split; [done|]. split; [|done].
    intros p Hp Hne. apply prefix_nil_inv in Hp. done. }
  apply Forall_cons in Hcoin as [Hu _].
  subst sel. unfold _collect_utxos_amount, stop_reached.
  rewrite Hu.
  pose proof (collect_loop_prefix (u :: us) amount
    (if decide (c = DEFAULT_COIN) then amount + min_change_value else amount) 0)
    as (Hpre & Hmin & Hstop).
  split; [exact Hpre|]. split; [|split; [|exact Hlast]].
  - intros p Hp Hne Hs. apply (Hmin p Hp Hne).
    destruct (decide (c = DEFAULT_COIN)); rewrite Z.add_0_l; exact Hs.
  - intros Hne. specialize (Hstop Hne). rewrite !Z.add_0_l in Hstop.
    destruct (decide (c = DEFAULT_COIN)); exact Hstop.
Qed.

Lemma collect_first_stopping_prefix_witness :
  Forall (λ u, UTXOData.coin u = DEFAULT_COIN) wallet3 ∧
  _collect_utxos_amount wallet3 700 50 `prefix_of` wallet3.
Proof.
  assert (H : Forall (λ u, UTXOData.coin u = DEFAULT_COIN) wallet3)
    by (repeat constructor).
  split; [exact H|].
  exact (proj1 (collect_first_stopping_prefix DEFAULT_COIN wallet3 700 50 H)).
Defined.

Example collect_reaches_dust_target :
  _collect_utxos_amount wallet3 700 150 = wallet3.
Proof. reflexivity. Qed.

Example collect_stops_on_exact_amount :
  _collect_utxos_amount wallet3 800 150 = [ada "txA" 0 500 "addr1"; ada "txB" 0 300 "addr1"].
Proof. reflexivity. Qed.

(** The total collected equals the amount, or clears the threshold the
    collector worked with, or every UTxO offered was taken. *)
Lemma collect_total (utxos : list UTXOData.t) (amount min_change_value : Z) :
  let sel := _collect_utxos_amount utxos amount min_change_value in
  let apc := match utxos with
             | u :: _ => if decide (UTXOData.coin u = DEFAULT_COIN)
                         then amount + min_change_value else amount
             | [] => amount
             end in
  total_amount sel = amount ∨ apc ≤ total_amount sel ∨ sel = utxos.
Proof.
  intros sel apc. subst sel. unfold _collect_utxos_amount. fold apc.
  destruct (collect_loop_prefix utxos amount apc 0) as (_ & _ & Hstop).
  destruct (decide (collect_loop utxos amount apc [] 0 = utxos)) as [->|Hne];
    [by right; right|].
  specialize (Hstop Hne). rewrite !Z.add_0_l in Hstop. tauto.
Qed.

(** ** The selector *)

Lemma max_index_shift (g : nat → nat) (l : list TxOut.t) :
  (filter (λ p, is_max p.2) (imap (λ i x, (g i, x)) l)).*1 = g <$> max_index l.
Proof.
  unfold max_index. revert g.
  induction l as [|o l IH]; intros g; [done|].
  simpl. rewrite !filter_cons. simpl.
  change (imap ((λ i x, (g i, x)) ∘ S) l)
    with (imap (λ i (x : TxOut.t), ((g ∘ S) i, x)) l).
  change (imap (pair ∘ S) l) with (imap (λ i (x : TxOut.t), (S i, x)) l).
  destruct (decide (is_max o)); rewrite ?fmap_cons;
    rewrite (IH (g ∘ S)), (IH S), (list_fmap_compose S g); done.
Qed.

Lemma max_index_cons (o : TxOut.t) (l : list TxOut.t) :
  max_index (o :: l)
  = (if decide (is_max o) then [0%nat] else []) ++ (S <$> max_index l).
Proof.
  unfold max_index at 1. simpl. rewrite filter_cons. simpl.
  change (imap (pair ∘ S) l) with (imap (λ i (x : TxOut.t), (S i, x)) l).
  destruct (decide (is_max o)); rewrite ?fmap_cons; by rewrite max_index_shift.
Qed.

Lemma max_index_length (l : list TxOut.t) :
  length (max_index l) = length (filter is_max l).
Proof.
  induction l as [|o l IH]; [done|].
  rewrite max_index_cons, filter_cons, length_app, length_fmap, IH.
  destruct (decide (is_max o)); done.
Qed.

Lemma max_index_nil (l : list TxOut.t) :
  Forall (λ o, ¬ is_max o) l → max_index l = [].
Proof.
  intros Hl. apply length_zero_iff_nil. rewrite max_index_length.
  induction Hl as [|o l Ho _ IH]; [done|].
  by rewrite filter_cons_False.
Qed.

(** C3. For the base coin, with no [-1] output among its requested outputs,
    the amount handed to the collector is
    [max(outputs + max(fee,1) + deposit - withdrawals, max(fee,1))]; it is
    never below [max(fee,1)], whatever the withdrawals cover. *)
Theorem base_coin_input_funds_needed
    (txins_db : gmap string (list UTXOData.t))
    (txouts_passed_db txouts_mint_db : gmap string (list TxOut.t))
    (fee : Z) (withdrawals : list TxOut.t) (min_change_value deposit : Z)
    (utxo_ids : gset string) :
  let coin_txouts := get_or_nil txouts_passed_db DEFAULT_COIN in
  let needed :=
    Z.max (total_amount coin_txouts + Z.max fee 1 + deposit - total_amount withdrawals)
          (Z.max fee 1) in
  Forall (λ o, ¬ is_max o) coin_txouts →
  input_funds_needed DEFAULT_COIN coin_txouts txouts_mint_db fee withdrawals deposit
    = needed ∧
  Z.max fee 1 ≤ needed ∧
  select_coin txins_db txouts_passed_db txouts_mint_db fee withdrawals
    min_change_value deposit utxo_ids DEFAULT_COIN
  = utxo_ids ∪ list_to_set (utxo_id <$>
      _collect_utxos_amount (get_or_nil txins_db DEFAULT_COIN) needed min_change_value).
Proof.
  intros coin_txouts needed Hno.
  assert (Hn : input_funds_needed DEFAULT_COIN coin_txouts txouts_mint_db fee
                 withdrawals deposit = needed).
  { unfold input_funds_needed, needed. rewrite decide_True by done.
    destruct (decide (1 < fee)); lia. }
  split; [exact Hn|]. split; [unfold needed; lia|].
  unfold select_coin. fold coin_txouts.
  rewrite (max_index_nil _ Hno), Hn. done.
Qed.

Lemma base_coin_input_funds_needed_witness :
  input_funds_needed DEFAULT_COIN [TxOut.make "addr2" 300 DEFAULT_COIN] ∅ 0
    [TxOut.make "stake1" 5000 DEFAULT_COIN] 0 = 1.
Proof.
  refine (proj1 (base_coin_input_funds_needed ∅
    {[DEFAULT_COIN := [TxOut.make "addr2" 300 DEFAULT_COIN]]} ∅ 0
    [TxOut.make "stake1" 5000 DEFAULT_COIN] 0 0 ∅ _)).
  repeat constructor; unfold is_max; simpl; lia.
Defined.

(** ** The balancer *)

Lemma set_iter_NoDup `{SetOrder} (s : gset string) : NoDup (set_iter s).
Proof. rewrite set_iter_perm. apply NoDup_elements. Qed.

Lemma elem_of_set_iter `{SetOrder} (s : gset string) (c : string) :
  c ∈ set_iter s ↔ c ∈ s.
Proof. rewrite set_iter_perm. apply elem_of_elements. Qed.

(** What [pop(max_index[0])] does when at most one output asks for all
    remaining funds. *)
Lemma pop_single (l : list TxOut.t) :
  (length (filter is_max l) ≤ 1)%nat →
  match max_index l with
  | [] => filter (λ o, ¬ is_max o) l = l ∧ filter is_max l = []
  | i :: _ =>
      ∃ o, l !! i = Some o ∧ delete i l = filter (λ o, ¬ is_max o) l ∧
           filter is_max l = [o]
  end.
Proof.
  induction l as [|o l IH]; intros Hlen; [done|].
  rewrite max_index_cons. rewrite filter_cons in Hlen.
  rewrite !filter_cons.
  destruct (decide (is_max o)) as [Ho|Ho]; simpl in *.
  - rewrite decide_False by tauto.
    assert (Hnil : filter is_max l = []) by (apply length_zero_iff_nil; lia).
    exists o. split; [done|]. rewrite Hnil. split; [|done].
    assert (Hmi : max_index l = []).
    { apply length_zero_iff_nil. rewrite max_index_length, Hnil. done. }
    specialize (IH ltac:(rewrite Hnil; simpl; lia)). rewrite Hmi in IH.
    symmetry. apply IH.
  - rewrite decide_True by done. specialize (IH Hlen).
    destruct (max_index l) as [|i mi]; simpl.
    + destruct IH as [-> ->]. done.
    + destruct IH as (o' & Hl & Hd & Hf). exists o'.
      rewrite Hd, Hf. done.
Qed.

Lemma coin_change_fst (c : string) (tin tout : Z)
    (mint : gmap string (list TxOut.t)) (fee : Z) (w : list TxOut.t) (dep : Z) :
  (coin_change c tin tout mint fee w dep false).1
  = if decide (c = DEFAULT_COIN)
    then tin + total_amount w - (tout + Z.max fee 0 + dep)
    else tin + total_amount (get_or_nil mint c) - tout.
Proof.
  unfold coin_change. rewrite andb_false_r.
  destruct (decide (c = DEFAULT_COIN)) as [->|Hc].
  - rewrite bool_decide_eq_true_2 by done. simpl.
    destruct (decide (0 < fee)); f_equal; lia.
  - rewrite bool_decide_eq_false_2 by done. done.
Qed.

(** One turn of the balancer's loop either raises because two outputs of the
    coin ask for all remaining funds, or appends the change output and leaves
    the coin's list without its [-1] output. *)
Lemma balance_coin_cases src txins_db mint fee w dep lb st c :
  let db := bs_passed_db st in
  let change :=
    (coin_change c (total_amount (get_or_nil txins_db c))
       (total_amount (requested db c)) mint fee w dep lb).1 in
  ((1 < length (filter is_max (get_or_nil db c)))%nat ∧
   balance_coin src txins_db mint fee w dep lb st c
   = inl (CLIError "Cannot send all remaining funds to more than one address."))
  ∨
  ((length (filter is_max (get_or_nil db c)) ≤ 1)%nat ∧
   ∃ msgs,
     balance_coin src txins_db mint fee w dep lb st c
     = inr (mk_bal_state
              (if decide (filter is_max (get_or_nil db c) = []) then db
               else <[c := requested db c]> db)
              (bs_result st ++
                 (if decide (0 < change)
                  then [TxOut.make (change_address src db c) change c] else []))
              (bs_log st ++ msgs))).
Proof.
  intros db change. unfold balance_coin. fold db.
  rewrite max_index_length.
  destruct (decide (1 < length (filter is_max (get_or_nil db c)))%nat) as [Hgt|Hle];
    [left; split; [exact Hgt|reflexivity]|right].
  split; [lia|].
  pose proof (pop_single (get_or_nil db c) ltac:(lia)) as Hpop.
  subst change. unfold requested, change_address.
  destruct (max_index (get_or_nil db c)) as [|i mi].
  - destruct Hpop as [Hreq Hnil]. rewrite Hreq, Hnil. simpl.
    destruct (coin_change _ _ _ _ _ _ _ _) as [change msgs]. simpl.
    exists msgs. destruct (decide (0 < change)); rewrite ?app_nil_r; done.
  - destruct Hpop as (o & Hl & Hd & Hf). rewrite Hl, Hd, Hf. simpl.
    destruct (coin_change _ _ _ _ _ _ _ _) as [change msgs]. simpl.
    exists msgs. try rewrite decide_False by done.
    destruct (decide (0 < change)); rewrite ?app_nil_r; done.
Qed.

Section balance_loop.
Context (src : string) (txins_db : gmap string (list UTXOData.t))
  (passed mint : gmap string (list TxOut.t)) (fee : Z) (w : list TxOut.t)
  (dep : Z) (lb : bool).

Local Abbreviation loop := (balance_loop src txins_db mint fee w dep lb).
Local Abbreviation step := (balance_coin src txins_db mint fee w dep lb).
Local Abbreviation sentinels c := (filter is_max (get_or_nil passed c)).

(** [balance_coin_cases] for a state whose list for [c] is still the one
    the balancer was given. *)
Lemma balance_coin_fresh (st : bal_state) (c : string) :
  bs_passed_db st !! c = passed !! c →
  ((1 < length (sentinels c))%nat ∧
   step st c
   = inl (CLIError "Cannot send all remaining funds to more than one address."))
  ∨
  ((length (sentinels c) ≤ 1)%nat ∧
   ∃ msgs,
     step st c
     = inr (mk_bal_state
              (if decide (sentinels c = []) then bs_passed_db st
               else <[c := requested passed c]> (bs_passed_db st))
              (bs_result st ++
                 change_outputs src passed
                   (change_of txins_db passed mint fee w dep lb) [c])
              (bs_log st ++ msgs))).
Proof.
  intros Hc.
  pose proof (balance_coin_cases src txins_db mint fee w dep lb st c) as Hcases.
  simpl in Hcases.
  unfold change_outputs, change_of, change_address, requested, get_or_nil in *.
  simpl. rewrite Hc in Hcases. rewrite app_nil_r. exact Hcases.
Qed.

(** When no coin has two [-1] outputs the loop runs to its end, appending
    the change outputs of the coins in the order visited and taking the
    [-1] output out of the list of each coin that has one. *)
Lemma balance_loop_ok (coins : list string) (st : bal_state) :
  NoDup coins →
  (∀ c, c ∈ coins → bs_passed_db st !! c = passed !! c) →
  (∀ c, c ∈ coins → (length (sentinels c) ≤ 1)%nat) →
  ∃ st',
    loop coins st = (st', None) ∧
    bs_result st'
    = bs_result st ++
      change_outputs src passed (change_of txins_db passed mint fee w dep lb) coins ∧
    (∀ c, bs_passed_db st' !! c
          = if decide (c ∈ coins ∧ sentinels c ≠ [])
            then Some (requested passed c) else bs_passed_db st !! c).
Proof.
  revert st. induction coins as [|c0 coins IH]; intros st Hnd Hinv Hle.
  - exists st. split; [done|]. split; [by rewrite app_nil_r|].
    intros c. case_decide as Hc; [|done].
    destruct Hc as [Hc _]. by apply elem_of_nil in Hc.
  - apply NoDup_cons in Hnd as [Hc0 Hnd].
    destruct (balance_coin_fresh st c0 (Hinv c0 ltac:(left))) as [[Hgt _]|[_ [msgs Hstep]]].
    { specialize (Hle c0 ltac:(left)). lia. }
    simpl. rewrite Hstep.
    set (st1 := mk_bal_state _ _ _).
    destruct (IH st1 Hnd) as (st' & Hrun & Hres & Hdb).
    + intros c Hc. subst st1. simpl.
      destruct (decide (sentinels c0 = [])); [apply Hinv; by right|].
      rewrite lookup_insert_ne; [apply Hinv; by right|].
      intros ->. done.
    + intros c Hc. apply Hle. by right.
    + exists st'. split; [exact Hrun|]. split.
      * rewrite Hres. subst st1. simpl. rewrite <- app_assoc. f_equal.
        unfold change_outputs. simpl. by rewrite app_nil_r.
      * intros c. rewrite Hdb. subst st1. simpl.
        destruct (decide (c = c0)) as [->|Hne].
        -- rewrite (decide_False (P := c0 ∈ coins ∧ _)) by tauto.
           destruct (decide (sentinels c0 = [])) as [Hs|Hs].
           ++ rewrite decide_False; [done|]. tauto.
           ++ rewrite decide_True; [|split; [left|done]].
              by rewrite lookup_insert_eq.
        -- assert (Hiff : (c ∈ coins ∧ sentinels c ≠ []) ↔ (c ∈ c0 :: coins ∧ sentinels c ≠ [])).
           { rewrite elem_of_cons. tauto. }
           destruct (decide (c ∈ coins ∧ sentinels c ≠ [])) as [Hin|Hin].
           ++ rewrite (decide_True (P := c ∈ c0 :: coins ∧ _)) by tauto. done.
           ++ rewrite (decide_False (P := c ∈ c0 :: coins ∧ _)) by tauto.
              destruct (decide (sentinels c0 = [])); [done|].
              by rewrite lookup_insert_ne.
Qed.

(** Whatever the outcome, the list of a coin is either untouched or has
    lost its single [-1] output. *)
Lemma balance_loop_db (coins : list string) (st : bal_state) (c : string) :
  NoDup coins →
  (∀ c, c ∈ coins → bs_passed_db st !! c = passed !! c) →
  bs_passed_db (loop coins st).1 !! c = bs_passed_db st !! c ∨
  (c ∈ coins ∧ length (sentinels c) = 1%nat ∧
   bs_passed_db (loop coins st).1 !! c = Some (requested passed c)).
Proof.
  revert st. induction coins as [|c0 coins IH]; intros st Hnd Hinv; [by left|].
  apply NoDup_cons in Hnd as [Hc0 Hnd].
  simpl.
  destruct (balance_coin_fresh st c0 (Hinv c0 ltac:(left)))
    as [[_ Hstep]|[Hle [msgs Hstep]]]; rewrite Hstep; [by left|].
  set (st1 := mk_bal_state _ _ _).
  assert (Hinv1 : ∀ c, c ∈ coins → bs_passed_db st1 !! c = passed !! c).
  { intros c' Hc'. subst st1. simpl.
    destruct (decide (sentinels c0 = [])); [apply Hinv; by right|].
    rewrite lookup_insert_ne; [apply Hinv; by right|]. intros ->. done. }
  destruct (IH st1 Hnd Hinv1) as [Heq|(Hin & Hone & Heq)].
  - rewrite Heq. subst st1. simpl.
    destruct (decide (sentinels c0 = [])) as [Hs|Hs]; [by left|].
    destruct (decide (c = c0)) as [->|Hne].
    + right. split; [left|]. split; [|by rewrite lookup_insert_eq].
      destruct (sentinels c0) as [|? [|? ?]]; simpl in *; [done|done|lia].
    + left. by rewrite lookup_insert_ne.
  - right. split; [by right|]. done.
Qed.

(** Two [-1] outputs for one of the coins visited end the loop with the
    fatal error. *)
Lemma balance_loop_raises (coins : list string) (st : bal_state) (bad : string) :
  NoDup coins →
  (∀ c, c ∈ coins → bs_passed_db st !! c = passed !! c) →
  bad ∈ coins → (1 < length (sentinels bad))%nat →
  (loop coins st).2
  = Some (CLIError "Cannot send all remaining funds to more than one address.").
Proof.
  revert st. induction coins as [|c0 coins IH]; intros st Hnd Hinv Hbad Hgt.
  { by apply elem_of_nil in Hbad. }
  apply NoDup_cons in Hnd as [Hc0 Hnd].
  simpl.
  destruct (balance_coin_fresh st c0 (Hinv c0 ltac:(left)))
    as [[_ Hstep]|[Hle [msgs Hstep]]]; rewrite Hstep; [done|].
  apply IH; [done| | |done].
  - intros c' Hc'. simpl.
    destruct (decide (sentinels c0 = [])); [apply Hinv; by right|].
    rewrite lookup_insert_ne; [apply Hinv; by right|]. intros ->. done.
  - apply elem_of_cons in Hbad as [->|Hbad]; [lia|done].
Qed.
End balance_loop.

Lemma change_outputs_positive src passed change coins :
  Forall (λ o, 0 < TxOut.amount o) (change_outputs src passed change coins).
Proof.
  unfold change_outputs. induction coins as [|c coins IH]; simpl; [constructor|].
  case_decide; simpl; [constructor; [done|exact IH]|exact IH].
Qed.

Lemma filter_all {A : Type} (P : A → Prop) `{∀ x, Decision (P x)} (l : list A) :
  Forall P l → filter P l = l.
Proof.
  induction 1 as [|x l Hx _ IH]; [done|].
  by rewrite filter_cons_True, IH.
Qed.

Lemma balance_txouts_unfold `{SetOrder} src txouts txins_db passed mint fee w dep lb :
  let run := balance_loop src txins_db mint fee w dep lb
               (set_iter (coins_of txins_db passed mint))
               (mk_bal_state passed txouts []) in
  passed_db_after (_balance_txouts src txouts txins_db passed mint fee w dep lb)
  = bs_passed_db run.1 ∧
  returned (_balance_txouts src txouts txins_db passed mint fee w dep lb)
  = match run.2 with
    | Some e => inl e
    | None => inr (filter (λ r, 0 < TxOut.amount r) (bs_result run.1))
    end.
Proof.
  intros run. unfold _balance_txouts. fold run.
  destruct run as [st [e|]]; done.
Qed.

(** The result of the balancer when no coin has two [-1] outputs. *)
Lemma balance_txouts_balanced `{SetOrder} (src : string) (txouts : list TxOut.t)
    (txins_db : gmap string (list UTXOData.t))
    (passed mint : gmap string (list TxOut.t)) (fee : Z)
    (withdrawals : list TxOut.t) (deposit : Z) :
  (∀ c, (length (filter is_max (get_or_nil passed c)) ≤ 1)%nat) →
  balanced_by (Z.max fee 0) src txouts txins_db passed mint withdrawals deposit
    (set_iter (coins_of txins_db passed mint))
    (returned (_balance_txouts src txouts txins_db passed mint fee withdrawals
                 deposit false)).
Proof.
  intros Hle.
  destruct (balance_txouts_unfold src txouts txins_db passed mint fee withdrawals
              deposit false) as [_ Hret].
  destruct (balance_loop_ok src txins_db passed mint fee withdrawals deposit false
              (set_iter (coins_of txins_db passed mint))
              (mk_bal_state passed txouts []))
    as (st' & Hrun & Hres & _);
    [apply set_iter_NoDup|done|intros c _; apply Hle|].
  rewrite Hrun in Hret. simpl in Hret, Hres.
  exists (change_of txins_db passed mint fee withdrawals deposit false).
  assert (Hfilter :
    filter (λ r, 0 < TxOut.amount r) (bs_result st')
    = filter (λ o, 0 < TxOut.amount o) txouts ++
      change_outputs src passed
        (change_of txins_db passed mint fee withdrawals deposit false)
        (set_iter (coins_of txins_db passed mint))).
  { rewrite Hres, filter_app. f_equal.
    apply filter_all, change_outputs_positive. }
  split; [|split].
  - intros c _. unfold coin_balances, change_of. rewrite coin_change_fst.
    destruct (decide (c = DEFAULT_COIN)); lia.
  - by rewrite Hret, Hfilter.
  - rewrite <- Hfilter. apply Forall_forall. intros o Ho.
    by apply list_elem_of_filter in Ho as [Ho _].
Qed.

(** C1 (as amended). With base-coin balancing not delegated and at most one
    [-1] output per coin, the balancer returns the positive requested outputs
    followed by one change output for each coin whose change is positive;
    the change of each coin satisfies the accounting identity in which the
    fee term is [max(fee, 0)]; no output of the result has amount [<= 0]. *)
Theorem balancer_accounting `{SetOrder} (src : string) (txouts : list TxOut.t)
    (txins_db : gmap string (list UTXOData.t))
    (passed mint : gmap string (list TxOut.t)) (fee : Z)
    (withdrawals : list TxOut.t) (deposit : Z) :
  (∀ c, (length (filter is_max (get_or_nil passed c)) ≤ 1)%nat) →
  balanced_by (Z.max fee 0) src txouts txins_db passed mint withdrawals deposit
    (set_iter (coins_of txins_db passed mint))
    (returned (_balance_txouts src txouts txins_db passed mint fee withdrawals
                 deposit false)).
Proof. apply balance_txouts_balanced. Qed.

Lemma balancer_accounting_witness :
  balanced_by (Z.max 10 0) "addr1" [pay300] txA_db {[DEFAULT_COIN := [pay300]]} ∅
    [] 0 (@set_iter elements_order (coins_of txA_db {[DEFAULT_COIN := [pay300]]} ∅))
    (returned (@_balance_txouts elements_order "addr1" [pay300] txA_db
                 {[DEFAULT_COIN := [pay300]]} ∅ 10 [] 0 false)).
Proof.
  apply (@balancer_accounting elements_order).
  intros c. unfold get_or_nil.
  destruct (decide (c = DEFAULT_COIN)) as [->|Hne].
  - rewrite lookup_singleton_eq. simpl. lia.
  - rewrite lookup_singleton_ne by done. simpl. lia.
Defined.

(** C1 as stated fails for a negative fee: with fee [-5] the balancer charges
    no fee, so the change it appends (700) is not the one the identity with
    the fee itself would give (705). *)
Lemma balancer_fee_term_counterexample :
  ¬ balanced_by (-5) "addr1" [pay300] txA_db {[DEFAULT_COIN := [pay300]]} ∅ [] 0
      (@set_iter elements_order (coins_of txA_db {[DEFAULT_COIN := [pay300]]} ∅))
      (returned (@_balance_txouts elements_order "addr1" [pay300] txA_db
                   {[DEFAULT_COIN := [pay300]]} ∅ (-5) [] 0 false)).
Proof.
  intros (change & Hbal & Hret & _).
  assert (Hcoins : @set_iter elements_order
            (coins_of txA_db {[DEFAULT_COIN := [pay300]]} ∅) = [DEFAULT_COIN])
    by (vm_compute; reflexivity).
  assert (Hrun : returned (@_balance_txouts elements_order "addr1" [pay300] txA_db
                   {[DEFAULT_COIN := [pay300]]} ∅ (-5) [] 0 false)
                 = inr [pay300; TxOut.make "addr1" 700 DEFAULT_COIN])
    by (vm_compute; reflexivity).
  rewrite Hcoins in Hbal, Hret. rewrite Hrun in Hret.
  specialize (Hbal DEFAULT_COIN ltac:(left)).
  unfold coin_balances in Hbal. rewrite decide_True in Hbal by done.
  assert (Hin : total_amount (get_or_nil txA_db DEFAULT_COIN) = 1000)
    by (vm_compute; reflexivity).
  assert (Hout : total_amount (requested {[DEFAULT_COIN := [pay300]]} DEFAULT_COIN) = 300)
    by (vm_compute; reflexivity).
  rewrite Hin, Hout in Hbal. change (total_amount (@nil TxOut.t)) with 0 in Hbal.
  assert (Hc : change DEFAULT_COIN = 705) by lia.
  unfold change_outputs, flat_map in Hret. rewrite Hc in Hret.
  vm_compute in Hret. discriminate Hret.
Qed.

Example balancer_charges_no_negative_fee :
  returned (@_balance_txouts elements_order "addr1" [pay300] txA_db
              {[DEFAULT_COIN := [pay300]]} ∅ (-5) [] 0 false)
  = inr [pay300; TxOut.make "addr1" 700 DEFAULT_COIN].
Proof. vm_compute. reflexivity. Qed.

Lemma sentinels_in_coins txins_db (passed mint : gmap string (list TxOut.t)) c :
  filter is_max (get_or_nil passed c) ≠ [] → c ∈ coins_of txins_db passed mint.
Proof.
  unfold get_or_nil, coins_of. intros Hs.
  destruct (passed !! c) as [l|] eqn:Hl; [|done].
  assert (c ∈ dom passed) by (apply elem_of_dom; eauto). set_solver.
Qed.

(** C8 (as amended). [_balance_txouts] changes [txouts_passed_db] in one way
    only: the list of a coin with exactly one [-1] output loses that output.
    The list of a coin without a [-1] output is left as it was, whether the
    call returns or raises; when no coin has a [-1] output the whole
    dictionary is unchanged; and when the call returns, the list of every
    coin that had a [-1] output is the list without it. *)
Theorem balancer_passed_db_effect `{SetOrder} (src : string) (txouts : list TxOut.t)
    (txins_db : gmap string (list UTXOData.t))
    (passed mint : gmap string (list TxOut.t)) (fee : Z)
    (withdrawals : list TxOut.t) (deposit : Z) (lovelace_balanced : bool) :
  let b := _balance_txouts src txouts txins_db passed mint fee withdrawals
             deposit lovelace_balanced in
  (∀ c, passed_db_after b !! c = passed !! c ∨
        (length (filter is_max (get_or_nil passed c)) = 1%nat ∧
         passed_db_after b !! c = Some (requested passed c))) ∧
  (∀ c, filter is_max (get_or_nil passed c) = [] →
        passed_db_after b !! c = passed !! c) ∧
  ((∀ c, filter is_max (get_or_nil passed c) = []) → passed_db_after b = passed) ∧
  (∀ outs c, returned b = inr outs →
        filter is_max (get_or_nil passed c) ≠ [] →
        passed_db_after b !! c = Some (requested passed c)).
Proof.
  intros b.
  destruct (balance_txouts_unfold src txouts txins_db passed mint fee withdrawals
              deposit lovelace_balanced) as [Hdb Hret].
  fold b in Hdb, Hret.
  set (coins := set_iter (coins_of txins_db passed mint)) in *.
  set (st0 := mk_bal_state passed txouts []) in *.
  assert (Hnd : NoDup coins) by apply set_iter_NoDup.
  assert (Hinv : ∀ c, c ∈ coins → bs_passed_db st0 !! c = passed !! c) by done.
  assert (Hany : ∀ c, passed_db_after b !! c = passed !! c ∨
        (length (filter is_max (get_or_nil passed c)) = 1%nat ∧
         passed_db_after b !! c = Some (requested passed c))).
  { intros c. rewrite Hdb.
    destruct (balance_loop_db src txins_db passed mint fee withdrawals deposit
                lovelace_balanced coins st0 c Hnd Hinv) as [Heq|(_ & Hone & Heq)];
      [by left|by right]. }
  assert (Hnone : ∀ c, filter is_max (get_or_nil passed c) = [] →
        passed_db_after b !! c = passed !! c).
  { intros c Hc. destruct (Hany c) as [Heq|[Hone _]]; [done|].
    rewrite Hc in Hone. done. }
  split; [exact Hany|]. split; [exact Hnone|]. split.
  - intros Hall. apply map_eq. intros c. by apply Hnone.
  - intros outs c Hout Hs.
    assert (Hle : ∀ c', c' ∈ coins →
              (length (filter is_max (get_or_nil passed c')) ≤ 1)%nat).
    { intros c' Hc'.
      destruct (decide (1 < length (filter is_max (get_or_nil passed c')))%nat)
        as [Hgt|]; [|lia].
      rewrite (balance_loop_raises src txins_db passed mint fee withdrawals deposit
                 lovelace_balanced coins st0 c' Hnd Hinv Hc' Hgt) in Hret.
      congruence. }
    destruct (balance_loop_ok src txins_db passed mint fee withdrawals deposit
                lovelace_balanced coins st0 Hnd Hinv Hle) as (st' & Hrun & _ & Hlook).
    rewrite Hdb, Hrun. simpl. rewrite Hlook.
    rewrite decide_True; [done|]. split; [|done].
    apply elem_of_set_iter. by apply sentinels_in_coins.
Qed.

Lemma balancer_passed_db_effect_witness :
  passed_db_after (@_balance_txouts elements_order "addr1" [pay300] txA_db
                     {[DEFAULT_COIN := [pay300]]} ∅ 10 [] 0 false)
  = {[DEFAULT_COIN := [pay300]]}.
Proof.
  refine (proj1 (proj2 (proj2 (@balancer_passed_db_effect elements_order "addr1"
    [pay300] txA_db {[DEFAULT_COIN := [pay300]]} ∅ 10 [] 0 false))) _).
  intros c. unfold get_or_nil.
  destruct (decide (c = DEFAULT_COIN)) as [->|Hne].
  - rewrite lookup_singleton_eq. reflexivity.
  - rewrite lookup_singleton_ne by done. reflexivity.
Defined.

(** C8 as stated fails: a [-1] output is popped from the list that
    [txouts_passed_db] holds for its coin, so the dictionary the caller
    passed is not the same after the call. *)
Lemma balancer_mutates_passed_db :
  passed_db_after (@_balance_txouts elements_order "addr1" [pay_all "addr2"] txA_db
                     {[DEFAULT_COIN := [pay_all "addr2"]]} ∅ 10 [] 0 false)
  ≠ {[DEFAULT_COIN := [pay_all "addr2"]]}.
Proof.
  intros Heq.
  apply (f_equal (λ m : gmap string (list TxOut.t), m !! DEFAULT_COIN)) in Heq.
  vm_compute in Heq. discriminate Heq.
Qed.

Example balancer_pops_the_max_output :
  passed_db_after (@_balance_txouts elements_order "addr1" [pay_all "addr2"] txA_db
                     {[DEFAULT_COIN := [pay_all "addr2"]]} ∅ 10 [] 0 false)
    !! DEFAULT_COIN = Some [] ∧
  returned (@_balance_txouts elements_order "addr1" [pay_all "addr2"] txA_db
              {[DEFAULT_COIN := [pay_all "addr2"]]} ∅ 10 [] 0 false)
  = inr [TxOut.make "addr2" 990 DEFAULT_COIN].
Proof. split; vm_compute; reflexivity. Qed.

(** ** Grouping by coin *)

Section organize.
Context {A : Type} `{CoinRecord A}.

Lemma organize_step_lookup (db : gmap string (list A)) (r : A) (c : string) :
  organize_step db r !! c
  = if decide (rec_coin r = c) then Some (default [] (db !! c) ++ [r])
    else db !! c.
Proof.
  unfold organize_step.
  destruct (decide (rec_coin r = c)) as [<-|Hne].
  - destruct (decide (rec_coin r ∈ dom db)) as [Hin|Hnin].
    + apply elem_of_dom in Hin as [l Hl].
      rewrite lookup_alter_eq, Hl. done.
    + apply not_elem_of_dom in Hnin.
      rewrite lookup_alter_eq, lookup_insert_eq, Hnin. done.
  - rewrite lookup_alter_ne by done.
    destruct (decide (rec_coin r ∈ dom db)); [done|].
    by rewrite lookup_insert_ne.
Qed.

Lemma organize_fold_lookup (l : list A) (db : gmap string (list A)) (c : string) :
  foldl organize_step db l !! c
  = match filter (λ r, rec_coin r = c) l with
    | [] => db !! c
    | rs => Some (default [] (db !! c) ++ rs)
    end.
Proof.
  revert db. induction l as [|r l IH]; intros db; [done|].
  simpl. rewrite IH, organize_step_lookup, filter_cons.
  destruct (decide (rec_coin r = c)) as [Hc|Hc]; simpl.
  - destruct (filter _ l); simpl; [done|]. by rewrite <- app_assoc.
  - done.
Qed.

(** The list kept for a coin is the records of that coin, in their order. *)
Lemma organize_get (l : list A) (c : string) :
  get_or_nil (_organize_tx_ins_outs_by_coin l) c = filter (λ r, rec_coin r = c) l.
Proof.
  unfold get_or_nil, _organize_tx_ins_outs_by_coin.
  rewrite organize_fold_lookup, lookup_empty.
  destruct (filter _ l); done.
Qed.

Lemma organize_dom (l : list A) (c : string) :
  c ∈ dom (_organize_tx_ins_outs_by_coin l) ↔ c ∈ rec_coin <$> l.
Proof.
  rewrite elem_of_dom. unfold _organize_tx_ins_outs_by_coin.
  rewrite organize_fold_lookup, lookup_empty, list_elem_of_fmap.
  split.
  - destruct (filter _ l) as [|r rs] eqn:Hf; [by intros [? ?]|]. intros _.
    assert (Hr : r ∈ filter (λ r, rec_coin r = c) l) by (rewrite Hf; left).
    apply list_elem_of_filter in Hr as [Hr Hin]. eauto.
  - intros (r & -> & Hin).
    assert (Hr : r ∈ filter (λ r', rec_coin r' = rec_coin r) l)
      by (by apply list_elem_of_filter).
    destruct (filter _ l); [by apply elem_of_nil in Hr|]. eauto.
Qed.

Lemma organize_grouped (l : list A) :
  grouped_by_coin (_organize_tx_ins_outs_by_coin l).
Proof.
  intros c rs Hrs.
  assert (Hget : get_or_nil (_organize_tx_ins_outs_by_coin l) c = rs)
    by (unfold get_or_nil; by rewrite Hrs).
  rewrite organize_get in Hget. subst rs.
  apply Forall_forall. intros r Hr.
  by apply list_elem_of_filter in Hr as [Hr _].
Qed.
End organize.

(** ** The selector against its specification *)

Lemma max_index_Exists (l : list TxOut.t) :
  max_index l ≠ [] ↔ Exists is_max l.
Proof.
  rewrite <- length_zero_iff_nil, max_index_length, length_zero_iff_nil.
  induction l as [|o l IH]; [rewrite Exists_nil; tauto|].
  rewrite Exists_cons, filter_cons.
  destruct (decide (is_max o)); [split; [tauto|done]|tauto].
Qed.

(** On UTxOs that are not of the base coin, a non-positive amount collects
    nothing, and clamping the amount at zero changes nothing. *)
Lemma collect_nothing_needed (utxos : list UTXOData.t) (amount mcv : Z) :
  head (UTXOData.coin <$> utxos) ≠ Some DEFAULT_COIN →
  amount ≤ 0 → _collect_utxos_amount utxos amount mcv = [].
Proof.
  intros Hc Hle. unfold _collect_utxos_amount.
  destruct utxos as [|u us]; [done|]. simpl in Hc.
  rewrite decide_False by congruence. simpl.
  destruct (decide (0 = amount)); [done|].
  rewrite decide_True by lia. done.
Qed.

Lemma collect_clamped (utxos : list UTXOData.t) (amount mcv : Z) :
  head (UTXOData.coin <$> utxos) ≠ Some DEFAULT_COIN →
  _collect_utxos_amount utxos amount mcv
  = _collect_utxos_amount utxos (Z.max 0 amount) mcv.
Proof.
  intros Hc. destruct (decide (0 ≤ amount)) as [Hle|Hgt].
  - by rewrite Z.max_r.
  - rewrite !collect_nothing_needed; [done|done|lia|done|lia].
Qed.

Lemma grouped_head (txins_db : gmap string (list UTXOData.t)) (c : string) :
  grouped_by_coin txins_db → c ≠ DEFAULT_COIN →
  head (UTXOData.coin <$> get_or_nil txins_db c) ≠ Some DEFAULT_COIN.
Proof.
  intros Hg Hc. unfold get_or_nil.
  destruct (txins_db !! c) as [l|] eqn:Hl; [|done].
  specialize (Hg c l Hl). destruct Hg as [|u us Hu _]; [done|].
  simpl in *. congruence.
Qed.

Lemma funds_needed_spec_eq coin coin_txouts mint fee w dep :
  input_funds_needed coin coin_txouts mint fee w dep
  = funds_needed_spec coin coin_txouts mint fee w dep.
Proof.
  unfold input_funds_needed, funds_needed_spec.
  destruct (decide (coin = DEFAULT_COIN)); [|done].
  destruct (decide (1 < fee)); lia.
Qed.

Lemma select_coin_refines txins_db passed mint fee w mcv dep ids c :
  grouped_by_coin txins_db →
  select_coin txins_db passed mint fee w mcv dep ids c
  = select_coin_spec txins_db passed mint fee w mcv dep ids c.
Proof.
  intros Hg. unfold select_coin, select_coin_spec.
  pose proof (max_index_Exists (get_or_nil passed c)) as Hmax.
  destruct (max_index (get_or_nil passed c)) as [|i mi].
  - rewrite decide_False
      by (intros He; destruct (proj2 Hmax He); reflexivity).
    rewrite funds_needed_spec_eq.
    destruct (decide (c = DEFAULT_COIN)) as [->|Hc].
    + rewrite Z.max_r; [done|].
      unfold funds_needed_spec. rewrite decide_True by done. lia.
    + rewrite <- collect_clamped by (by apply grouped_head). done.
  - rewrite decide_True by (by apply Hmax). done.
Qed.

(** C6. For a coin other than the base coin whose funds needed (requested
    outputs minus minted amount) are zero or negative, the selector's turn
    for that coin selects nothing; and the selector, which hands the
    collector the unclamped amount, selects exactly what the specification's
    selector, which clamps the amount at zero, selects. *)
Theorem selector_clamp_refinement `{SetOrder}
    (txins_db : gmap string (list UTXOData.t))
    (passed mint : gmap string (list TxOut.t)) (fee : Z)
    (withdrawals : list TxOut.t) (min_change_value deposit : Z) :
  grouped_by_coin txins_db →
  (∀ c ids, c ≠ DEFAULT_COIN → ¬ Exists is_max (get_or_nil passed c) →
     total_amount (get_or_nil passed c) - total_amount (get_or_nil mint c) ≤ 0 →
     _collect_utxos_amount (get_or_nil txins_db c)
       (total_amount (get_or_nil passed c) - total_amount (get_or_nil mint c))
       min_change_value = [] ∧
     select_coin txins_db passed mint fee withdrawals min_change_value deposit ids c
     = ids) ∧
  _select_utxos txins_db passed mint fee withdrawals min_change_value deposit
  = select_utxos_spec txins_db passed mint fee withdrawals min_change_value deposit.
Proof.
  intros Hg. split.
  - intros c ids Hc Hno Hle.
    assert (Hnil : _collect_utxos_amount (get_or_nil txins_db c)
              (total_amount (get_or_nil passed c) - total_amount (get_or_nil mint c))
              min_change_value = [])
      by (apply collect_nothing_needed; [by apply grouped_head|done]).
    split; [exact Hnil|].
    unfold select_coin.
    pose proof (max_index_Exists (get_or_nil passed c)) as Hmax.
    destruct (max_index (get_or_nil passed c)) as [|i mi];
      [|exfalso; apply Hno, Hmax; done].
    unfold input_funds_needed. rewrite decide_False by done.
    rewrite Hnil. simpl. apply (right_id_L ∅ (∪)).
  - unfold _select_utxos, select_utxos_spec.
    generalize (set_iter (coins_of txins_db passed mint)).
    generalize (∅ : gset string).
    intros ids l. revert ids.
    induction l as [|c l IH]; intros ids; [done|].
    simpl. rewrite select_coin_refines by done. apply IH.
Qed.

Lemma selector_clamp_refinement_witness :
  @_select_utxos elements_order
     {[ "policy.T" := [UTXOData.mk "txB" 0 100 "addr1" "policy.T" "" ""] ]}
     {[ "policy.T" := [TxOut.make "addr2" 20 "policy.T"] ]}
     {[ "policy.T" := [TxOut.make "addr1" 50 "policy.T"] ]} 10 [] 0 0
  = @select_utxos_spec elements_order
     {[ "policy.T" := [UTXOData.mk "txB" 0 100 "addr1" "policy.T" "" ""] ]}
     {[ "policy.T" := [TxOut.make "addr2" 20 "policy.T"] ]}
     {[ "policy.T" := [TxOut.make "addr1" 50 "policy.T"] ]} 10 [] 0 0.
Proof.
  refine (proj2 (@selector_clamp_refinement elements_order _ _ _ 10 [] 0 0 _)).
  intros c l Hl.
  destruct (decide (c = "policy.T")) as [->|Hne].
  - rewrite lookup_singleton_eq in Hl. injection Hl as <-.
    repeat constructor.
  - rewrite lookup_singleton_ne in Hl by done. discriminate Hl.
Defined.

Example selector_takes_nothing_when_minting_covers :
  @_select_utxos elements_order
     {[ "policy.T" := [UTXOData.mk "txB" 0 100 "addr1" "policy.T" "" ""] ]}
     {[ "policy.T" := [TxOut.make "addr2" 20 "policy.T"] ]}
     {[ "policy.T" := [TxOut.make "addr1" 50 "policy.T"] ]} 10 [] 0 0
  = ∅.
Proof. vm_compute. reflexivity. Qed.

(** ** The orchestrator *)

Ltac run_binds :=
  unfold mbind, M_bind, mret, M_ret, call, tell;
  cbn [truthy negb]; cbv beta iota zeta.

(** The run with automatic selection, when both lookups succeed. *)
Lemma get_tx_ins_outs_auto `{SetOrder} obj src files txins txouts fee deposit
    w mint lb utxos dep :
  to_list txins = [] →
  ClusterLib.get_utxo obj src = inr utxos →
  (if deposit is Some d then inr d else ClusterLib.get_tx_deposit obj files)
  = inr dep →
  let passed := _organize_tx_ins_outs_by_coin txouts in
  let mint_db := _organize_tx_ins_outs_by_coin mint in
  let txins_all :=
    _get_utxos_with_coins utxos ({[DEFAULT_COIN]} ∪ dom mint_db ∪ dom passed) in
  let ids :=
    _select_utxos (_organize_tx_ins_outs_by_coin txins_all) passed mint_db fee w
      (ClusterLib._min_change_value obj) dep in
  let filtered :=
    concat (filter (λ p, p.1 ∈ ids) (_organize_utxos_by_id txins_all)).*2 in
  let b :=
    _balance_txouts src txouts (_organize_tx_ins_outs_by_coin filtered) passed
      mint_db fee w dep lb in
  _get_tx_ins_outs obj src files txins txouts fee deposit w mint lb
  = (GetUtxo src :: deposit_events files deposit
       ++ check_events txins_all passed mint_db
       ++ SelectUtxos ids :: empty_events filtered ++ logged b,
     match returned b with
     | inl e => inl e
     | inr outs => inr (filtered, outs)
     end).
Proof.
  intros Hto Hget Hdep passed mint_db txins_all ids filtered b.
  unfold _get_tx_ins_outs, deposit_events, check_events, empty_events.
  rewrite Hto, Hget. fold passed mint_db. run_binds. fold txins_all.
  destruct deposit as [d|]; [injection Hdep as ->|rewrite Hdep];
    fold ids; fold filtered; fold b;
    (destruct (negb (truthy txins_all)); [|destruct (negb (bool_decide _))]);
    destruct (negb (truthy filtered)); destruct (returned b); simpl;
    rewrite ?app_nil_r; reflexivity.
Qed.

(** The run on explicit inputs, when the deposit is known or found. *)
Lemma get_tx_ins_outs_explicit `{SetOrder} obj src files txins txouts fee deposit
    w mint lb u us dep :
  to_list txins = u :: us →
  (if deposit is Some d then inr d else ClusterLib.get_tx_deposit obj files)
  = inr dep →
  let passed := _organize_tx_ins_outs_by_coin txouts in
  let mint_db := _organize_tx_ins_outs_by_coin mint in
  let b :=
    _balance_txouts src txouts (_organize_tx_ins_outs_by_coin (u :: us)) passed
      mint_db fee w dep lb in
  _get_tx_ins_outs obj src files txins txouts fee deposit w mint lb
  = (deposit_events files deposit
       ++ check_events (u :: us) passed mint_db ++ logged b,
     match returned b with
     | inl e => inl e
     | inr outs => inr (u :: us, outs)
     end).
Proof.
  intros Hto Hdep passed mint_db b.
  unfold _get_tx_ins_outs, deposit_events, check_events.
  rewrite Hto. fold passed mint_db. run_binds.
  destruct deposit as [d|]; [injection Hdep as ->|rewrite Hdep];
    fold b; destruct (negb (bool_decide _)); destruct (returned b); simpl;
    rewrite ?app_nil_r; reflexivity.
Qed.

(** A failing lookup ends the run with the exception of the lookup. *)
Lemma get_tx_ins_outs_lookup_fails `{SetOrder} obj src files txins txouts fee
    deposit w mint lb :
  (to_list txins = [] ∧ ∃ e, ClusterLib.get_utxo obj src = inl e) ∨
  (deposit = None ∧ ∃ e, ClusterLib.get_tx_deposit obj files = inl e) →
  ∃ e, (_get_tx_ins_outs obj src files txins txouts fee deposit w mint lb).2 = inl e.
Proof.
  intros Hfail. unfold _get_tx_ins_outs. run_binds.
  destruct (to_list txins) as [|u us] eqn:Hto; cbn [truthy].
  - destruct (ClusterLib.get_utxo obj src) as [e|utxos] eqn:Hget; [by exists e|].
    destruct Hfail as [[_ [e He]]|[-> [e He]]]; [congruence|].
    rewrite He. by exists e.
  - destruct Hfail as [[? _]|[-> [e He]]]; [done|].
    rewrite He. by exists e.
Qed.

Lemma set_iter_singleton `{SetOrder} (s : gset string) (c : string) :
  s = {[c]} → set_iter s = [c].
Proof.
  intros ->. apply Permutation_singleton_r.
  rewrite set_iter_perm, elements_singleton. done.
Qed.

Lemma balance_txouts_raises `{SetOrder} src txouts txins_db passed mint fee w dep lb c :
  (1 < length (filter is_max (get_or_nil passed c)))%nat →
  returned (_balance_txouts src txouts txins_db passed mint fee w dep lb)
  = inl (CLIError "Cannot send all remaining funds to more than one address.").
Proof.
  intros Hgt.
  destruct (balance_txouts_unfold src txouts txins_db passed mint fee w dep lb)
    as [_ ->].
  rewrite (balance_loop_raises src txins_db passed mint fee w dep lb _ _ c);
    [done|apply set_iter_NoDup|done| |done].
  apply elem_of_set_iter, sentinels_in_coins.
  destruct (filter is_max (get_or_nil passed c)); [simpl in Hgt; lia|done].
Qed.

(** C10. An explicit input list that is empty runs exactly as the omitted
    argument does: the UTxOs of the source address are looked up first, and
    when the lookups succeed the inputs returned are those picked by
    [_select_utxos] among the UTxOs that [_get_utxos_with_coins] keeps. *)
Theorem empty_explicit_inputs_select `{SetOrder} (obj : ClusterLib.t)
    (src : string) (files : TxFiles) (txouts : list TxOut.t) (fee : Z)
    (deposit : option Z) (w mint : list TxOut.t) (lb : bool) :
  let run := _get_tx_ins_outs obj src files (PyList []) txouts fee deposit w mint lb in
  run = _get_tx_ins_outs obj src files EmptyTuple txouts fee deposit w mint lb ∧
  (∃ rest, run.1 = GetUtxo src :: rest) ∧
  (∀ utxos dep,
     ClusterLib.get_utxo obj src = inr utxos →
     (if deposit is Some d then inr d else ClusterLib.get_tx_deposit obj files)
     = inr dep →
     let passed := _organize_tx_ins_outs_by_coin txouts in
     let mint_db := _organize_tx_ins_outs_by_coin mint in
     let txins_all :=
       _get_utxos_with_coins utxos ({[DEFAULT_COIN]} ∪ dom mint_db ∪ dom passed) in
     let ids :=
       _select_utxos (_organize_tx_ins_outs_by_coin txins_all) passed mint_db fee w
         (ClusterLib._min_change_value obj) dep in
     let filtered :=
       concat (filter (λ p, p.1 ∈ ids) (_organize_utxos_by_id txins_all)).*2 in
     SelectUtxos ids ∈ run.1 ∧
     ∀ ins outs, run.2 = inr (ins, outs) → ins = filtered).
Proof.
  intros run. split; [reflexivity|]. split.
  - subst run. unfold _get_tx_ins_outs. run_binds. simpl to_list. cbn [truthy].
    destruct (ClusterLib.get_utxo obj src) as [e|utxos]; [by exists []|].
    match goal with
    | |- ∃ rest, (let '(t', r) := ?X in _).1 = _ => destruct X as [t r]
    end.
    simpl. eauto.
  - intros utxos dep Hget Hdep passed mint_db txins_all ids filtered.
    pose proof (get_tx_ins_outs_auto obj src files (PyList []) txouts fee deposit
                  w mint lb utxos dep eq_refl Hget Hdep) as Hrun.
    cbv zeta in Hrun. fold passed mint_db txins_all ids filtered in Hrun.
    fold run in Hrun. rewrite Hrun. simpl. split.
    + right. rewrite !elem_of_app. right. right. left.
    + intros ins outs Hres.
      destruct (returned _); [discriminate Hres|]. by injection Hres as <- _.
Qed.

Lemma empty_explicit_inputs_select_witness :
  SelectUtxos
    (@_select_utxos elements_order
       (_organize_tx_ins_outs_by_coin
          (_get_utxos_with_coins [txA]
             ({[DEFAULT_COIN]} ∪ dom (_organize_tx_ins_outs_by_coin (@nil TxOut.t))
              ∪ dom (_organize_tx_ins_outs_by_coin [pay300]))))
       (_organize_tx_ins_outs_by_coin [pay300])
       (_organize_tx_ins_outs_by_coin []) 10 [] 0 0)
  ∈ (@_get_tx_ins_outs elements_order (one_utxo_node 0) "addr1" [] (PyList [])
       [pay300] 10 (Some 0) [] [] false).1.
Proof.
  exact (proj1 (proj2 (proj2 (@empty_explicit_inputs_select elements_order
    (one_utxo_node 0) "addr1" [] [pay300] 10 (Some 0) [] [] false))
    [txA] 0 eq_refl eq_refl)).
Defined.

(** C4 (as amended). More than one [-1] output for one coin always ends
    [_get_tx_ins_outs] with a fatal error and no result.  The error is the
    balancer's: with automatic selection and successful lookups it is raised
    after [_select_utxos] has run on the candidate inputs, and on explicit
    inputs it is raised by the balancer as well. *)
Theorem two_max_outputs_fatal `{SetOrder} (obj : ClusterLib.t) (src : string)
    (files : TxFiles) (txins : OptionalUTXOData) (txouts : list TxOut.t) (fee : Z)
    (deposit : option Z) (w mint : list TxOut.t) (lb : bool) (c : string) :
  (1 < length (filter is_max (filter (λ o, TxOut.coin o = c) txouts)))%nat →
  let run := _get_tx_ins_outs obj src files txins txouts fee deposit w mint lb in
  (∃ e, run.2 = inl e) ∧
  (∀ dep,
     (to_list txins = [] → ∃ utxos, ClusterLib.get_utxo obj src = inr utxos) →
     (if deposit is Some d then inr d else ClusterLib.get_tx_deposit obj files)
     = inr dep →
     run.2 = inl (CLIError "Cannot send all remaining funds to more than one address.")) ∧
  (∀ utxos dep,
     to_list txins = [] →
     ClusterLib.get_utxo obj src = inr utxos →
     (if deposit is Some d then inr d else ClusterLib.get_tx_deposit obj files)
     = inr dep →
     let passed := _organize_tx_ins_outs_by_coin txouts in
     let mint_db := _organize_tx_ins_outs_by_coin mint in
     let txins_all :=
       _get_utxos_with_coins utxos ({[DEFAULT_COIN]} ∪ dom mint_db ∪ dom passed) in
     SelectUtxos
       (_select_utxos (_organize_tx_ins_outs_by_coin txins_all) passed mint_db fee w
          (ClusterLib._min_change_value obj) dep) ∈ run.1).
Proof.
  intros Hgt run.
  assert (Hbad : (1 < length (filter is_max
            (get_or_nil (_organize_tx_ins_outs_by_coin txouts) c)))%nat)
    by (rewrite organize_get; exact Hgt).
  assert (Hok : ∀ dep,
     (to_list txins = [] → ∃ utxos, ClusterLib.get_utxo obj src = inr utxos) →
     (if deposit is Some d then inr d else ClusterLib.get_tx_deposit obj files)
     = inr dep →
     run.2 = inl (CLIError "Cannot send all remaining funds to more than one address.")).
  { intros dep Hget Hdep. subst run.
    destruct (to_list txins) as [|u us] eqn:Hto.
    - destruct (Hget eq_refl) as [utxos Hutxos].
      pose proof (get_tx_ins_outs_auto obj src files txins txouts fee deposit
                    w mint lb utxos dep Hto Hutxos Hdep) as Hrun.
      cbv zeta in Hrun. rewrite Hrun. simpl.
      by rewrite (balance_txouts_raises _ _ _ _ _ _ _ _ _ c Hbad).
    - pose proof (get_tx_ins_outs_explicit obj src files txins txouts fee deposit
                    w mint lb u us dep Hto Hdep) as Hrun.
      cbv zeta in Hrun. rewrite Hrun. simpl.
      by rewrite (balance_txouts_raises _ _ _ _ _ _ _ _ _ c Hbad). }
  split; [|split; [exact Hok|]].
  - destruct (if deposit is Some d then inr d
              else ClusterLib.get_tx_deposit obj files) as [e|dep] eqn:Hdep.
    { apply get_tx_ins_outs_lookup_fails. right.
      destruct deposit; [discriminate Hdep|]. eauto. }
    destruct (to_list txins) as [|u us] eqn:Hto.
    + destruct (ClusterLib.get_utxo obj src) as [e|utxos] eqn:Hget.
      { apply get_tx_ins_outs_lookup_fails. left. eauto. }
      rewrite (Hok dep); [eauto| |done]. intros _. eauto.
    + rewrite (Hok dep); [eauto| |done]. intros Hnil. discriminate Hnil.
  - intros utxos dep Hto Hget Hdep passed mint_db txins_all.
    pose proof (get_tx_ins_outs_auto obj src files txins txouts fee deposit
                  w mint lb utxos dep Hto Hget Hdep) as Hrun.
    cbv zeta in Hrun. subst run. rewrite Hrun. simpl.
    right. rewrite !elem_of_app. right. right. left.
Qed.

Lemma two_max_outputs_fatal_witness :
  (@_get_tx_ins_outs elements_order (one_utxo_node 0) "addr1" [] EmptyTuple
     [pay_all "addr2"; pay_all "addr3"] 10 (Some 0) [] [] false).2
  = inl (CLIError "Cannot send all remaining funds to more than one address.").
Proof.
  refine (proj1 (proj2 (@two_max_outputs_fatal elements_order (one_utxo_node 0)
    "addr1" [] EmptyTuple [pay_all "addr2"; pay_all "addr3"] 10 (Some 0) [] []
    false DEFAULT_COIN _)) 0 _ eq_refl).
  - vm_compute. lia.
  - intros _. by exists [txA].
Defined.

(** C4 as stated fails: with two [-1] outputs for the base coin the error is
    raised only after the selection has been made (here it selected the UTxO
    [txA#0]). *)
Lemma two_max_outputs_raise_after_selection :
  ¬ raised_before_selection
      (@_get_tx_ins_outs elements_order (one_utxo_node 0) "addr1" [] EmptyTuple
         [pay_all "addr2"; pay_all "addr3"] 10 (Some 0) [] [] false).
Proof.
  intros [_ Hno]. apply (Hno {[ "txA#0" ]}).
  right. left.
Qed.

Example two_max_outputs_run :
  @_get_tx_ins_outs elements_order (one_utxo_node 0) "addr1" [] EmptyTuple
    [pay_all "addr2"; pay_all "addr3"] 10 (Some 0) [] [] false
  = ([GetUtxo "addr1"; SelectUtxos {[ "txA#0" ]}],
     inl (CLIError "Cannot send all remaining funds to more than one address.")).
Proof. vm_compute. reflexivity. Qed.

(** C7. One UTxO [txA#0] of 1000 of the base coin at [addr1], a requested
    output of 300 to [addr2], fee 10, deposit 0, no withdrawals, no minting,
    minimum change 0, no explicit inputs: the input returned is [txA#0] and
    the outputs are the 300 to [addr2] followed by 690 of change to [addr1],
    in whatever order sets are iterated. *)
Theorem scenario_single_utxo `{SetOrder} (obj : ClusterLib.t) (files : TxFiles) :
  ClusterLib.get_utxo obj "addr1" = inr [txA] →
  ClusterLib._min_change_value obj = 0 →
  (_get_tx_ins_outs obj "addr1" files EmptyTuple [pay300] 10 (Some 0) [] [] false).2
  = inr ([txA], [pay300; TxOut.make "addr1" 690 DEFAULT_COIN]).
Proof.
  intros Hget Hmcv.
  pose proof (get_tx_ins_outs_auto obj "addr1" files EmptyTuple [pay300] 10
                (Some 0) [] [] false [txA] 0 eq_refl Hget eq_refl) as Hrun.
  cbv zeta in Hrun. rewrite Hrun, Hmcv. clear Hrun. simpl snd.
  assert (E1 : _organize_tx_ins_outs_by_coin [pay300] = {[DEFAULT_COIN := [pay300]]})
    by (vm_compute; reflexivity).
  assert (E2 : _organize_tx_ins_outs_by_coin (@nil TxOut.t) = ∅)
    by (vm_compute; reflexivity).
  rewrite E1, E2.
  assert (E3 : _get_utxos_with_coins [txA]
                 ({[DEFAULT_COIN]} ∪ dom (∅ : gmap string (list TxOut.t))
                  ∪ dom ({[DEFAULT_COIN := [pay300]]} : gmap string (list TxOut.t)))
               = [txA])
    by (vm_compute; reflexivity).
  rewrite E3.
  assert (E4 : _organize_tx_ins_outs_by_coin [txA] = txA_db)
    by (vm_compute; reflexivity).
  rewrite E4.
  assert (Hcoins : coins_of txA_db {[DEFAULT_COIN := [pay300]]} ∅ = {[DEFAULT_COIN]})
    by (vm_compute; reflexivity).
  assert (E5 : _select_utxos txA_db {[DEFAULT_COIN := [pay300]]} ∅ 10 [] 0 0
               = {[ "txA#0" ]}).
  { unfold _select_utxos. rewrite (set_iter_singleton _ _ Hcoins).
    vm_compute. reflexivity. }
  rewrite E5.
  assert (E6 : concat (filter (λ p : string * list UTXOData.t,
                                 p.1 ∈ ({[ "txA#0" ]} : gset string))
                         (_organize_utxos_by_id [txA])).*2 = [txA])
    by (vm_compute; reflexivity).
  rewrite E6, E4.
  assert (E7 : returned (_balance_txouts "addr1" [pay300] txA_db
                           {[DEFAULT_COIN := [pay300]]} ∅ 10 [] 0 false)
               = inr [pay300; TxOut.make "addr1" 690 DEFAULT_COIN]).
  { unfold _balance_txouts. rewrite (set_iter_singleton _ _ Hcoins).
    vm_compute. reflexivity. }
  rewrite E7. reflexivity.
Qed.

Lemma scenario_single_utxo_witness :
  (@_get_tx_ins_outs elements_order (one_utxo_node 0) "addr1" [] EmptyTuple
     [pay300] 10 (Some 0) [] [] false).2
  = inr ([txA], [pay300; TxOut.make "addr1" 690 DEFAULT_COIN]).
Proof.
  exact (@scenario_single_utxo elements_order (one_utxo_node 0) [] eq_refl eq_refl).
Defined.

Example scenario_single_utxo_trace :
  (@_get_tx_ins_outs elements_order (one_utxo_node 0) "addr1" [] EmptyTuple
     [pay300] 10 (Some 0) [] [] false).1
  = [GetUtxo "addr1"; SelectUtxos {[ "txA#0" ]}].
Proof. vm_compute. reflexivity. Qed.

(** ** The decoder *)

Lemma identity_view_chain (steps1 steps2 : list (exn + list UTXOData.t)) :
  Forall2 (λ s1 s2, identity_view s1 = identity_view s2) steps1 steps2 →
  identity_view (chain_results steps1) = identity_view (chain_results steps2).
Proof.
  induction 1 as [|s1 s2 l1 l2 Hs _ IH]; [done|].
  destruct s1 as [e1|xs1], s2 as [e2|xs2]; simpl in *; try congruence.
  destruct (chain_results l1) as [e1|ys1], (chain_results l2) as [e2|ys2];
    simpl in *; try congruence.
  rewrite !fmap_app. congruence.
Qed.

Lemma filter_forget_decoded (coins : list string) (l : list UTXOData.t) :
  filter (λ u, UTXOData.coin u ∈ coins) (forget_decoded <$> l)
  = forget_decoded <$> filter (λ u, UTXOData.coin u ∈ coins) l.
Proof.
  induction l as [|r l IH]; [done|].
  rewrite fmap_cons, !filter_cons. simpl.
  destruct (decide (UTXOData.coin r ∈ coins)); rewrite IH; done.
Qed.

Section decoders.
Context (B1 B2 : Builtins).
Hypothesis same_int : ∀ s, @int_of_str B1 s = @int_of_str B2 s.

Lemma make_utxo_view utxo_hash utxo_ix amount address coin d1 d2 datum_hash :
  identity_view (@make_utxo B1 utxo_hash utxo_ix amount address coin d1 datum_hash)
  = identity_view (@make_utxo B2 utxo_hash utxo_ix amount address coin d2 datum_hash).
Proof.
  unfold make_utxo. rewrite same_int.
  destruct (@int_of_str B2 utxo_ix); done.
Qed.

Lemma value_records_view utxo_hash utxo_ix address utxo_address datum_hash entry :
  identity_view (@value_records B1 utxo_hash utxo_ix address utxo_address
                   datum_hash entry)
  = identity_view (@value_records B2 utxo_hash utxo_ix address utxo_address
                     datum_hash entry).
Proof.
  destruct entry as [policyid data]. unfold value_records.
  destruct (decide (policyid = DEFAULT_COIN)) as [Hp|Hp].
  - destruct data; [apply make_utxo_view|done|done].
  - destruct data as [n|items|items]; [done| |];
      apply identity_view_chain, Forall2_fmap, Forall_Forall2_diag, Forall_forall;
      intros [name amount] _; apply make_utxo_view.
Qed.

Lemma utxo_records_view address item :
  identity_view (@utxo_records B1 address item)
  = identity_view (@utxo_records B2 address item).
Proof.
  destruct item as [utxo_rec data]. unfold utxo_records.
  destruct (split_hash utxo_rec) as [|h [|ix [|? ?]]]; try done.
  destruct (j_value data) as [addr_data|]; [|done].
  apply identity_view_chain, Forall2_fmap, Forall_Forall2_diag, Forall_forall.
  intros entry _. apply value_records_view.
Qed.

Lemma get_utxo_view utxo_dict address coins :
  identity_view (@get_utxo B1 utxo_dict address coins)
  = identity_view (@get_utxo B2 utxo_dict address coins).
Proof.
  unfold get_utxo.
  assert (Hchain :
    identity_view (chain_results (@utxo_records B1 address <$> utxo_dict))
    = identity_view (chain_results (@utxo_records B2 address <$> utxo_dict))).
  { apply identity_view_chain, Forall2_fmap, Forall_Forall2_diag, Forall_forall.
    intros item _. apply utxo_records_view. }
  destruct (chain_results (@utxo_records B1 address <$> utxo_dict)) as [e1|u1],
           (chain_results (@utxo_records B2 address <$> utxo_dict)) as [e2|u2];
    simpl in Hchain; try congruence.
  injection Hchain as Hu.
  destruct (truthy coins); simpl; [|congruence].
  rewrite <- !filter_forget_decoded. congruence.
Qed.
End decoders.

(** C9. The record made for an asset entry has the raw identifier
    [policyid.asset_name] (the bare policy id for an empty name) as its coin,
    whatever the decoding of the name does; the entry fails only when the
    output index is not an integer, never because the name does not decode;
    a name that does not decode leaves [decoded_coin] empty; and what
    [get_utxo] returns or raises, read without the display names, is the
    same for any two decoders, failing ones included. *)
Theorem coin_is_raw_identifier (B : Builtins)
    (utxo_hash utxo_ix address utxo_address datum_hash policyid asset_name : string)
    (amount : Z) :
  let res := @asset_record B utxo_hash utxo_ix address utxo_address datum_hash
               policyid (asset_name, amount) in
  (∀ recs, res = inr recs →
     ∃ r, recs = [r] ∧ UTXOData.coin r = raw_coin policyid asset_name ∧
          (asset_name ≠ "" →
           @b16decode B asset_name ≫= @utf8_decode B = None →
           UTXOData.decoded_coin r = "")) ∧
  (∀ e, res = inl e → @int_of_str B utxo_ix = None) ∧
  (∀ (B' : Builtins) utxo_dict coins,
     (∀ s, @int_of_str B s = @int_of_str B' s) →
     identity_view (@get_utxo B utxo_dict address coins)
     = identity_view (@get_utxo B' utxo_dict address coins)).
Proof.
  intros res. subst res. unfold asset_record, make_utxo, raw_coin, decode_coin.
  split; [|split].
  - intros recs Hres.
    destruct (@int_of_str B utxo_ix) as [ix|]; [|discriminate Hres].
    injection Hres as <-. eexists. split; [reflexivity|]. simpl.
    split; [done|]. intros Hname Hfail.
    rewrite decide_False by done. by rewrite Hfail.
  - intros e Hres. destruct (@int_of_str B utxo_ix); [discriminate Hres|done].
  - intros B' utxo_dict coins Hint. by apply get_utxo_view.
Qed.

Lemma coin_is_raw_identifier_witness :
  identity_view (@get_utxo plain_builtins token_utxo "" [])
  = identity_view (@get_utxo (failing_decoders plain_builtins) token_utxo "" []).
Proof.
  exact (proj2 (proj2 (coin_is_raw_identifier plain_builtins "" "" "" "" "" "" "" 0))
           (failing_decoders plain_builtins) token_utxo [] (λ s, eq_refl)).
Defined.

Example undecodable_name_keeps_raw_coin :
  @get_utxo plain_builtins token_utxo "" []
  = inr [UTXOData.mk "txT" 1 5 "addr1" "policy.zz" "" "";
         UTXOData.mk "txT" 1 7 "addr1" "policy.4142" "policy.AB" ""].
Proof. vm_compute. reflexivity. Qed.

(** ** Dictionaries, filters and the selection of one coin *)

Lemma odict_get_fresh {V : Type} (db : odict V) (k : string) :
  k ∉ db.*1 → odict_get db k = None.
Proof.
  induction db as [|[k' v] db IH]; intros Hk; [done|].
  simpl in *. apply not_elem_of_cons in Hk as [Hne Hk].
  rewrite decide_False by done. by apply IH.
Qed.

Lemma odict_append_new {A : Type} (db : odict (list A)) (k : string) (r : A) :
  k ∉ db.*1 → odict_append (db ++ [(k, [])]) k r = db ++ [(k, [r])].
Proof.
  induction db as [|[k' v] db IH]; intros Hk; simpl.
  - by rewrite decide_True.
  - simpl in Hk. apply not_elem_of_cons in Hk as [Hne Hk].
    rewrite decide_False by done. by rewrite IH.
Qed.

Lemma select_fold_one_coin txins_db passed mint fee w mcv dep
    (X : gset string) (l : list string) (ids : gset string) :
  (∀ c ids', c ≠ DEFAULT_COIN →
     select_coin txins_db passed mint fee w mcv dep ids' c = ids') →
  (∀ ids', select_coin txins_db passed mint fee w mcv dep ids' DEFAULT_COIN
           = ids' ∪ X) →
  foldl (select_coin txins_db passed mint fee w mcv dep) ids l
  = if decide (DEFAULT_COIN ∈ l) then ids ∪ X else ids.
Proof.
  intros Hother Hbase. revert ids.
  induction l as [|c l IH]; intros ids; [done|].
  simpl. rewrite IH.
  destruct (decide (c = DEFAULT_COIN)) as [->|Hne].
  - rewrite Hbase, (decide_True (P := DEFAULT_COIN ∈ DEFAULT_COIN :: l)) by left.
    destruct (decide (DEFAULT_COIN ∈ l)); [|done].
    rewrite <- (assoc_L (∪)). by rewrite (idemp_L (∪) X).
  - rewrite Hother by done.
    destruct (decide (DEFAULT_COIN ∈ l)) as [Hin|Hin].
    + by rewrite decide_True by (by right).
    + rewrite decide_False; [done|].
      intros Hin'. apply elem_of_cons in Hin' as [?|?]; congruence.
Qed.

Lemma filter_none {A : Type} (P : A → Prop) `{∀ x, Decision (P x)} (l : list A) :
  Forall (λ x, ¬ P x) l → filter P l = [].
Proof.
  induction 1 as [|x l Hx _ IH]; [done|]. by rewrite filter_cons_False.
Qed.

Lemma filter_selected_prefix (sel utxos : list UTXOData.t) :
  sel `prefix_of` utxos → NoDup (utxo_id <$> utxos) →
  filter (λ u, utxo_id u ∈ (list_to_set (utxo_id <$> sel) : gset string)) utxos
  = sel.
Proof.
  intros [rest ->] Hnd. rewrite filter_app.
  rewrite fmap_app in Hnd. apply NoDup_app in Hnd as (_ & Hdisj & _).
  rewrite filter_all, filter_none; [by rewrite app_nil_r| |].
  - apply Forall_forall. intros u Hin Hu. apply elem_of_list_to_set in Hu.
    apply (Hdisj _ Hu). by apply list_elem_of_fmap_2.
  - apply Forall_forall. intros u Hu.
    apply elem_of_list_to_set. by apply list_elem_of_fmap_2.
Qed.

Lemma collect_prefix (utxos : list UTXOData.t) (amount mcv : Z) :
  _collect_utxos_amount utxos amount mcv `prefix_of` utxos.
Proof. unfold _collect_utxos_amount. apply collect_loop_prefix. Qed.

Lemma elem_of_change_outputs src passed change coins (o : TxOut.t) :
  o ∈ change_outputs src passed change coins →
  ∃ c, c ∈ coins ∧ 0 < change c ∧
       o = TxOut.make (change_address src passed c) (change c) c.
Proof.
  unfold change_outputs. induction coins as [|c coins IH]; simpl.
  { intros Ho. by apply elem_of_nil in Ho. }
  rewrite elem_of_app. intros [Ho|Ho].
  - destruct (decide (0 < change c)); [|by apply elem_of_nil in Ho].
    apply list_elem_of_singleton in Ho. exists c. split; [left|done].
  - destruct (IH Ho) as (c' & Hc' & Hpos & ->). exists c'. split; [by right|done].
Qed.

(** * Further properties of the module *)

(** ** Grouping in insertion order *)

Lemma first_seen_snoc_step (l : list string) (x : string) :
  first_seen (l ++ [x])
  = if decide (x ∈ first_seen l) then first_seen l else first_seen l ++ [x].
Proof. unfold first_seen. by rewrite foldl_app. Qed.

Lemma elem_of_first_seen (l : list string) (x : string) :
  x ∈ first_seen l ↔ x ∈ l.
Proof.
  induction l as [|y l IH] using rev_ind; [done|].
  rewrite first_seen_snoc_step, elem_of_app, list_elem_of_singleton.
  destruct (decide (y ∈ first_seen l)) as [Hy|Hy].
  - rewrite IH. split; [tauto|]. intros [?| ->]; [done|]. by apply IH.
  - rewrite elem_of_app, list_elem_of_singleton, IH. done.
Qed.

Lemma first_seen_snoc (l : list string) (x : string) :
  first_seen (l ++ [x]) = if decide (x ∈ l) then first_seen l else first_seen l ++ [x].
Proof.
  rewrite first_seen_snoc_step.
  destruct (decide (x ∈ first_seen l)) as [Hx|Hx], (decide (x ∈ l)) as [Hl|Hl];
    try done; exfalso; rewrite elem_of_first_seen in Hx; done.
Qed.

Lemma NoDup_first_seen (l : list string) : NoDup (first_seen l).
Proof.
  induction l as [|y l IH] using rev_ind; [constructor|].
  rewrite first_seen_snoc_step. case_decide; [done|].
  apply NoDup_app. split; [done|]. split; [|apply NoDup_singleton].
  intros x Hx Hy. apply list_elem_of_singleton in Hy. by subst.
Qed.

Section keyed.
Context {A : Type} (f : string → list A).

Lemma odict_get_keyed (ks : list string) (k : string) :
  odict_get ((λ k', (k', f k')) <$> ks) k
  = if decide (k ∈ ks) then Some (f k) else None.
Proof.
  induction ks as [|k0 ks IH]; [done|].
  rewrite fmap_cons. cbn [odict_get]. destruct (decide (k0 = k)) as [->|Hne].
  - by rewrite decide_True by left.
  - rewrite IH. destruct (decide (k ∈ ks)) as [Hin|Hin].
    + by rewrite decide_True by (by right).
    + rewrite decide_False; [done|].
      intros Hin'. apply elem_of_cons in Hin' as [?|?]; congruence.
Qed.

Lemma odict_append_keyed (ks : list string) (k : string) (r : A) :
  NoDup ks →
  odict_append ((λ k', (k', f k')) <$> ks) k r
  = (λ k', (k', if decide (k' = k) then f k' ++ [r] else f k')) <$> ks.
Proof.
  induction 1 as [|k0 ks Hk0 Hnd IH]; [done|].
  rewrite !fmap_cons. cbn [odict_append].
  destruct (decide (k0 = k)) as [->|Hne].
  - f_equal. apply list_fmap_ext. intros i k' Hk'.
    rewrite decide_False; [done|]. intros ->.
    apply Hk0. by eapply list_elem_of_lookup_2.
  - by rewrite IH.
Qed.
End keyed.

Lemma groups_of_snoc {A : Type} (key : A → string) (l : list A) (r : A) :
  odict_setdefault_append (groups_of key l) (key r) r = groups_of key (l ++ [r]).
Proof.
  unfold odict_setdefault_append, groups_of.
  rewrite odict_get_keyed, fmap_app. simpl. rewrite first_seen_snoc.
  assert (Hadd : ∀ k, filter (λ r', key r' = k) (l ++ [r])
            = filter (λ r', key r' = k) l ++ (if decide (key r = k) then [r] else [])).
  { intros k. rewrite filter_app, filter_cons, filter_nil. done. }
  destruct (decide (key r ∈ first_seen (key <$> l))) as [Hin|Hin];
    rewrite elem_of_first_seen in Hin.
  - rewrite decide_True by done.
    rewrite odict_append_keyed by apply NoDup_first_seen.
    apply list_fmap_ext. intros i k _. rewrite Hadd.
    destruct (decide (k = key r)) as [->|Hne].
    + by rewrite decide_True.
    + rewrite decide_False by congruence. by rewrite app_nil_r.
  - rewrite decide_False by done.
    rewrite odict_append_new.
    2:{ rewrite <- list_fmap_compose. simpl. rewrite list_fmap_id.
        by rewrite elem_of_first_seen. }
    rewrite fmap_app. simpl. f_equal.
    + apply list_fmap_ext. intros i k Hk. rewrite Hadd.
      rewrite decide_False; [by rewrite app_nil_r|]. intros <-.
      apply Hin, elem_of_first_seen. by eapply list_elem_of_lookup_2.
    + rewrite Hadd, decide_True by done.
      rewrite (filter_none (λ r', key r' = key r)); [done|].
      apply Forall_forall. intros r' Hr' Heq. apply Hin.
      rewrite <- Heq. by apply list_elem_of_fmap_2.
Qed.

Lemma groups_of_fold {A : Type} (key : A → string) (l0 l : list A) :
  foldl (λ db r, odict_setdefault_append db (key r) r) (groups_of key l0) l
  = groups_of key (l0 ++ l).
Proof.
  revert l0. induction l as [|r l IH]; intros l0; [by rewrite app_nil_r|].
  simpl. rewrite groups_of_snoc, IH. by rewrite <- app_assoc.
Qed.

Lemma odict_get_groups {A : Type} (key : A → string) (l : list A) (k : string) :
  odict_get (groups_of key l) k
  = if decide (k ∈ key <$> l) then Some (filter (λ r, key r = k) l) else None.
Proof.
  unfold groups_of. rewrite odict_get_keyed.
  destruct (decide (k ∈ first_seen (key <$> l))) as [Hin|Hin];
    rewrite elem_of_first_seen in Hin.
  - by rewrite decide_True.
  - by rewrite decide_False.
Qed.

Lemma filter_key_in_cons {A : Type} (key : A → string) (k : string)
    (ks : list string) (l : list A) :
  k ∉ ks →
  filter (λ r, key r ∈ k :: ks) l
  ≡ₚ filter (λ r, key r = k) l ++ filter (λ r, key r ∈ ks) l.
Proof.
  intros Hk. induction l as [|r l IH]; [done|].
  rewrite !filter_cons.
  destruct (decide (key r = k)) as [Heq|Hne].
  - rewrite decide_True by (rewrite Heq; left).
    rewrite decide_False by (by rewrite Heq). simpl. by rewrite IH.
  - destruct (decide (key r ∈ ks)) as [Hin|Hin].
    + rewrite decide_True by (by right).
      rewrite IH. by rewrite Permutation_middle.
    + rewrite decide_False; [done|].
      intros Hin'. apply elem_of_cons in Hin' as [?|?]; done.
Qed.

(** The groups of distinct keys, laid end to end, hold each record with one
    of the keys exactly as often as the list does. *)
Lemma flat_groups_perm {A : Type} (key : A → string) (ks : list string) (l : list A) :
  NoDup ks →
  flat_map (λ k, filter (λ r, key r = k) l) ks ≡ₚ filter (λ r, key r ∈ ks) l.
Proof.
  induction 1 as [|k ks Hk _ IH]; simpl.
  - rewrite (filter_none (λ r, key r ∈ [])); [done|].
    apply Forall_forall. intros r _ Hr. by apply elem_of_nil in Hr.
  - by rewrite filter_key_in_cons, IH.
Qed.

Lemma groups_of_flat {A : Type} (key : A → string) (l : list A) :
  concat (groups_of key l).*2
  = flat_map (λ k, filter (λ r, key r = k) l) (first_seen (key <$> l)).
Proof.
  unfold groups_of. generalize (first_seen (key <$> l)). intros ks.
  induction ks as [|k ks IH]; [done|]. simpl. by rewrite <- IH.
Qed.

(** X1. [_organize_tx_ins_outs_by_coin] is a stable partition: a coin is a
    key exactly when some record has it, and its list is then the records of
    that coin in their original order; no key has an empty list. *)
Theorem organize_by_coin_partition {A : Type} `{CoinRecord A} (l : list A)
    (c : string) :
  _organize_tx_ins_outs_by_coin l !! c
  = (if decide (c ∈ rec_coin <$> l) then Some (filter (λ r, rec_coin r = c) l)
     else None) ∧
  _organize_tx_ins_outs_by_coin l !! c ≠ Some [].
Proof.
  unfold _organize_tx_ins_outs_by_coin.
  rewrite organize_fold_lookup, lookup_empty. simpl.
  destruct (filter (λ r, rec_coin r = c) l) as [|r rs] eqn:Hf.
  - split; [|done]. rewrite decide_False; [done|].
    intros Hin. apply list_elem_of_fmap in Hin as (r & -> & Hr).
    assert (Hr' : r ∈ filter (λ r', rec_coin r' = rec_coin r) l)
      by (by apply list_elem_of_filter).
    rewrite Hf in Hr'. by apply elem_of_nil in Hr'.
  - split; [|done]. rewrite decide_True; [done|].
    assert (Hr : r ∈ filter (λ r', rec_coin r' = c) l) by (rewrite Hf; left).
    apply list_elem_of_filter in Hr as [<- Hr]. by apply list_elem_of_fmap_2.
Qed.

Lemma organize_by_id_as_groups (l : list UTXOData.t) :
  _organize_utxos_by_id l = groups_of utxo_id l ∧ True.
Proof. split; [apply (groups_of_fold utxo_id [] l)|done]. Qed.

(** X2. [_organize_utxos_by_id] keeps one group per distinct id, in the order
    the ids first occur; a group is the records of its id in their order, so
    a multi-coin output keeps all its coin records, and the groups together
    hold every record exactly once. *)
Theorem organize_by_id_groups (l : list UTXOData.t) :
  _organize_utxos_by_id l = groups_of utxo_id l ∧
  NoDup (_organize_utxos_by_id l).*1 ∧
  concat (_organize_utxos_by_id l).*2 ≡ₚ l.
Proof.
  assert (Heq : _organize_utxos_by_id l = groups_of utxo_id l)
    by apply (groups_of_fold utxo_id [] l).
  split; [exact Heq|]. rewrite Heq. split.
  - unfold groups_of. rewrite <- list_fmap_compose. simpl. rewrite list_fmap_id.
    apply NoDup_first_seen.
  - rewrite groups_of_flat, flat_groups_perm by apply NoDup_first_seen.
    rewrite filter_all; [done|].
    apply Forall_forall. intros u Hu.
    apply elem_of_first_seen. by apply list_elem_of_fmap_2.
Qed.

(** ** The multi-coin filter *)

Lemma utxos_with_coins_pick (l : list UTXOData.t) (coins : gset string)
    (p q : list UTXOData.t) (seen : gset string) :
  let grp := λ k, filter (λ u, utxo_id u = k) l in
  let picked := λ p,
    first_seen (utxo_id <$> filter (λ u, UTXOData.coin u ∈ coins) p) in
  (∀ u, u ∈ q → u ∈ l) →
  (∀ x, x ∈ seen ↔ x ∈ picked p) →
  (foldl (utxos_with_coins_step (groups_of utxo_id l) coins)
     (flat_map grp (picked p), seen) q).1
  = flat_map grp (picked (p ++ q)).
Proof.
  intros grp picked. revert p seen.
  induction q as [|u q IH]; intros p seen Hq Hseen; [by rewrite app_nil_r|].
  replace (p ++ u :: q) with ((p ++ [u]) ++ q) by (by rewrite <- app_assoc).
  assert (Hpick : picked (p ++ [u])
            = if decide (UTXOData.coin u ∈ coins ∧ utxo_id u ∉ seen)
              then picked p ++ [utxo_id u] else picked p).
  { unfold picked. rewrite filter_app, filter_cons, filter_nil.
    destruct (decide (UTXOData.coin u ∈ coins)) as [Hc|Hc].
    - rewrite fmap_app. simpl. rewrite first_seen_snoc.
      destruct (decide (utxo_id u ∈ seen)) as [Hs|Hs].
      + rewrite (decide_False (P := _ ∧ _)) by tauto.
        rewrite decide_True; [done|].
        by apply elem_of_first_seen, Hseen.
      + rewrite (decide_True (P := _ ∧ _)) by tauto.
        rewrite decide_False; [done|].
        intros Hin. apply Hs, Hseen. by apply (elem_of_first_seen _ _).
    - rewrite (decide_False (P := _ ∧ _)) by tauto. by rewrite app_nil_r. }
  simpl.
  destruct (decide (UTXOData.coin u ∈ coins ∧ utxo_id u ∉ seen)) as [Hyes|Hno].
  - rewrite odict_get_groups, decide_True
      by (apply list_elem_of_fmap_2, Hq; left). simpl.
    replace (flat_map grp (picked p) ++ filter (λ u0, utxo_id u0 = utxo_id u) l)
      with (flat_map grp (picked (p ++ [u])))
      by (rewrite Hpick, flat_map_app; simpl; by rewrite app_nil_r).
    apply IH.
    + intros v Hv. apply Hq. by right.
    + intros x. rewrite Hpick, elem_of_union, elem_of_singleton, elem_of_app,
        list_elem_of_singleton, Hseen. tauto.
  - rewrite <- Hpick. apply IH.
    + intros v Hv. apply Hq. by right.
    + intros x. by rewrite Hpick.
Qed.

(** X3. [_get_utxos_with_coins] returns, for each output id that holds a
    required coin, in the order such ids first qualify, all the coin records
    of that id: a record is returned exactly when some record of the same id
    holds a required coin, and as often as it occurs among the UTxOs. *)
Theorem utxos_with_coins_spec (l : list UTXOData.t) (coins : gset string) :
  let picked :=
    first_seen (utxo_id <$> filter (λ u, UTXOData.coin u ∈ coins) l) in
  _get_utxos_with_coins l coins
  = flat_map (λ k, filter (λ u, utxo_id u = k) l) picked ∧
  _get_utxos_with_coins l coins ≡ₚ filter (λ u, utxo_id u ∈ picked) l ∧
  (∀ u, u ∈ _get_utxos_with_coins l coins ↔
        u ∈ l ∧ ∃ v, v ∈ l ∧ UTXOData.coin v ∈ coins ∧ utxo_id v = utxo_id u).
Proof.
  intros picked.
  assert (Heq : _get_utxos_with_coins l coins
                = flat_map (λ k, filter (λ u, utxo_id u = k) l) picked).
  { unfold _get_utxos_with_coins.
    rewrite (proj1 (organize_by_id_as_groups l)).
    apply (utxos_with_coins_pick l coins [] l ∅); [done|].
    intros x. simpl. set_solver. }
  assert (Hperm : _get_utxos_with_coins l coins
                  ≡ₚ filter (λ u, utxo_id u ∈ picked) l)
    by (rewrite Heq; apply flat_groups_perm, NoDup_first_seen).
  split; [exact Heq|]. split; [exact Hperm|].
  intros u. rewrite Hperm, list_elem_of_filter. unfold picked.
  rewrite elem_of_first_seen, list_elem_of_fmap.
  split.
  - intros [(v & Hid & Hv) Hu]. apply list_elem_of_filter in Hv as [Hc Hv].
    split; [done|]. by exists v.
  - intros [Hu (v & Hv & Hc & Hid)]. split; [|done].
    exists v. split; [done|]. by apply list_elem_of_filter.
Qed.

(** ** Collecting and selecting *)

(** X4. When the minimum change value is not negative and the UTxOs offered
    hold at least the amount, the UTxOs collected hold at least the amount. *)
Theorem collect_covers_amount (utxos : list UTXOData.t) (amount min_change_value : Z) :
  0 ≤ min_change_value →
  amount ≤ total_amount utxos →
  amount ≤ total_amount (_collect_utxos_amount utxos amount min_change_value).
Proof.
  intros Hmcv Hfunds.
  pose proof (collect_total utxos amount min_change_value) as Htot.
  cbv zeta in Htot.
  destruct Htot as [Heq|[Hge|Hall]]; [lia| |by rewrite Hall].
  destruct utxos as [|u us]; [lia|].
  destruct (decide (UTXOData.coin u = DEFAULT_COIN)); lia.
Qed.

Lemma collect_covers_amount_witness :
  700 ≤ total_amount (_collect_utxos_amount wallet3 700 50).
Proof.
  apply collect_covers_amount; [lia|]. vm_compute. discriminate.
Defined.

Lemma select_coin_union txins_db passed mint fee w mcv dep ids c :
  select_coin txins_db passed mint fee w mcv dep ids c
  = ids ∪ select_coin txins_db passed mint fee w mcv dep ∅ c.
Proof.
  unfold select_coin.
  destruct (max_index (get_or_nil passed c)); by rewrite (left_id_L ∅ (∪)).
Qed.

Lemma elem_of_select_fold txins_db passed mint fee w mcv dep
    (l : list string) (ids : gset string) (x : string) :
  x ∈ foldl (select_coin txins_db passed mint fee w mcv dep) ids l ↔
  x ∈ ids ∨ ∃ c, c ∈ l ∧ x ∈ select_coin txins_db passed mint fee w mcv dep ∅ c.
Proof.
  revert ids. induction l as [|c l IH]; intros ids; simpl.
  - split; [by left|]. intros [?|(c & Hc & _)]; [done|by apply elem_of_nil in Hc].
  - rewrite IH, select_coin_union, elem_of_union. split.
    + intros [[?|?]|(c' & Hc' & Hx)]; [by left| |].
      * right. exists c. split; [left|done].
      * right. exists c'. split; [by right|done].
    + intros [?|(c' & Hc' & Hx)]; [by left; left|].
      apply elem_of_cons in Hc' as [->|Hc']; [by left; right|].
      right. by exists c'.
Qed.

Lemma elem_of_select_utxos `{SetOrder} txins_db passed mint fee w mcv dep x :
  x ∈ _select_utxos txins_db passed mint fee w mcv dep ↔
  ∃ c, c ∈ coins_of txins_db passed mint ∧
       x ∈ select_coin txins_db passed mint fee w mcv dep ∅ c.
Proof.
  unfold _select_utxos. rewrite elem_of_select_fold. split.
  - intros [Hx|(c & Hc & Hx)]; [by apply not_elem_of_empty in Hx|].
    exists c. by rewrite <- elem_of_set_iter.
  - intros (c & Hc & Hx). right. exists c. by rewrite elem_of_set_iter.
Qed.

(** X5. The ids [_select_utxos] returns do not depend on the order in which
    the set of coins is iterated. *)
Theorem select_utxos_order_independent (S1 S2 : SetOrder)
    (txins_db : gmap string (list UTXOData.t))
    (passed mint : gmap string (list TxOut.t)) (fee : Z)
    (withdrawals : list TxOut.t) (min_change_value deposit : Z) :
  @_select_utxos S1 txins_db passed mint fee withdrawals min_change_value deposit
  = @_select_utxos S2 txins_db passed mint fee withdrawals min_change_value deposit.
Proof.
  apply set_eq. intros x.
  by rewrite (@elem_of_select_utxos S1), (@elem_of_select_utxos S2).
Qed.

(** X6. Every id selected is the id of an input record that was offered,
    and a coin with a [-1] requested output has all its inputs selected. *)
Theorem select_utxos_sound `{SetOrder}
    (txins_db : gmap string (list UTXOData.t))
    (passed mint : gmap string (list TxOut.t)) (fee : Z)
    (withdrawals : list TxOut.t) (min_change_value deposit : Z) :
  let selected :=
    _select_utxos txins_db passed mint fee withdrawals min_change_value deposit in
  (∀ x, x ∈ selected →
        ∃ c u, u ∈ get_or_nil txins_db c ∧ utxo_id u = x) ∧
  (∀ c u, Exists is_max (get_or_nil passed c) →
          u ∈ get_or_nil txins_db c → utxo_id u ∈ selected).
Proof.
  intros selected. subst selected. split.
  - intros x Hx. apply elem_of_select_utxos in Hx as (c & _ & Hx).
    unfold select_coin in Hx.
    exists c. destruct (max_index (get_or_nil passed c));
      rewrite (left_id_L ∅ (∪)) in Hx.
    + apply elem_of_list_to_set, list_elem_of_fmap in Hx as (u & -> & Hu).
      exists u. split; [|done].
      destruct (collect_prefix (get_or_nil txins_db c)
                  (input_funds_needed c (get_or_nil passed c) mint fee
                     withdrawals deposit) min_change_value) as [rest Hrest].
      rewrite Hrest. apply elem_of_app. by left.
    + apply elem_of_list_to_set, list_elem_of_fmap in Hx as (u & -> & Hu).
      by exists u.
  - intros c u Hmax Hu. apply elem_of_select_utxos. exists c. split.
    + apply sentinels_in_coins. intros Hnil.
      apply Exists_exists in Hmax as (o & Ho & Hm).
      assert (Hin : o ∈ filter is_max (get_or_nil passed c))
        by (by apply list_elem_of_filter).
      rewrite Hnil in Hin. by apply elem_of_nil in Hin.
    + unfold select_coin.
      pose proof (max_index_Exists (get_or_nil passed c)) as Hiff.
      destruct (max_index (get_or_nil passed c)); [by apply Hiff in Hmax|].
      rewrite (left_id_L ∅ (∪)).
      by apply elem_of_list_to_set, list_elem_of_fmap_2.
Qed.

(** ** More on the balancer *)

Lemma balance_coin_log src txins_db mint fee w dep lb st c st' :
  balance_coin src txins_db mint fee w dep lb st c = inr st' →
  bs_log st'
  = bs_log st ++
    (coin_change c (total_amount (get_or_nil txins_db c))
       (total_amount (requested (bs_passed_db st) c)) mint fee w dep lb).2.
Proof.
  unfold balance_coin. rewrite max_index_length.
  destruct (decide (1 < length (filter is_max (get_or_nil (bs_passed_db st) c)))%nat)
    as [Hgt|Hle]; [discriminate|].
  pose proof (pop_single (get_or_nil (bs_passed_db st) c) ltac:(lia)) as Hpop.
  unfold requested.
  destruct (max_index (get_or_nil (bs_passed_db st) c)) as [|i mi].
  - destruct Hpop as [Hreq _]. rewrite Hreq.
    destruct (coin_change _ _ _ _ _ _ _ _) as [change msgs]. simpl.
    intros Heq. injection Heq as <-. done.
  - destruct Hpop as (o & Hl & Hd & _). rewrite Hl, Hd.
    destruct (coin_change _ _ _ _ _ _ _ _) as [change msgs]. simpl.
    intros Heq. injection Heq as <-. done.
Qed.

Lemma balance_loop_log src txins_db passed mint fee w dep lb coins st :
  NoDup coins →
  (∀ c, c ∈ coins → bs_passed_db st !! c = passed !! c) →
  (∀ c, c ∈ coins → (length (filter is_max (get_or_nil passed c)) ≤ 1)%nat) →
  bs_log (balance_loop src txins_db mint fee w dep lb coins st).1
  = bs_log st ++ flat_map (change_log txins_db passed mint fee w dep lb) coins.
Proof.
  revert st. induction coins as [|c0 coins IH]; intros st Hnd Hinv Hle.
  { simpl. by rewrite app_nil_r. }
  apply NoDup_cons in Hnd as [Hc0 Hnd].
  destruct (balance_coin_fresh src txins_db passed mint fee w dep lb st c0
              (Hinv c0 ltac:(left))) as [[Hgt _]|[_ [msgs Hstep]]].
  { specialize (Hle c0 ltac:(left)). lia. }
  simpl. rewrite Hstep.
  pose proof (balance_coin_log _ _ _ _ _ _ _ _ _ _ Hstep) as Hlog.
  rewrite IH; [| done | | intros c Hc; apply Hle; by right].
  - rewrite Hlog, <- app_assoc. f_equal. f_equal.
    unfold change_log, requested, get_or_nil. by rewrite (Hinv c0) by left.
  - intros c Hc. simpl.
    destruct (decide (filter is_max (get_or_nil passed c0) = []));
      [apply Hinv; by right|].
    rewrite lookup_insert_ne; [apply Hinv; by right|]. intros ->. done.
Qed.

(** What the balancer returns when no coin visited has two [-1] outputs,
    whether base-coin balancing is delegated or not. *)
Lemma balance_txouts_returns `{SetOrder} src txouts txins_db passed mint fee w dep lb :
  (∀ c, c ∈ coins_of txins_db passed mint →
        (length (filter is_max (get_or_nil passed c)) ≤ 1)%nat) →
  returned (_balance_txouts src txouts txins_db passed mint fee w dep lb)
  = inr (filter (λ o, 0 < TxOut.amount o) txouts
         ++ change_outputs src passed (change_of txins_db passed mint fee w dep lb)
              (set_iter (coins_of txins_db passed mint))) ∧
  logged (_balance_txouts src txouts txins_db passed mint fee w dep lb)
  = flat_map (change_log txins_db passed mint fee w dep lb)
      (set_iter (coins_of txins_db passed mint)).
Proof.
  intros Hle.
  assert (Hle' : ∀ c, c ∈ set_iter (coins_of txins_db passed mint) →
            (length (filter is_max (get_or_nil passed c)) ≤ 1)%nat)
    by (intros c Hc; by apply Hle, elem_of_set_iter).
  pose proof (balance_loop_log src txins_db passed mint fee w dep lb
                (set_iter (coins_of txins_db passed mint))
                (mk_bal_state passed txouts []) (set_iter_NoDup _)
                ltac:(done) Hle') as Hlog.
  destruct (balance_loop_ok src txins_db passed mint fee w dep lb
              (set_iter (coins_of txins_db passed mint))
              (mk_bal_state passed txouts []) (set_iter_NoDup _)
              ltac:(done) Hle') as (st' & Hrun & Hres & _).
  unfold _balance_txouts. rewrite Hrun in Hlog |- *. simpl in *.
  split; [|exact Hlog].
  rewrite Hres, filter_app. f_equal. f_equal.
  apply filter_all, change_outputs_positive.
Qed.

Lemma balance_txouts_inl_inv `{SetOrder} src txouts txins_db passed mint fee w dep lb e :
  returned (_balance_txouts src txouts txins_db passed mint fee w dep lb) = inl e →
  e = CLIError "Cannot send all remaining funds to more than one address." ∧
  ∃ c, (1 < length (filter is_max (get_or_nil passed c)))%nat.
Proof.
  intros Hret.
  destruct (decide (Exists
    (λ c, (1 < length (filter is_max (get_or_nil passed c)))%nat)
    (set_iter (coins_of txins_db passed mint)))) as [Hex|Hnone].
  - apply Exists_exists in Hex as (c & _ & Hc).
    rewrite (balance_txouts_raises _ _ _ _ _ _ _ _ _ c Hc) in Hret.
    injection Hret as <-. eauto.
  - apply not_Exists_Forall in Hnone; [|apply _].
    rewrite Forall_forall in Hnone.
    destruct (balance_txouts_returns src txouts txins_db passed mint fee w dep lb)
      as [Hr _].
    + intros c Hc. apply elem_of_set_iter in Hc. specialize (Hnone c Hc).
      simpl in Hnone. lia.
    + rewrite Hr in Hret. discriminate Hret.
Qed.

(** X7. [_balance_txouts] raises exactly when some coin has more than one
    [-1] requested output, and what it raises is the [CLIError]; the fee, the
    funds and the delegation flag play no part in it. *)
Theorem balancer_raises_iff `{SetOrder} (src : string) (txouts : list TxOut.t)
    (txins_db : gmap string (list UTXOData.t))
    (passed mint : gmap string (list TxOut.t)) (fee : Z)
    (withdrawals : list TxOut.t) (deposit : Z) (lovelace_balanced : bool) :
  let b := _balance_txouts src txouts txins_db passed mint fee withdrawals
             deposit lovelace_balanced in
  (∀ e, returned b = inl e →
        e = CLIError "Cannot send all remaining funds to more than one address.") ∧
  ((∃ e, returned b = inl e) ↔
   ∃ c, (1 < length (filter is_max (get_or_nil passed c)))%nat).
Proof.
  intros b. split.
  - intros e He. by apply balance_txouts_inl_inv in He as [-> _].
  - split.
    + intros [e He]. by apply balance_txouts_inl_inv in He as [_ Hc].
    + intros [c Hc]. eexists. by apply (balance_txouts_raises _ _ _ _ _ _ _ _ _ c).
Qed.

Lemma coin_change_log c tin tout mint fee w dep lb :
  let r := coin_change c tin tout mint fee w dep lb in
  (r.2 = [] ↔ 0 ≤ r.1) ∧ Forall is_log r.2.
Proof.
  unfold coin_change.
  destruct (bool_decide (c = DEFAULT_COIN) && lb); simpl; [by split|].
  destruct (bool_decide (c = DEFAULT_COIN)); simpl;
    case_decide; simpl; (split; [split|]);
    intros;
    first [discriminate | lia | exfalso; lia | reflexivity
          | by repeat constructor].
Qed.

Lemma flat_map_nil_iff {A B : Type} (f : A → list B) (l : list A) :
  flat_map f l = [] ↔ ∀ x, x ∈ l → f x = [].
Proof.
  induction l as [|a l IH]; simpl.
  - split; [|done]. intros _ x Hx. by apply elem_of_nil in Hx.
  - split.
    + intros Happ. apply app_eq_nil in Happ as [Ha Hl].
      intros x Hx. apply elem_of_cons in Hx as [->|Hx]; [done|]. by apply IH.
    + intros Hall. rewrite (Hall a) by left. simpl. apply IH.
      intros x Hx. apply Hall. by right.
Qed.

(** X8. Insufficient funds never make the balancer raise: with at most one
    [-1] output per coin it returns its outputs whatever the funds are,
    everything it logs is an error message, and it logs nothing exactly when
    no coin has a negative change. *)
Theorem insufficient_funds_logged `{SetOrder} (src : string) (txouts : list TxOut.t)
    (txins_db : gmap string (list UTXOData.t))
    (passed mint : gmap string (list TxOut.t)) (fee : Z)
    (withdrawals : list TxOut.t) (deposit : Z) (lovelace_balanced : bool) :
  (∀ c, (length (filter is_max (get_or_nil passed c)) ≤ 1)%nat) →
  let b := _balance_txouts src txouts txins_db passed mint fee withdrawals
             deposit lovelace_balanced in
  (∃ outs, returned b = inr outs) ∧
  Forall is_log (logged b) ∧
  (logged b = [] ↔
   ∀ c, c ∈ coins_of txins_db passed mint →
        0 ≤ change_of txins_db passed mint fee withdrawals deposit
              lovelace_balanced c).
Proof.
  intros Hle b.
  destruct (balance_txouts_returns src txouts txins_db passed mint fee withdrawals
              deposit lovelace_balanced) as [Hret Hlog]; [intros c _; apply Hle|].
  fold b in Hret, Hlog. split; [eauto|]. rewrite Hlog. split.
  - apply Forall_forall. intros ev Hev.
    apply list_elem_of_In, in_flat_map in Hev as (c & _ & Hev).
    apply list_elem_of_In in Hev.
    pose proof (coin_change_log c (total_amount (get_or_nil txins_db c))
                  (total_amount (requested passed c)) mint fee withdrawals
                  deposit lovelace_balanced) as [_ Hall].
    rewrite Forall_forall in Hall. by apply Hall.
  - rewrite flat_map_nil_iff. split.
    + intros Hnil c Hc. apply (coin_change_log c). apply Hnil.
      by apply elem_of_set_iter.
    + intros Hpos c Hc. apply (coin_change_log c). apply Hpos.
      by apply elem_of_set_iter in Hc.
Qed.

Lemma insufficient_funds_logged_witness :
  ∃ outs, returned (@_balance_txouts elements_order "addr1"
                      [TxOut.make "addr2" 3000 DEFAULT_COIN] txA_db
                      {[DEFAULT_COIN := [TxOut.make "addr2" 3000 DEFAULT_COIN]]} ∅
                      10 [] 0 false) = inr outs.
Proof.
  refine (proj1 (@insufficient_funds_logged elements_order "addr1"
    [TxOut.make "addr2" 3000 DEFAULT_COIN] txA_db
    {[DEFAULT_COIN := [TxOut.make "addr2" 3000 DEFAULT_COIN]]} ∅ 10 [] 0 false _)).
  intros c. unfold get_or_nil.
  destruct (decide (c = DEFAULT_COIN)) as [->|Hne].
  - rewrite lookup_singleton_eq. simpl. lia.
  - rewrite lookup_singleton_ne by done. simpl. lia.
Defined.

Example insufficient_funds_run :
  let b := @_balance_txouts elements_order "addr1"
             [TxOut.make "addr2" 3000 DEFAULT_COIN] txA_db
             {[DEFAULT_COIN := [TxOut.make "addr2" 3000 DEFAULT_COIN]]} ∅
             10 [] 0 false in
  returned b = inr [TxOut.make "addr2" 3000 DEFAULT_COIN] ∧
  logged b = [LogError
    "Not enough funds to make the transaction - available: 1000; needed: 3010"].
Proof. split; vm_compute; reflexivity. Qed.

Lemma change_outputs_delegated src txins_db passed mint fee w dep coins :
  change_outputs src passed (change_of txins_db passed mint fee w dep true) coins
  = filter (λ o, TxOut.coin o ≠ DEFAULT_COIN)
      (change_outputs src passed (change_of txins_db passed mint fee w dep false)
         coins).
Proof.
  unfold change_outputs. induction coins as [|c coins IH]; [done|].
  simpl. rewrite filter_app, <- IH. f_equal.
  unfold change_of, coin_change.
  destruct (decide (c = DEFAULT_COIN)) as [->|Hc].
  - rewrite !bool_decide_eq_true_2 by done. simpl.
    destruct (decide (0 < _)); [|done].
    by rewrite filter_cons_False by (simpl; tauto).
  - rewrite !bool_decide_eq_false_2 by done. simpl.
    case_decide; [|done]. by rewrite filter_cons_True.
Qed.

(** X9. With base-coin balancing delegated ([lovelace_balanced]) the balancer
    appends no base-coin output, and appends for every other coin the change
    output it appends otherwise. *)
Theorem delegated_balancing_adds_no_base_change `{SetOrder} (src : string)
    (txouts : list TxOut.t) (txins_db : gmap string (list UTXOData.t))
    (passed mint : gmap string (list TxOut.t)) (fee : Z)
    (withdrawals : list TxOut.t) (deposit : Z) :
  (∀ c, (length (filter is_max (get_or_nil passed c)) ≤ 1)%nat) →
  ∃ outs_delegated outs,
    returned (_balance_txouts src txouts txins_db passed mint fee withdrawals
                deposit true) = inr outs_delegated ∧
    returned (_balance_txouts src txouts txins_db passed mint fee withdrawals
                deposit false) = inr outs ∧
    appended txouts outs_delegated
    = filter (λ o, TxOut.coin o ≠ DEFAULT_COIN) (appended txouts outs).
Proof.
  intros Hle.
  destruct (balance_txouts_returns src txouts txins_db passed mint fee withdrawals
              deposit true) as [Ht _]; [intros c _; apply Hle|].
  destruct (balance_txouts_returns src txouts txins_db passed mint fee withdrawals
              deposit false) as [Hf _]; [intros c _; apply Hle|].
  eexists _, _. split; [exact Ht|]. split; [exact Hf|].
  unfold appended. rewrite !drop_app_length. apply change_outputs_delegated.
Qed.

Lemma delegated_balancing_adds_no_base_change_witness :
  ∃ outs_delegated outs,
    returned (@_balance_txouts elements_order "addr1" [pay300] txA_db
                {[DEFAULT_COIN := [pay300]]} ∅ 10 [] 0 true) = inr outs_delegated ∧
    returned (@_balance_txouts elements_order "addr1" [pay300] txA_db
                {[DEFAULT_COIN := [pay300]]} ∅ 10 [] 0 false) = inr outs ∧
    appended [pay300] outs_delegated
    = filter (λ o, TxOut.coin o ≠ DEFAULT_COIN) (appended [pay300] outs).
Proof.
  apply (@delegated_balancing_adds_no_base_change elements_order).
  intros c. unfold get_or_nil.
  destruct (decide (c = DEFAULT_COIN)) as [->|Hne].
  - rewrite lookup_singleton_eq. simpl. lia.
  - rewrite lookup_singleton_ne by done. simpl. lia.
Defined.

Lemma balance_txouts_db_after `{SetOrder} src txouts txins_db passed mint fee w dep lb :
  (∀ c, c ∈ coins_of txins_db passed mint →
        (length (filter is_max (get_or_nil passed c)) ≤ 1)%nat) →
  ∀ c, passed_db_after (_balance_txouts src txouts txins_db passed mint fee w dep lb)
       !! c
       = if decide (c ∈ coins_of txins_db passed mint
                    ∧ filter is_max (get_or_nil passed c) ≠ [])
         then Some (requested passed c) else passed !! c.
Proof.
  intros Hle c.
  assert (Hle' : ∀ c, c ∈ set_iter (coins_of txins_db passed mint) →
            (length (filter is_max (get_or_nil passed c)) ≤ 1)%nat)
    by (intros c' Hc'; by apply Hle, elem_of_set_iter).
  destruct (balance_loop_ok src txins_db passed mint fee w dep lb
              (set_iter (coins_of txins_db passed mint))
              (mk_bal_state passed txouts []) (set_iter_NoDup _)
              ltac:(done) Hle') as (st' & Hrun & _ & Hdb).
  destruct (balance_txouts_unfold src txouts txins_db passed mint fee w dep lb)
    as [Hafter _].
  rewrite Hafter, Hrun. cbn [fst]. rewrite Hdb. cbn [bs_passed_db].
  destruct (decide (c ∈ set_iter (coins_of txins_db passed mint)
                    ∧ filter is_max (get_or_nil passed c) ≠ [])) as [Hc|Hc];
    destruct (decide (c ∈ coins_of txins_db passed mint
                      ∧ filter is_max (get_or_nil passed c) ≠ [])) as [Hc'|Hc'];
    try done; exfalso; rewrite elem_of_set_iter in Hc; done.
Qed.

(** X10. The order in which the set of coins is iterated does not change the
    outcome of [_balance_txouts]: under two orders it raises the same
    exception, or returns the same outputs up to a permutation, the requested
    outputs coming first in both.  When it returns, it has logged the same
    messages up to their order and left [txouts_passed_db] the same.  (What
    is logged and popped before a raise does depend on the order, see
    [raise_log_depends_on_order].) *)
Theorem balance_txouts_order_independent (S1 S2 : SetOrder) (src : string)
    (txouts : list TxOut.t) (txins_db : gmap string (list UTXOData.t))
    (passed mint : gmap string (list TxOut.t)) (fee : Z)
    (withdrawals : list TxOut.t) (deposit : Z) (lovelace_balanced : bool) :
  let b1 := @_balance_txouts S1 src txouts txins_db passed mint fee
              withdrawals deposit lovelace_balanced in
  let b2 := @_balance_txouts S2 src txouts txins_db passed mint fee
              withdrawals deposit lovelace_balanced in
  same_outcome (returned b1) (returned b2) ∧
  (∀ outs1 outs2, returned b1 = inr outs1 → returned b2 = inr outs2 →
     take (length (filter (λ o, 0 < TxOut.amount o) txouts)) outs1
     = filter (λ o, 0 < TxOut.amount o) txouts ∧
     take (length (filter (λ o, 0 < TxOut.amount o) txouts)) outs2
     = filter (λ o, 0 < TxOut.amount o) txouts ∧
     logged b1 ≡ₚ logged b2 ∧
     passed_db_after b1 = passed_db_after b2).
Proof.
  intros b1 b2.
  destruct (decide (Exists
    (λ c, (1 < length (filter is_max (get_or_nil passed c)))%nat)
    (elements (coins_of txins_db passed mint)))) as [Hex|Hnone].
  - apply Exists_exists in Hex as (c & _ & Hc).
    subst b1 b2.
    rewrite (@balance_txouts_raises S1 _ _ _ _ _ _ _ _ _ c Hc).
    rewrite (@balance_txouts_raises S2 _ _ _ _ _ _ _ _ _ c Hc).
    split; [done|]. intros ? ? Habs. discriminate Habs.
  - apply not_Exists_Forall in Hnone; [|apply _].
    rewrite Forall_forall in Hnone.
    assert (Hle : ∀ c, c ∈ coins_of txins_db passed mint →
              (length (filter is_max (get_or_nil passed c)) ≤ 1)%nat).
    { intros c Hc. apply elem_of_elements in Hc. specialize (Hnone c Hc).
      simpl in Hnone. lia. }
    destruct (@balance_txouts_returns S1 src txouts txins_db passed mint fee
                withdrawals deposit lovelace_balanced Hle) as [H1 Hl1].
    destruct (@balance_txouts_returns S2 src txouts txins_db passed mint fee
                withdrawals deposit lovelace_balanced Hle) as [H2 Hl2].
    subst b1 b2. rewrite H1, H2. split.
    + simpl. apply Permutation_app_head. unfold change_outputs.
      apply Permutation_flat_map.
      rewrite (@set_iter_perm S1), (@set_iter_perm S2). done.
    + intros outs1 outs2 Ho1 Ho2. injection Ho1 as <-. injection Ho2 as <-.
      rewrite !take_app_length. split; [done|]. split; [done|]. split.
      * rewrite Hl1, Hl2. apply Permutation_flat_map.
        rewrite (@set_iter_perm S1), (@set_iter_perm S2). done.
      * apply map_eq. intros c.
        rewrite (@balance_txouts_db_after S1), (@balance_txouts_db_after S2)
          by done. done.
Qed.

(** Before a raise the order shows: with two [-1] outputs of the base coin
    and an unfunded output of a token, one order raises at once and the
    other first logs the token's shortfall. *)
Example raise_log_depends_on_order :
  let passed : gmap string (list TxOut.t) :=
    {[DEFAULT_COIN := [pay_all "addr2"; pay_all "addr3"];
      "policy.T" := [TxOut.make "addr2" 5 "policy.T"]]} in
  returned (@_balance_txouts elements_order "addr1" [] ∅ passed ∅ 0 [] 0 false)
  = returned (@_balance_txouts reversed_order "addr1" [] ∅ passed ∅ 0 [] 0 false) ∧
  logged (@_balance_txouts elements_order "addr1" [] ∅ passed ∅ 0 [] 0 false)
  ≠ logged (@_balance_txouts reversed_order "addr1" [] ∅ passed ∅ 0 [] 0 false).
Proof. vm_compute. split; [reflexivity|discriminate]. Qed.

(** ** More on the orchestrator *)

Lemma balance_loop_logs_only src txins_db mint fee w dep lb coins st :
  Forall is_log (bs_log st) →
  Forall is_log (bs_log (balance_loop src txins_db mint fee w dep lb coins st).1).
Proof.
  revert st. induction coins as [|c coins IH]; intros st Hst; [done|].
  simpl. destruct (balance_coin src txins_db mint fee w dep lb st c)
    as [e|st'] eqn:Hstep; [done|].
  apply IH. rewrite (balance_coin_log _ _ _ _ _ _ _ _ _ _ Hstep).
  apply Forall_app. split; [done|]. apply coin_change_log.
Qed.

Lemma balance_txouts_logs_only `{SetOrder} src txouts txins_db passed mint fee w dep lb :
  Forall is_log
    (logged (_balance_txouts src txouts txins_db passed mint fee w dep lb)).
Proof.
  pose proof (balance_loop_logs_only src txins_db mint fee w dep lb
                (set_iter (coins_of txins_db passed mint))
                (mk_bal_state passed txouts []) ltac:(constructor)) as Hlog.
  unfold _balance_txouts.
  destruct (balance_loop _ _ _ _ _ _ _ _ _) as [st [e|]]; exact Hlog.
Qed.

Lemma check_events_logs_only txins_all passed mint :
  Forall is_log (check_events txins_all passed mint).
Proof.
  unfold check_events.
  destruct (negb (truthy txins_all)); [by repeat constructor|].
  destruct (negb (bool_decide _)); by repeat constructor.
Qed.

(** X11. Explicit inputs are trusted as they are: with a non-empty input list
    and a deposit that is given or found, the UTxOs of the address are never
    looked up, no selection is made, and the inputs returned are the inputs
    passed, whatever they hold. *)
Theorem explicit_inputs_trusted `{SetOrder} (obj : ClusterLib.t) (src : string)
    (files : TxFiles) (txins : OptionalUTXOData) (txouts : list TxOut.t) (fee : Z)
    (deposit : option Z) (w mint : list TxOut.t) (lb : bool)
    (u : UTXOData.t) (us : list UTXOData.t) (dep : Z) :
  to_list txins = u :: us →
  (if deposit is Some d then inr d else ClusterLib.get_tx_deposit obj files)
  = inr dep →
  let run := _get_tx_ins_outs obj src files txins txouts fee deposit w mint lb in
  (∀ ins outs, run.2 = inr (ins, outs) → ins = u :: us) ∧
  (∀ a, GetUtxo a ∉ run.1) ∧
  (∀ ids, SelectUtxos ids ∉ run.1).
Proof.
  intros Hto Hdep run.
  pose proof (get_tx_ins_outs_explicit obj src files txins txouts fee deposit
                w mint lb u us dep Hto Hdep) as Hrun.
  cbv zeta in Hrun. fold run in Hrun. rewrite Hrun. simpl.
  assert (Hev : ∀ ev, ev ∈ deposit_events files deposit
              ++ check_events (u :: us) (_organize_tx_ins_outs_by_coin txouts)
                   (_organize_tx_ins_outs_by_coin mint)
              ++ logged (_balance_txouts src txouts
                           (_organize_tx_ins_outs_by_coin (u :: us))
                           (_organize_tx_ins_outs_by_coin txouts)
                           (_organize_tx_ins_outs_by_coin mint) fee w dep lb) →
            is_log ev ∨ ev = GetTxDeposit files).
  { intros ev. rewrite !elem_of_app. intros [Hd|[Hc|Hl]].
    - right. unfold deposit_events in Hd.
      destruct deposit; [by apply elem_of_nil in Hd|].
      by apply list_elem_of_singleton in Hd.
    - left. pose proof (check_events_logs_only (u :: us)
                (_organize_tx_ins_outs_by_coin txouts)
                (_organize_tx_ins_outs_by_coin mint)) as Hall.
      rewrite Forall_forall in Hall. by apply Hall.
    - left. pose proof (balance_txouts_logs_only src txouts
                (_organize_tx_ins_outs_by_coin (u :: us))
                (_organize_tx_ins_outs_by_coin txouts)
                (_organize_tx_ins_outs_by_coin mint) fee w dep lb) as Hall.
      rewrite Forall_forall in Hall. by apply Hall. }
  split; [|split].
  - intros ins outs Hres.
    destruct (returned _); [discriminate Hres|]. by injection Hres as <- _.
  - intros a Ha. by destruct (Hev _ Ha) as [Hl|Hl].
  - intros ids Hs. by destruct (Hev _ Hs) as [Hl|Hl].
Qed.

Lemma explicit_inputs_trusted_witness :
  ¬ (GetUtxo "addr1" ∈
     (@_get_tx_ins_outs elements_order (one_utxo_node 0) "addr1" []
        (PyList [ada "txZ" 3 5 "addr9"]) [pay300] 10 (Some 0) [] [] false).1).
Proof.
  exact (proj1 (proj2 (@explicit_inputs_trusted elements_order (one_utxo_node 0)
    "addr1" [] (PyList [ada "txZ" 3 5 "addr9"]) [pay300] 10 (Some 0) [] [] false
    (ada "txZ" 3 5 "addr9") [] 0 eq_refl eq_refl)) "addr1").
Defined.

Lemma logs_no_deposit (l : list event) (f : TxFiles) :
  Forall is_log l → GetTxDeposit f ∉ l.
Proof.
  intros Hall Hf. rewrite Forall_forall in Hall. by apply Hall in Hf.
Qed.

(** X12. A failing lookup ends [_get_tx_ins_outs] at once with the lookup's
    own exception: after a failed UTxO lookup nothing else is done, and after
    a failed deposit lookup nothing is logged, selected or balanced.  The
    deposit is looked up only when none is given. *)
Theorem lookups_fail_fast `{SetOrder} (obj : ClusterLib.t) (src : string)
    (files : TxFiles) (txins : OptionalUTXOData) (txouts : list TxOut.t) (fee : Z)
    (deposit : option Z) (w mint : list TxOut.t) (lb : bool) :
  let run := _get_tx_ins_outs obj src files txins txouts fee deposit w mint lb in
  (∀ e, to_list txins = [] → ClusterLib.get_utxo obj src = inl e →
        run = ([GetUtxo src], inl e)) ∧
  (∀ e, deposit = None → ClusterLib.get_tx_deposit obj files = inl e →
        (to_list txins = [] → ∃ utxos, ClusterLib.get_utxo obj src = inr utxos) →
        run = ((if truthy (to_list txins) then [] else [GetUtxo src])
               ++ [GetTxDeposit files], inl e)) ∧
  (∀ d, deposit = Some d → ∀ f, GetTxDeposit f ∉ run.1).
Proof.
  intros run. split; [|split].
  - intros e Hto Hget. subst run. unfold _get_tx_ins_outs.
    rewrite Hto, Hget. reflexivity.
  - intros e -> Hdep Hget. subst run. unfold _get_tx_ins_outs. run_binds.
    destruct (to_list txins) as [|u us] eqn:Hto; cbn [truthy].
    + destruct (Hget eq_refl) as [utxos ->]. rewrite Hdep. reflexivity.
    + rewrite Hdep. reflexivity.
  - intros d -> f Hf. subst run.
    destruct (to_list txins) as [|u us] eqn:Hto.
    + destruct (ClusterLib.get_utxo obj src) as [e|utxos] eqn:Hget.
      * unfold _get_tx_ins_outs in Hf. rewrite Hto, Hget in Hf. simpl in Hf.
        apply list_elem_of_singleton in Hf. discriminate Hf.
      * pose proof (get_tx_ins_outs_auto obj src files txins txouts fee (Some d)
                      w mint lb utxos d Hto Hget eq_refl) as Hrun.
        cbv zeta in Hrun. rewrite Hrun in Hf. simpl in Hf.
        apply elem_of_cons in Hf as [Hf|Hf]; [discriminate Hf|].
        rewrite elem_of_app in Hf. destruct Hf as [Hf|Hf].
        { eapply logs_no_deposit; [|exact Hf]. apply check_events_logs_only. }
        apply elem_of_cons in Hf as [Hf|Hf]; [discriminate Hf|].
        rewrite elem_of_app in Hf. destruct Hf as [Hf|Hf].
        { unfold empty_events in Hf. destruct (negb _).
          - apply list_elem_of_singleton in Hf. discriminate Hf.
          - by apply elem_of_nil in Hf. }
        eapply logs_no_deposit; [|exact Hf]. apply balance_txouts_logs_only.
    + pose proof (get_tx_ins_outs_explicit obj src files txins txouts fee (Some d)
                    w mint lb u us d Hto eq_refl) as Hrun.
      cbv zeta in Hrun. rewrite Hrun in Hf. simpl in Hf.
      rewrite elem_of_app in Hf. destruct Hf as [Hf|Hf].
      { eapply logs_no_deposit; [|exact Hf]. apply check_events_logs_only. }
      eapply logs_no_deposit; [|exact Hf]. apply balance_txouts_logs_only.
Qed.

Lemma lookups_fail_fast_witness :
  @_get_tx_ins_outs elements_order
    (ClusterLib.mk (λ _, inr [txA]) (λ _, inl (CLIError "deposit")) 0)
    "addr1" [] EmptyTuple [pay300] 10 None [] [] false
  = ([GetUtxo "addr1"; GetTxDeposit []], inl (CLIError "deposit")).
Proof.
  apply (proj1 (proj2 (@lookups_fail_fast elements_order
           (ClusterLib.mk (λ _, inr [txA]) (λ _, inl (CLIError "deposit")) 0)
           "addr1" [] EmptyTuple [pay300] 10 None [] [] false))
           (CLIError "deposit") eq_refl eq_refl).
  intros _. by eexists.
Defined.

(** ** Output arguments *)

Lemma chain_results_inr {A B : Type} (f : A → list B) (g : A → exn + list B)
    (l : list A) :
  (∀ x, x ∈ l → g x = inr (f x)) →
  chain_results (g <$> l) = inr (flat_map f l).
Proof.
  induction l as [|x l IH]; intros Hg; [done|].
  rewrite fmap_cons. cbn [chain_results flat_map].
  rewrite (Hg x) by left. rewrite IH; [done|].
  intros y Hy. apply Hg. by right.
Qed.

Lemma groups_of_nonempty {A : Type} (key : A → string) (l : list A)
    (g : string * list A) :
  g ∈ groups_of key l → g.2 ≠ [].
Proof.
  unfold groups_of. intros Hg. apply list_elem_of_fmap in Hg as [k [-> Hk]].
  apply elem_of_first_seen, list_elem_of_fmap in Hk as [r [-> Hr]]. simpl.
  intros Hnil.
  assert (Hin : r ∈ filter (λ r', key r' = key r) l)
    by (apply list_elem_of_filter; split; [done|exact Hr]).
  rewrite Hnil in Hin. by apply elem_of_nil in Hin.
Qed.

Lemma join_group_joined (g : string * list TxOut.t) :
  g.2 ≠ [] → join_group g = inr (joined_args g).
Proof. destruct g as [addr [|rec0 recs]]; [done|]. reflexivity. Qed.

(** The state of the first loop of [_join_txouts] after the outputs [l]. *)
Lemma join_step_inv (l : list TxOut.t) (r : TxOut.t)
    (st : list string * gmap string (odict (list TxOut.t))) :
  st.1 = first_seen (datum_src <$> l) →
  (∀ d, st.2 !! d
        = if decide (d ∈ datum_src <$> l)
          then Some (groups_of TxOut.address (filter (λ o, datum_src o = d) l))
          else None) →
  (join_step st r).1 = first_seen (datum_src <$> (l ++ [r])) ∧
  (∀ d, (join_step st r).2 !! d
        = if decide (d ∈ datum_src <$> (l ++ [r]))
          then Some (groups_of TxOut.address
                       (filter (λ o, datum_src o = d) (l ++ [r])))
          else None).
Proof.
  destruct st as [order m]. simpl. intros -> Hm. split.
  - rewrite fmap_app. simpl. by rewrite first_seen_snoc_step.
  - intros d. rewrite fmap_app, filter_app. simpl. unfold odict in *.
    destruct (decide (d ∈ (datum_src <$> l) ++ [datum_src r])) as [Hd|Hd].
    + destruct (decide (d = datum_src r)) as [->|Hne].
      * rewrite lookup_insert_eq. f_equal.
        rewrite (filter_cons_True (λ o, datum_src o = datum_src r)) by done.
        rewrite filter_nil.
        pose proof (Hm (datum_src r)) as Hr.
        destruct (decide (datum_src r ∈ dom m)) as [Hin|Hnin].
        { apply elem_of_dom in Hin as [g Hg]. rewrite Hg. simpl.
          rewrite Hg in Hr. case_decide; [|done]. injection Hr as ->.
          apply groups_of_snoc. }
        rewrite lookup_insert_eq. simpl.
        assert (Hnl : datum_src r ∉ datum_src <$> l).
        { intros Hin. apply Hnin, elem_of_dom. rewrite Hr.
          rewrite decide_True by done. by eexists. }
        rewrite (filter_none (λ o, datum_src o = datum_src r) l).
        { apply (groups_of_snoc TxOut.address [] r). }
        apply Forall_forall. intros o Ho Heq. apply Hnl.
        apply list_elem_of_fmap. by exists o.
      * rewrite lookup_insert_ne by done.
        rewrite (filter_cons_False (λ o, datum_src o = d)) by done.
        rewrite filter_nil, app_nil_r.
        assert (Hl : (if decide (datum_src r ∈ dom m) then m
                      else <[datum_src r:=[]]> m) !! d = m !! d).
        { case_decide; [done|]. by rewrite lookup_insert_ne. }
        rewrite Hl, Hm. rewrite decide_True; [done|].
        apply elem_of_app in Hd as [Hd|Hd]; [done|].
        by apply list_elem_of_singleton in Hd.
    + assert (Hne : datum_src r ≠ d).
      { intros <-. apply Hd, elem_of_app. right. by left. }
      rewrite lookup_insert_ne by done.
      assert (Hl : (if decide (datum_src r ∈ dom m) then m
                    else <[datum_src r:=[]]> m) !! d = m !! d).
      { case_decide; [done|]. by rewrite lookup_insert_ne. }
      rewrite Hl, Hm. rewrite decide_False; [done|].
      intros Hin. apply Hd, elem_of_app. by left.
Qed.

Lemma join_fold_inv (l0 l : list TxOut.t)
    (st : list string * gmap string (odict (list TxOut.t))) :
  st.1 = first_seen (datum_src <$> l0) →
  (∀ d, st.2 !! d
        = if decide (d ∈ datum_src <$> l0)
          then Some (groups_of TxOut.address (filter (λ o, datum_src o = d) l0))
          else None) →
  (foldl join_step st l).1 = first_seen (datum_src <$> (l0 ++ l)) ∧
  (∀ d, (foldl join_step st l).2 !! d
        = if decide (d ∈ datum_src <$> (l0 ++ l))
          then Some (groups_of TxOut.address
                       (filter (λ o, datum_src o = d) (l0 ++ l)))
          else None).
Proof.
  revert l0 st. induction l as [|r l IH]; intros l0 st H1 H2.
  - by rewrite app_nil_r.
  - simpl. destruct (join_step_inv l0 r st H1 H2) as [H1' H2'].
    destruct (IH (l0 ++ [r]) (join_step st r) H1' H2') as [H1'' H2''].
    rewrite <- app_assoc in H1'', H2''. done.
Qed.

Lemma join_txouts_groups (txouts : list TxOut.t) :
  _join_txouts txouts
  = inr (flat_map
           (λ d, flat_map joined_args
                   (groups_of TxOut.address
                      (filter (λ o, datum_src o = d) txouts)))
           (first_seen (datum_src <$> txouts))).
Proof.
  unfold _join_txouts.
  destruct (join_fold_inv [] txouts ([], ∅) eq_refl
              (λ d, lookup_empty d)) as [H1 H2].
  simpl in H1, H2.
  destruct (foldl join_step ([], ∅) txouts) as [order m]. simpl in H1, H2.
  subst order. apply chain_results_inr.
  intros d Hd. rewrite elem_of_first_seen in Hd.
  rewrite H2, decide_True by done.
  apply chain_results_inr. intros g Hg.
  apply join_group_joined. by apply groups_of_nonempty in Hg.
Qed.

(** X13. [_join_txouts] never raises, and its arguments are those of one
    joined output per datum source and address: the datum sources in the
    order first seen, under each the addresses in the order first seen, and
    for each address the amounts of its outputs in their order. *)
Theorem join_txouts_spec (txouts : list TxOut.t) :
  _join_txouts txouts
  = inr (flat_map
           (λ d, flat_map joined_args
                   (groups_of TxOut.address
                      (filter (λ o, datum_src o = d) txouts)))
           (first_seen (datum_src <$> txouts))).
Proof. apply join_txouts_groups. Qed.
Lemma first_seen_const (l : list string) (d : string) :
  Forall (λ x, x = d) l → l ≠ [] → first_seen l = [d].
Proof.
  induction l as [|x l IH] using rev_ind; intros Hall Hne; [done|].
  apply Forall_app in Hall as [Hall Hx]. apply Forall_singleton in Hx as ->.
  rewrite first_seen_snoc. destruct l as [|y l]; [done|].
  rewrite IH by done. apply Forall_cons in Hall as [-> _].
  by rewrite decide_True by left.
Qed.

Lemma groups_of_distinct {A : Type} (key : A → string) (l : list A) :
  NoDup (key <$> l) → groups_of key l = (λ r, (key r, [r])) <$> l.
Proof.
  induction l as [|r l IH] using rev_ind; intros Hnd; [done|].
  rewrite fmap_app in Hnd. apply NoDup_app in Hnd as (Hl & Hr & _).
  rewrite <- groups_of_snoc, IH by done.
  assert (Hfresh : key r ∉ ((λ r0, (key r0, [r0])) <$> l).*1).
  { rewrite <- list_fmap_compose. intros Hin. apply (Hr (key r) Hin). by left. }
  unfold odict_setdefault_append. rewrite odict_get_fresh by done.
  rewrite odict_append_new by done. by rewrite fmap_app.
Qed.

Lemma string_app_empty (s : string) : s +:+ "" = s.
Proof.
  induction s as [|c s IH]; [done|].
  change (String c s +:+ "") with (String c (s +:+ "")). by rewrite IH.
Qed.

Lemma joined_args_single (r : TxOut.t) :
  TxOut.coin r = "" ∨ TxOut.coin r = DEFAULT_COIN →
  joined_args (TxOut.address r, [r]) = list_txout r.
Proof.
  intros Hcoin. unfold joined_args, list_txout, amount_str. simpl.
  assert (Hc : negb (bool_decide (TxOut.coin r = ""))
               && negb (bool_decide (TxOut.coin r = DEFAULT_COIN)) = false).
  { destruct Hcoin as [Hc|Hc].
    - by rewrite (bool_decide_eq_true_2 _ Hc).
    - rewrite (bool_decide_eq_true_2 (TxOut.coin r = DEFAULT_COIN) Hc).
      by rewrite andb_false_r. }
  rewrite Hc. by rewrite string_app_empty.
Qed.

(** X14. With nothing to join, joining changes nothing: for outputs of one
    datum source, with distinct addresses and all of the base coin,
    [_process_txouts] gives the same arguments with and without
    [join_txouts]. *)
Theorem process_txouts_nothing_to_join (txouts : list TxOut.t) (d : string) :
  Forall (λ o, datum_src o = d) txouts →
  NoDup (TxOut.address <$> txouts) →
  Forall (λ o, TxOut.coin o = "" ∨ TxOut.coin o = DEFAULT_COIN) txouts →
  _process_txouts txouts true = _process_txouts txouts false.
Proof.
  intros Hd Hnd Hcoin. unfold _process_txouts. rewrite join_txouts_groups.
  f_equal. destruct txouts as [|o txouts]; [done|].
  rewrite (first_seen_const _ d); [|by apply Forall_fmap|done].
  cbn [flat_map]. rewrite app_nil_r.
  rewrite (filter_all (λ o', datum_src o' = d)) by done.
  rewrite groups_of_distinct by done. unfold _list_txouts.
  generalize dependent (o :: txouts). clear. intros l _ _ Hcoin.
  induction Hcoin as [|r l Hr _ IH]; [done|].
  rewrite fmap_cons. cbn [flat_map]. rewrite IH. f_equal.
  by apply joined_args_single.
Qed.

Lemma process_txouts_nothing_to_join_witness :
  _process_txouts [pay300; TxOut.make "addr3" 5 DEFAULT_COIN] true
  = _process_txouts [pay300; TxOut.make "addr3" 5 DEFAULT_COIN] false.
Proof.
  apply (process_txouts_nothing_to_join _ "").
  - by repeat constructor.
  - apply (bool_decide_unpack _). vm_compute. reflexivity.
  - repeat constructor; by right.
Defined.

(** X15. The datum value [_get_txout_plutus_args] emits is the datum source
    [_join_txouts] groups by: without a datum source the arguments are those
    of the reference script alone, and with one they are a single datum flag
    followed by that source, then the reference script arguments, if any. *)
Theorem plutus_args_follow_datum_src (txout : TxOut.t) :
  let ref_args :=
    if decide (TxOut.reference_script_file txout = "") then []
    else ["--tx-out-reference-script-file"; TxOut.reference_script_file txout] in
  (datum_src txout = "" ∧ _get_txout_plutus_args txout = ref_args) ∨
  (datum_src txout ≠ "" ∧
   ∃ flag, flag ∈ ["--tx-out-datum-hash"; "--tx-out-datum-hash-file";
                   "--tx-out-datum-hash-cbor-file"; "--tx-out-datum-hash-value";
                   "--tx-out-inline-datum-file"; "--tx-out-inline-datum-cbor-file";
                   "--tx-out-inline-datum-value"] ∧
     _get_txout_plutus_args txout = [flag; datum_src txout] ++ ref_args).
Proof.
  destruct txout as [a n c d1 d2 d3 d4 d5 d6 d7 rs]. cbv zeta.
  destruct d1 as [|c1 d1], d2 as [|c2 d2], d3 as [|c3 d3], d4 as [|c4 d4],
    d5 as [|c5 d5], d6 as [|c6 d6], d7 as [|c7 d7], rs as [|cr rs];
    first [ left; split; reflexivity
          | right; split; [discriminate|];
            eexists; split; [|reflexivity]; by repeat constructor ].
Qed.

(** ** Withdrawals *)

Lemma resolve_loop_app (g : string → exn + StakeAddrInfo.t)
    (l1 l2 acc : list TxOut.t) :
  resolve_loop g (l1 ++ l2) acc
  = match resolve_loop g l1 acc with
    | inl e => inl e
    | inr r1 => resolve_loop g l2 r1
    end.
Proof.
  revert acc. induction l1 as [|w l1 IH]; intros acc; [done|].
  cbn [app resolve_loop]. case_decide; [|apply IH].
  destruct (g (TxOut.address w)); [done|apply IH].
Qed.

Lemma resolve_loop_acc (g : string → exn + StakeAddrInfo.t)
    (ws acc : list TxOut.t) :
  resolve_loop g ws acc
  = match resolve_loop g ws [] with
    | inl e => inl e
    | inr rs => inr (acc ++ rs)
    end.
Proof.
  revert acc. induction ws as [|w ws IH]; intros acc.
  { simpl. by rewrite app_nil_r. }
  cbn [resolve_loop]. case_decide.
  - destruct (g (TxOut.address w)) as [e|info]; [done|].
    rewrite (IH (acc ++ _)), (IH ([] ++ _)).
    destruct (resolve_loop g ws []); [done|]. by rewrite <- app_assoc.
  - rewrite (IH (acc ++ _)), (IH ([] ++ _)).
    destruct (resolve_loop g ws []); [done|]. by rewrite <- app_assoc.
Qed.

Lemma resolve_withdrawals_app (g : string → exn + StakeAddrInfo.t)
    (l1 l2 : list TxOut.t) :
  _resolve_withdrawals g (l1 ++ l2)
  = match _resolve_withdrawals g l1 with
    | inl e => inl e
    | inr r1 =>
        match _resolve_withdrawals g l2 with
        | inl e => inl e
        | inr r2 => inr (r1 ++ r2)
        end
    end.
Proof.
  unfold _resolve_withdrawals. rewrite resolve_loop_app.
  destruct (resolve_loop g l1 []) as [e|r1]; [done|]. apply resolve_loop_acc.
Qed.

Lemma resolve_withdrawals_each (g : string → exn + StakeAddrInfo.t)
    (ws : list TxOut.t) :
  match _resolve_withdrawals g ws with
  | inr rs =>
      Forall2 (λ w r,
        if decide (TxOut.amount w = -1) then
          ∃ info, g (TxOut.address w) = inr info ∧
            r = TxOut.make (TxOut.address w)
                  (StakeAddrInfo.reward_account_balance info) DEFAULT_COIN
        else r = w) ws rs
  | inl e =>
      ∃ w, w ∈ ws ∧ TxOut.amount w = -1 ∧ g (TxOut.address w) = inl e
  end.
Proof.
  induction ws as [|w ws IH]; [constructor|].
  change (w :: ws) with ([w] ++ ws).
  rewrite (resolve_withdrawals_app g [w] ws).
  unfold _resolve_withdrawals at 1. cbn [resolve_loop].
  destruct (decide (TxOut.amount w = -1)) as [Hw|Hw].
  - destruct (g (TxOut.address w)) as [e|info] eqn:Hg.
    + exists w. split; [by left|done].
    + destruct (_resolve_withdrawals g ws) as [e|rs].
      * destruct IH as (w' & Hin & Hrest). exists w'. split; [by right|done].
      * constructor; [|done]. rewrite decide_True by done. by exists info.
  - destruct (_resolve_withdrawals g ws) as [e|rs].
    + destruct IH as (w' & Hin & Hrest). exists w'. split; [by right|done].
    + constructor; [|done]. by rewrite decide_False by done.
Qed.

(** X16. [_resolve_withdrawals] answers one withdrawal for each withdrawal
    given, in order: a withdrawal of [-1] becomes a base-coin output of the
    reward balance of its address, any other is passed on as it is.  When it
    raises, the exception is that of the reward lookup of some [-1]
    withdrawal. *)
Theorem resolve_withdrawals_spec (get_stake_addr_info : string → exn + StakeAddrInfo.t)
    (withdrawals : list TxOut.t) :
  match _resolve_withdrawals get_stake_addr_info withdrawals with
  | inr resolved =>
      Forall2 (λ w r,
        if decide (TxOut.amount w = -1) then
          ∃ info, get_stake_addr_info (TxOut.address w) = inr info ∧
            r = TxOut.make (TxOut.address w)
                  (StakeAddrInfo.reward_account_balance info) DEFAULT_COIN
        else r = w) withdrawals resolved
  | inl e =>
      ∃ w, w ∈ withdrawals ∧ TxOut.amount w = -1 ∧
           get_stake_addr_info (TxOut.address w) = inl e
  end.
Proof. apply resolve_withdrawals_each. Qed.

Lemma resolve_withdrawals_length (g : string → exn + StakeAddrInfo.t)
    (ws rs : list TxOut.t) :
  _resolve_withdrawals g ws = inr rs → length rs = length ws.
Proof.
  intros Hres. pose proof (resolve_withdrawals_each g ws) as Hspec.
  rewrite Hres in Hspec. symmetry. by eapply Forall2_length.
Qed.

Lemma resolve_scripts_zip {Meta : Type} (g : string → exn + StakeAddrInfo.t)
    (ss : list (ScriptWithdrawal.t Meta)) :
  resolve_scripts g ss
  = match _resolve_withdrawals g (ScriptWithdrawal.txout <$> ss) with
    | inl e => inl e
    | inr r => inr (zip_with ScriptWithdrawal.replace_txout ss r)
    end.
Proof.
  induction ss as [|s ss IH]; [done|].
  rewrite fmap_cons.
  change (ScriptWithdrawal.txout s :: (ScriptWithdrawal.txout <$> ss))
    with ([ScriptWithdrawal.txout s] ++ (ScriptWithdrawal.txout <$> ss)).
  rewrite (resolve_withdrawals_app g [ScriptWithdrawal.txout s]
             (ScriptWithdrawal.txout <$> ss)).
  cbn [resolve_scripts]. rewrite IH.
  unfold _resolve_withdrawals at 1 3. cbn [resolve_loop].
  destruct (decide (TxOut.amount (ScriptWithdrawal.txout s) = -1)).
  - destruct (g (TxOut.address (ScriptWithdrawal.txout s))); [done|].
    cbn [app]. by destruct (_resolve_withdrawals g _).
  - cbn [app]. by destruct (_resolve_withdrawals g _).
Qed.

Lemma zip_replace_txout {Meta : Type} (ss : list (ScriptWithdrawal.t Meta))
    (r : list TxOut.t) :
  length r = length ss →
  ScriptWithdrawal.txout <$> zip_with ScriptWithdrawal.replace_txout ss r = r ∧
  ScriptWithdrawal.meta <$> zip_with ScriptWithdrawal.replace_txout ss r
  = ScriptWithdrawal.meta <$> ss.
Proof.
  revert r. induction ss as [|s ss IH]; intros [|o r] Hlen; try done.
  simpl in Hlen. destruct (IH r) as [H1 H2]; [lia|].
  cbn [zip_with]. rewrite !fmap_cons, H1, H2. done.
Qed.

(** X17. [_get_withdrawals] resolves the plain and the script withdrawals as
    one list: it raises what [_resolve_withdrawals] raises on the plain
    withdrawals followed by those of the scripts, and otherwise its third
    result is that resolved list, cut into the plain withdrawals (the first
    result) and the script withdrawals, which keep their script data. *)
Theorem get_withdrawals_combined {Meta : Type}
    (get_stake_addr_info : string → exn + StakeAddrInfo.t)
    (withdrawals : list TxOut.t)
    (script_withdrawals : list (ScriptWithdrawal.t Meta)) :
  match _get_withdrawals get_stake_addr_info withdrawals script_withdrawals,
        _resolve_withdrawals get_stake_addr_info
          (withdrawals ++ (ScriptWithdrawal.txout <$> script_withdrawals)) with
  | inr (resolved, resolved_scripts, withdrawals_txouts), inr all =>
      withdrawals_txouts = all ∧
      all = resolved ++ (ScriptWithdrawal.txout <$> resolved_scripts) ∧
      length resolved = length withdrawals ∧
      ScriptWithdrawal.meta <$> resolved_scripts
      = ScriptWithdrawal.meta <$> script_withdrawals
  | inl e, inl e' => e = e'
  | _, _ => False
  end.
Proof.
  unfold _get_withdrawals. rewrite resolve_withdrawals_app, resolve_scripts_zip.
  assert (Hplain : (if truthy withdrawals
                    then _resolve_withdrawals get_stake_addr_info withdrawals
                    else inr withdrawals)
                   = _resolve_withdrawals get_stake_addr_info withdrawals)
    by (by destruct withdrawals).
  rewrite Hplain.
  destruct (_resolve_withdrawals get_stake_addr_info withdrawals)
    as [e|rw] eqn:Hrw; [done|].
  destruct (_resolve_withdrawals get_stake_addr_info
              (ScriptWithdrawal.txout <$> script_withdrawals))
    as [e|rs] eqn:Hrs; [done|].
  apply resolve_withdrawals_length in Hrw, Hrs.
  rewrite length_fmap in Hrs.
  destruct (zip_replace_txout script_withdrawals rs Hrs) as [H1 H2].
  cbv zeta. by rewrite H1, H2.
Qed.

(** ** More on the decoder *)

Lemma chain_results_elem {A : Type} (steps : list (exn + list A)) (r : list A)
    (x : A) :
  chain_results steps = inr r → x ∈ r → ∃ xs, inr xs ∈ steps ∧ x ∈ xs.
Proof.
  revert r. induction steps as [|[e|xs] steps IH]; intros r Hr Hx.
  - injection Hr as <-. by apply elem_of_nil in Hx.
  - discriminate Hr.
  - cbn [chain_results] in Hr.
    destruct (chain_results steps) as [e|ys]; [discriminate Hr|].
    injection Hr as <-. apply elem_of_app in Hx as [Hx|Hx].
    + exists xs. split; [by left|done].
    + destruct (IH ys eq_refl Hx) as (zs & Hzs & Hin).
      exists zs. split; [by right|done].
Qed.

Lemma make_utxo_inv `{Builtins} (utxo_hash utxo_ix : string) (amount : Z)
    (address coin decoded_coin datum_hash : string) (ys : list UTXOData.t)
    (u : UTXOData.t) :
  make_utxo utxo_hash utxo_ix amount address coin decoded_coin datum_hash = inr ys →
  u ∈ ys →
  ∃ ix, int_of_str utxo_ix = Some ix ∧
        u = UTXOData.mk utxo_hash ix amount address coin decoded_coin datum_hash.
Proof.
  unfold make_utxo. destruct (int_of_str utxo_ix) as [ix|]; [|done].
  intros [= <-] Hu. apply list_elem_of_singleton in Hu. by exists ix.
Qed.

Lemma str_or_empty_r (a : string) : str_or a "" = a.
Proof. unfold str_or. by case_decide. Qed.

(** X18. Every record [get_utxo] returns comes from an entry of the query
    result: its hash and index are the two parts of the entry's key, its
    address is the address asked for or else the entry's, its datum hash is
    the entry's [data] or else its [datumhash], and its coin and amount are
    one item of the entry's value.  With a coin filter, its coin is one of
    the coins asked for. *)
Theorem get_utxo_sound `{Builtins} (utxo_dict : list (string * utxo_data))
    (address : string) (coins : list string) (utxos : list UTXOData.t)
    (u : UTXOData.t) :
  get_utxo utxo_dict address coins = inr utxos →
  u ∈ utxos →
  ∃ key data ix addr_data policyid cd,
    (key, data) ∈ utxo_dict ∧
    split_hash key = [UTXOData.utxo_hash u; ix] ∧
    int_of_str ix = Some (UTXOData.utxo_ix u) ∧
    UTXOData.address u = str_or address (default "" (j_address data)) ∧
    UTXOData.datum_hash u
    = str_or (default "" (j_data data)) (default "" (j_datumhash data)) ∧
    j_value data = Some addr_data ∧
    (policyid, cd) ∈ addr_data ∧
    (if decide (policyid = DEFAULT_COIN)
     then cd = JInt (UTXOData.amount u) ∧ UTXOData.coin u = DEFAULT_COIN ∧
          UTXOData.decoded_coin u = ""
     else ∃ items name,
            (cd = JDict items ∨ cd = JList items) ∧
            (name, UTXOData.amount u) ∈ items ∧
            UTXOData.coin u
            = (if decide (name = "") then policyid
               else policyid +:+ "." +:+ name)) ∧
    (coins ≠ [] → UTXOData.coin u ∈ coins).
Proof.
  unfold get_utxo. intros Hget Hu.
  destruct (chain_results (utxo_records address <$> utxo_dict))
    as [e|all] eqn:Hall; [discriminate Hget|].
  assert (Hin : u ∈ all ∧ (coins ≠ [] → UTXOData.coin u ∈ coins)).
  { destruct coins as [|c coins]; simpl in Hget; injection Hget as <-.
    - done.
    - apply list_elem_of_filter in Hu as [Hc Hu]. done. }
  destruct Hin as [Hin Hcoins]. clear Hget Hu.
  destruct (chain_results_elem _ _ _ Hall Hin) as (xs & Hxs & Hux).
  apply list_elem_of_fmap in Hxs as ([key data] & Hrec & Hitem).
  symmetry in Hrec. unfold utxo_records in Hrec.
  destruct (split_hash key) as [|utxo_hash [|utxo_ix [|? ?]]] eqn:Hsplit;
    try discriminate Hrec.
  destruct (j_value data) as [addr_data|] eqn:Hvalue; [|discriminate Hrec].
  rewrite !str_or_empty_r in Hrec.
  destruct (chain_results_elem _ _ _ Hrec Hux) as (ys & Hys & Huy).
  apply list_elem_of_fmap in Hys as ([policyid cd] & Hval & Hentry).
  symmetry in Hval. unfold value_records in Hval.
  destruct (decide (policyid = DEFAULT_COIN)) as [Hpol|Hpol].
  - destruct cd as [n|items|items]; try discriminate Hval.
    destruct (make_utxo_inv _ _ _ _ _ _ _ _ _ Hval Huy) as (ix & Hix & ->).
    exists key, data, utxo_ix, addr_data, policyid, (JInt n).
    rewrite decide_True by done. done.
  - assert (Hitems : ∃ items, (cd = JDict items ∨ cd = JList items) ∧
              chain_results
                (asset_record utxo_hash utxo_ix address (default "" (j_address data))
                   (str_or (default "" (j_data data)) (default "" (j_datumhash data)))
                   policyid <$> items) = inr ys).
    { destruct cd as [n|items|items]; [discriminate Hval| |];
        exists items; split; auto. }
    destruct Hitems as (items & Hcd & Hchain).
    destruct (chain_results_elem _ _ _ Hchain Huy) as (zs & Hzs & Huz).
    apply list_elem_of_fmap in Hzs as ([name amount] & Hasset & Hname).
    symmetry in Hasset. unfold asset_record in Hasset.
    destruct (make_utxo_inv _ _ _ _ _ _ _ _ _ Hasset Huz) as (ix & Hix & ->).
    exists key, data, utxo_ix, addr_data, policyid, cd.
    rewrite (decide_False (P := policyid = DEFAULT_COIN)) by done. simpl.
    repeat (split; [done|]). split; [|done]. by exists items, name.
Qed.

Lemma get_utxo_sound_witness :
  ∃ key data ix addr_data policyid cd,
    (key, data) ∈ token_utxo ∧
    split_hash key = ["txT"; ix] ∧
    @int_of_str plain_builtins ix = Some 1 ∧
    "addr1" = str_or "" (default "" (j_address data)) ∧
    "" = str_or (default "" (j_data data)) (default "" (j_datumhash data)) ∧
    j_value data = Some addr_data ∧
    (policyid, cd) ∈ addr_data ∧
    (if decide (policyid = DEFAULT_COIN)
     then cd = JInt 5 ∧ "policy.zz" = DEFAULT_COIN ∧ "" = ""
     else ∃ items name,
            (cd = JDict items ∨ cd = JList items) ∧
            (name, 5) ∈ items ∧
            "policy.zz"
            = (if decide (name = "") then policyid
               else policyid +:+ "." +:+ name)) ∧
    (["policy.zz"] ≠ [] → "policy.zz" ∈ ["policy.zz"]).
Proof.
  apply (@get_utxo_sound plain_builtins token_utxo "" ["policy.zz"]
           [UTXOData.mk "txT" 1 5 "addr1" "policy.zz" "" ""]
           (UTXOData.mk "txT" 1 5 "addr1" "policy.zz" "" "")).
  - vm_compute. reflexivity.
  - by left.
Defined.

(** ** Inputs selected automatically *)

Lemma elem_of_utxos_with_coins (l : list UTXOData.t) (coins : gset string)
    (u : UTXOData.t) :
  u ∈ _get_utxos_with_coins l coins ↔
  u ∈ l ∧ ∃ v, v ∈ l ∧ UTXOData.coin v ∈ coins ∧ utxo_id v = utxo_id u.
Proof.
  assert (Heq : _get_utxos_with_coins l coins
                = flat_map (λ k, filter (λ u, utxo_id u = k) l)
                    (first_seen (utxo_id <$> filter (λ u, UTXOData.coin u ∈ coins) l))).
  { unfold _get_utxos_with_coins.
    rewrite (proj1 (organize_by_id_as_groups l)).
    apply (utxos_with_coins_pick l coins [] l ∅); [done|].
    intros x. simpl. set_solver. }
  rewrite Heq, flat_groups_perm by apply NoDup_first_seen.
  rewrite list_elem_of_filter, elem_of_first_seen, list_elem_of_fmap.
  split.
  - intros [(v & Hid & Hv) Hu]. apply list_elem_of_filter in Hv as [Hc Hv].
    split; [done|]. by exists v.
  - intros [Hu (v & Hv & Hc & Hid)]. split; [|done].
    exists v. split; [done|]. by apply list_elem_of_filter.
Qed.

Lemma elem_of_selected_groups (l : list UTXOData.t) (ids : gset string)
    (u : UTXOData.t) :
  u ∈ concat (filter (λ p, p.1 ∈ ids) (_organize_utxos_by_id l)).*2 ↔
  u ∈ l ∧ utxo_id u ∈ ids.
Proof.
  rewrite (proj1 (organize_by_id_as_groups l)).
  rewrite list_elem_of_In, in_concat. split.
  - intros (g & Hg & Hu). apply list_elem_of_In in Hg, Hu.
    apply list_elem_of_fmap in Hg as ([k g'] & -> & Hg).
    apply list_elem_of_filter in Hg as [Hk Hg]. simpl in *.
    unfold groups_of in Hg. apply list_elem_of_fmap in Hg as (k' & [= -> ->] & _).
    apply list_elem_of_filter in Hu as [<- Hu]. done.
  - intros [Hu Hid]. exists (filter (λ r, utxo_id r = utxo_id u) l). split.
    + apply list_elem_of_In, list_elem_of_fmap.
      exists (utxo_id u, filter (λ r, utxo_id r = utxo_id u) l). split; [done|].
      apply list_elem_of_filter. split; [done|].
      unfold groups_of. apply list_elem_of_fmap. exists (utxo_id u).
      split; [done|]. apply elem_of_first_seen. by apply list_elem_of_fmap_2.
    + apply list_elem_of_In, list_elem_of_filter. done.
Qed.

(** X19. Inputs selected automatically are whole UTxOs of the source
    address: every input returned is one of the records the UTxO lookup
    gave, and with it come all the records of the same id, whatever their
    coin. *)
Theorem auto_inputs_are_whole_utxos `{SetOrder} (obj : ClusterLib.t) (src : string)
    (files : TxFiles) (txins : OptionalUTXOData) (txouts : list TxOut.t) (fee : Z)
    (deposit : option Z) (w mint : list TxOut.t) (lb : bool)
    (utxos ins : list UTXOData.t) (outs : list TxOut.t) :
  to_list txins = [] →
  ClusterLib.get_utxo obj src = inr utxos →
  (_get_tx_ins_outs obj src files txins txouts fee deposit w mint lb).2
  = inr (ins, outs) →
  (∀ u, u ∈ ins → u ∈ utxos) ∧
  (∀ u v, u ∈ ins → v ∈ utxos → utxo_id v = utxo_id u → v ∈ ins).
Proof.
  intros Hto Hget Hrun.
  destruct (if deposit is Some d then inr d
            else ClusterLib.get_tx_deposit obj files) as [e|dep] eqn:Hdep.
  { exfalso. destruct deposit as [d|]; [discriminate Hdep|].
    unfold _get_tx_ins_outs in Hrun. rewrite Hto, Hget in Hrun.
    revert Hrun. run_binds. rewrite Hdep. discriminate. }
  pose proof (get_tx_ins_outs_auto obj src files txins txouts fee deposit
                w mint lb utxos dep Hto Hget Hdep) as Hauto.
  cbv zeta in Hauto. rewrite Hauto in Hrun. clear Hauto. simpl in Hrun.
  destruct (returned _); [discriminate Hrun|]. injection Hrun as <- _.
  split.
  - intros u Hu. apply elem_of_selected_groups in Hu as [Hu _].
    by apply elem_of_utxos_with_coins in Hu as [Hu _].
  - intros u v Hu Hv Hid. apply elem_of_selected_groups in Hu as [Hu Hsel].
    apply elem_of_utxos_with_coins in Hu as [_ (v' & Hv' & Hc & Hid')].
    apply elem_of_selected_groups. split; [|by rewrite Hid].
    apply elem_of_utxos_with_coins. split; [done|].
    exists v'. split; [done|]. split; [done|]. congruence.
Qed.

Lemma auto_inputs_are_whole_utxos_witness :
  (∀ u, u ∈ [txA] → u ∈ [txA]) ∧
  (∀ u v, u ∈ [txA] → v ∈ [txA] → utxo_id v = utxo_id u → v ∈ [txA]).
Proof.
  apply (@auto_inputs_are_whole_utxos elements_order (one_utxo_node 0) "addr1" []
           EmptyTuple [pay300] 10 (Some 0) [] [] false [txA] [txA]
           [pay300; TxOut.make "addr1" 690 DEFAULT_COIN]).
  - reflexivity.
  - reflexivity.
  - vm_compute. reflexivity.
Defined.

(** * The base-coin change under automatic selection *)

Lemma total_amount_perm {A : Type} `{CoinRecord A} (l1 l2 : list A) :
  l1 ≡ₚ l2 → total_amount l1 = total_amount l2.
Proof. induction 1; rewrite ?total_amount_cons; lia. Qed.

Lemma filter_iff_in {A : Type} (P Q : A → Prop) `{∀ x, Decision (P x)}
    `{∀ x, Decision (Q x)} (l : list A) :
  (∀ x, x ∈ l → P x ↔ Q x) → filter P l = filter Q l.
Proof.
  induction l as [|a l IH]; intros HPQ; [done|].
  assert (Ha : P a ↔ Q a) by (apply HPQ; left).
  rewrite !filter_cons, IH by (intros x Hx; apply HPQ; by right).
  destruct (decide (P a)), (decide (Q a)); tauto.
Qed.

Lemma utxos_with_coins_flat (l : list UTXOData.t) (coins : gset string) :
  _get_utxos_with_coins l coins
  = flat_map (λ k, filter (λ u, utxo_id u = k) l)
      (first_seen (utxo_id <$> filter (λ u, UTXOData.coin u ∈ coins) l)).
Proof.
  unfold _get_utxos_with_coins.
  rewrite (proj1 (organize_by_id_as_groups l)).
  apply (utxos_with_coins_pick l coins [] l ∅); [done|].
  intros x. simpl. set_solver.
Qed.

(** The candidates hold every base-coin record of the address. *)
Lemma base_records_candidates (l : list UTXOData.t) (coins : gset string) :
  DEFAULT_COIN ∈ coins →
  base_records (_get_utxos_with_coins l coins) ≡ₚ base_records l.
Proof.
  intros Hbase. rewrite utxos_with_coins_flat. unfold base_records.
  rewrite flat_groups_perm by apply NoDup_first_seen.
  rewrite list_filter_filter.
  rewrite (filter_iff_in _ (λ u, UTXOData.coin u = DEFAULT_COIN)); [done|].
  intros u Hu. split; [tauto|]. intros Hc. split; [done|].
  apply elem_of_first_seen, list_elem_of_fmap_2, list_elem_of_filter.
  split; [by rewrite Hc|done].
Qed.

(** The groups selected hold, up to their order, the records whose id is
    selected. *)
Lemma selected_groups_perm (l : list UTXOData.t) (ids : gset string) :
  concat (filter (λ p, p.1 ∈ ids) (_organize_utxos_by_id l)).*2
  ≡ₚ filter (λ u, utxo_id u ∈ ids) l.
Proof.
  rewrite (proj1 (organize_by_id_as_groups l)). unfold groups_of.
  assert (Hflat : ∀ ks,
    concat (filter (λ p : string * list UTXOData.t, p.1 ∈ ids)
              ((λ k, (k, filter (λ r, utxo_id r = k) l)) <$> ks)).*2
    = flat_map (λ k, filter (λ r, utxo_id r = k) l) (filter (λ k, k ∈ ids) ks)).
  { induction ks as [|k ks IH]; [done|].
    rewrite fmap_cons, !filter_cons. cbn [fst].
    destruct (decide (k ∈ ids)); [|exact IH].
    rewrite fmap_cons. cbn [snd concat flat_map]. by rewrite IH. }
  rewrite Hflat, flat_groups_perm by apply NoDup_filter, NoDup_first_seen.
  rewrite (filter_iff_in _ (λ u, utxo_id u ∈ ids)); [done|].
  intros u Hu. rewrite list_elem_of_filter, elem_of_first_seen.
  split; [tauto|]. intros Hid. split; [done|]. by apply list_elem_of_fmap_2.
Qed.

(** When no other coin needs inputs, what is selected is what the collector
    takes for the base coin. *)
Lemma select_utxos_base_decides `{SetOrder} txins_db passed mint fee w mcv dep :
  (∀ c, c ≠ DEFAULT_COIN →
        head (UTXOData.coin <$> get_or_nil txins_db c) ≠ Some DEFAULT_COIN) →
  ¬ Exists is_max (get_or_nil passed DEFAULT_COIN) →
  (∀ c, c ≠ DEFAULT_COIN →
        ¬ Exists is_max (get_or_nil passed c) ∧
        total_amount (get_or_nil passed c) ≤ total_amount (get_or_nil mint c)) →
  _select_utxos txins_db passed mint fee w mcv dep
  = list_to_set (utxo_id <$>
      _collect_utxos_amount (get_or_nil txins_db DEFAULT_COIN)
        (input_funds_needed DEFAULT_COIN (get_or_nil passed DEFAULT_COIN) mint
           fee w dep) mcv).
Proof.
  intros Hhead Hno Htok. unfold _select_utxos.
  set (X := list_to_set _).
  rewrite (select_fold_one_coin _ _ _ _ _ _ _ X).
  - destruct (decide (DEFAULT_COIN ∈ set_iter (coins_of txins_db passed mint)))
      as [Hin|Hin]; [apply (left_id_L ∅ (∪))|].
    assert (Hnil : get_or_nil txins_db DEFAULT_COIN = []).
    { unfold get_or_nil. destruct (txins_db !! DEFAULT_COIN) eqn:Hl; [|done].
      exfalso. apply Hin, elem_of_set_iter. unfold coins_of.
      apply elem_of_union_l, elem_of_union_l, elem_of_dom. eauto. }
    subst X. rewrite Hnil. done.
  - intros c ids' Hne. destruct (Htok c Hne) as [Hnomax Hle].
    unfold select_coin.
    pose proof (max_index_Exists (get_or_nil passed c)) as Hmax.
    destruct (max_index (get_or_nil passed c)).
    + rewrite collect_nothing_needed; [apply (right_id_L ∅ (∪))|by apply Hhead|].
      unfold input_funds_needed. rewrite decide_False by done. lia.
    + exfalso. apply Hnomax, Hmax. done.
  - intros ids'. unfold select_coin.
    pose proof (max_index_Exists (get_or_nil passed DEFAULT_COIN)) as Hmax.
    destruct (max_index (get_or_nil passed DEFAULT_COIN)); [done|].
    exfalso. apply Hno, Hmax. done.
Qed.

(** The base-coin side of a run with automatic selection, whatever the
    address holds: when no other coin needs inputs, the base-coin inputs are
    what the collector took from the base-coin records of the candidates,
    and every base-coin output appended carries the change of those
    inputs. *)
Lemma base_coin_run `{SetOrder} obj src files txouts fee deposit w mint utxos dep
    ins outs :
  ClusterLib.get_utxo obj src = inr utxos →
  (if deposit is Some d then inr d else ClusterLib.get_tx_deposit obj files)
  = inr dep →
  NoDup (utxo_id <$> base_records utxos) →
  Forall (λ o, ¬ is_max o) (base_outputs txouts) →
  (∀ c, c ≠ DEFAULT_COIN →
        Forall (λ o, ¬ is_max o) (outputs_of c txouts) ∧
        total_amount (outputs_of c txouts) ≤ total_amount (outputs_of c mint)) →
  (_get_tx_ins_outs obj src files EmptyTuple txouts fee deposit w mint false).2
  = inr (ins, outs) →
  ∃ candidates,
    candidates ≡ₚ base_records utxos ∧
    base_records ins
    ≡ₚ _collect_utxos_amount candidates
         (input_funds_needed DEFAULT_COIN (base_outputs txouts)
            (_organize_tx_ins_outs_by_coin mint) fee w dep)
         (ClusterLib._min_change_value obj) ∧
    ∀ o, o ∈ appended txouts outs → TxOut.coin o = DEFAULT_COIN →
         0 < TxOut.amount o ∧
         TxOut.amount o
         = total_amount (base_records ins) + total_amount w
           - (total_amount (base_outputs txouts) + Z.max fee 0 + dep).
Proof.
  intros Hget Hdep Hnd Hnomax Htok Hres.
  pose proof (get_tx_ins_outs_auto obj src files EmptyTuple txouts fee deposit
                w mint false utxos dep eq_refl Hget Hdep) as Hrun.
  cbv zeta in Hrun. rewrite Hrun in Hres. clear Hrun. simpl in Hres.
  set (passed := _organize_tx_ins_outs_by_coin txouts) in *.
  set (mint_db := _organize_tx_ins_outs_by_coin mint) in *.
  set (txins_all := _get_utxos_with_coins utxos _) in *.
  assert (Hcand : base_records txins_all ≡ₚ base_records utxos).
  { apply base_records_candidates.
    apply elem_of_union_l, elem_of_union_l, elem_of_singleton. done. }
  assert (Hndc : NoDup (utxo_id <$> base_records txins_all)) by (by rewrite Hcand).
  assert (Hpassed : ∀ c, get_or_nil passed c = outputs_of c txouts)
    by (intros c; exact (@organize_get _ TxOut_record txouts c)).
  assert (Hmint : ∀ c, get_or_nil mint_db c = outputs_of c mint)
    by (intros c; exact (@organize_get _ TxOut_record mint c)).
  assert (Hins : ∀ l c, get_or_nil (_organize_tx_ins_outs_by_coin l) c
                        = filter (λ u, UTXOData.coin u = c) l)
    by (intros l c; exact (@organize_get _ UTXOData_record l c)).
  assert (Hno : ∀ c, ¬ Exists is_max (get_or_nil passed c)).
  { intros c He. rewrite Hpassed in He.
    apply Exists_exists in He as (o & Hin & Ho).
    destruct (decide (c = DEFAULT_COIN)) as [->|Hne].
    - rewrite Forall_forall in Hnomax. by apply (Hnomax o).
    - destruct (Htok c Hne) as [Hall _]. rewrite Forall_forall in Hall.
      by apply (Hall o). }
  rewrite select_utxos_base_decides in Hres.
  2:{ intros c Hne. rewrite Hins.
      destruct (filter _ txins_all) as [|u us] eqn:Hf; [done|]. simpl.
      assert (Hu : u ∈ filter (λ u, UTXOData.coin u = c) txins_all)
        by (rewrite Hf; left).
      apply list_elem_of_filter in Hu as [Hu _]. congruence. }
  2:{ apply Hno. }
  2:{ intros c Hne. split; [apply Hno|]. rewrite Hpassed, Hmint.
      by apply Htok. }
  rewrite Hins, (Hpassed DEFAULT_COIN) in Hres.
  fold (base_records txins_all) in Hres.
  change (outputs_of DEFAULT_COIN txouts) with (base_outputs txouts) in Hres.
  set (sel := _collect_utxos_amount (base_records txins_all) _ _) in *.
  set (ins' := concat _) in *.
  destruct (returned _) as [e|outs'] eqn:Hret; [discriminate Hres|].
  injection Hres as <- <-.
  exists (base_records txins_all). split; [exact Hcand|].
  assert (Hbase : base_records ins' ≡ₚ sel).
  { subst ins'. unfold base_records at 1. rewrite selected_groups_perm.
    rewrite list_filter_filter.
    rewrite (filter_iff_in _
      (λ u, utxo_id u ∈ (list_to_set (utxo_id <$> sel) : gset string)
            ∧ UTXOData.coin u = DEFAULT_COIN)) by (intros; tauto).
    rewrite <- list_filter_filter. fold (base_records txins_all).
    rewrite filter_selected_prefix; [done|apply collect_prefix|done]. }
  split; [exact Hbase|].
  assert (Hle : ∀ c, (length (filter is_max (get_or_nil passed c)) ≤ 1)%nat).
  { intros c.
    destruct (decide (1 < length (filter is_max (get_or_nil passed c)))%nat)
      as [Hgt|]; [|lia].
    rewrite (balance_txouts_raises _ _ _ _ _ _ _ _ _ c Hgt) in Hret.
    discriminate Hret. }
  destruct (balance_txouts_balanced src txouts (_organize_tx_ins_outs_by_coin ins')
              passed mint_db fee w dep Hle) as (change & Hbal & Hout & Hpos).
  rewrite Hret in Hout. injection Hout as ->.
  intros o Ho Hcoin. unfold appended in Ho. rewrite drop_app_length in Ho.
  split.
  { rewrite Forall_forall in Hpos. apply Hpos. apply elem_of_app. by right. }
  apply elem_of_change_outputs in Ho as (c & Hc & _ & ->).
  simpl in Hcoin. subst c. simpl.
  specialize (Hbal DEFAULT_COIN Hc). unfold coin_balances in Hbal.
  rewrite decide_True in Hbal by done.
  unfold requested in Hbal. rewrite Hins, (Hpassed DEFAULT_COIN) in Hbal.
  fold (base_records ins') in Hbal.
  change (outputs_of DEFAULT_COIN txouts) with (base_outputs txouts) in Hbal.
  rewrite (filter_all (λ o, ¬ is_max o)) in Hbal by done.
  lia.
Qed.

(** C5 (as amended). With automatic selection, an address whose UTxOs hold
    at most one base-coin record each (and any other coins), no [-1] output
    for the base coin, no other coin needing inputs (none has a [-1] output
    or more requested than minted), a fee of at least 1 and withdrawals not
    above the requested base-coin outputs plus the deposit: every base-coin output
    the balancer appends carries the change [inputs + withdrawals - outputs
    - fee - deposit] of the base-coin inputs returned, and that change is 0,
    or at least the minimum change value, or every base-coin record of the
    address was taken; so unless the base coin of the address is used up, no
    base-coin change below the minimum is produced. *)
Theorem base_change_clears_minimum `{SetOrder} (obj : ClusterLib.t) (src : string)
    (files : TxFiles) (txouts : list TxOut.t) (fee : Z) (deposit : option Z)
    (w mint : list TxOut.t) (utxos : list UTXOData.t) (dep : Z) :
  ClusterLib.get_utxo obj src = inr utxos →
  (if deposit is Some d then inr d else ClusterLib.get_tx_deposit obj files)
  = inr dep →
  NoDup (utxo_id <$> base_records utxos) →
  Forall (λ o, ¬ is_max o) (base_outputs txouts) →
  (∀ c, c ≠ DEFAULT_COIN →
        Forall (λ o, ¬ is_max o) (outputs_of c txouts) ∧
        total_amount (outputs_of c txouts) ≤ total_amount (outputs_of c mint)) →
  1 ≤ fee →
  total_amount w ≤ total_amount (base_outputs txouts) + dep →
  ∀ ins outs,
    (_get_tx_ins_outs obj src files EmptyTuple txouts fee deposit w mint false).2
    = inr (ins, outs) →
    let change :=
      total_amount (base_records ins) + total_amount w
      - (total_amount (base_outputs txouts) + fee + dep) in
    (∀ o, o ∈ appended txouts outs → TxOut.coin o = DEFAULT_COIN →
          TxOut.amount o = change) ∧
    (change = 0 ∨ ClusterLib._min_change_value obj ≤ change
     ∨ base_records ins ≡ₚ base_records utxos) ∧
    (¬ base_records ins ≡ₚ base_records utxos →
     dust_free (ClusterLib._min_change_value obj) txouts outs).
Proof.
  intros Hget Hdep Hnd Hnomax Htok Hfee Hw ins outs Hres change.
  destruct (base_coin_run obj src files txouts fee deposit w mint utxos dep
              ins outs Hget Hdep Hnd Hnomax Htok Hres)
    as (candidates & Hcand & Hsel & Hout).
  set (amount := input_funds_needed DEFAULT_COIN (base_outputs txouts)
                   (_organize_tx_ins_outs_by_coin mint) fee w dep) in *.
  assert (Hamount : amount
            = total_amount (base_outputs txouts) + fee + dep - total_amount w).
  { subst amount. unfold input_funds_needed. rewrite decide_True by done.
    destruct (decide (1 < fee)); lia. }
  assert (Hchange : change = 0 ∨ ClusterLib._min_change_value obj ≤ change
                    ∨ base_records ins ≡ₚ base_records utxos).
  { pose proof (collect_total candidates amount (ClusterLib._min_change_value obj))
      as Htot. cbv zeta in Htot.
    pose proof (total_amount_perm _ _ Hsel) as Hsum.
    destruct candidates as [|u us].
    - right. right. by rewrite Hsel, <- Hcand.
    - assert (Hu : UTXOData.coin u = DEFAULT_COIN).
      { assert (Hin : u ∈ base_records utxos) by (rewrite <- Hcand; left).
        by apply list_elem_of_filter in Hin as [Hin _]. }
      rewrite decide_True in Htot by done.
      subst change. destruct Htot as [Ht|[Ht|Ht]];
        [left; lia|right; left; lia|right; right].
      by rewrite Hsel, Ht, Hcand. }
  assert (Hamt : ∀ o, o ∈ appended txouts outs → TxOut.coin o = DEFAULT_COIN →
                      TxOut.amount o = change).
  { intros o Ho Hbase. destruct (Hout o Ho Hbase) as [_ ->]. subst change. lia. }
  split; [exact Hamt|]. split; [exact Hchange|].
  intros Hne o Ho Hbase.
  destruct (Hout o Ho Hbase) as [Hpos _]. rewrite (Hamt o Ho Hbase) in *.
  destruct Hchange as [Hz|[Hm|Hall]]; [lia|done|done].
Qed.

Lemma base_change_clears_minimum_witness :
  TxOut.make "addr1" 190 DEFAULT_COIN
  ∈ appended [pay300]
      [pay300; TxOut.make "addr1" 190 DEFAULT_COIN; TxOut.make "addr1" 7 "policy.T"]
  ∧ dust_free 100 [pay300]
      [pay300; TxOut.make "addr1" 190 DEFAULT_COIN; TxOut.make "addr1" 7 "policy.T"].
Proof.
  split; [vm_compute; left|].
  refine (proj2 (proj2 (@base_change_clears_minimum elements_order
    (node_with mixed_wallet 100) "addr1" [] [pay300] 10 (Some 0) [] []
    mixed_wallet 0 eq_refl eq_refl _ _ _ _ _
    [ada "txA" 0 500 "addr1"; token "txA" 0 7 "addr1"]
    [pay300; TxOut.make "addr1" 190 DEFAULT_COIN; TxOut.make "addr1" 7 "policy.T"]
    _)) _).
  - apply (bool_decide_unpack _). vm_compute. reflexivity.
  - repeat constructor. unfold is_max. simpl. lia.
  - intros c Hc. unfold outputs_of.
    rewrite filter_cons_False by (simpl; congruence).
    split; [constructor|reflexivity].
  - lia.
  - vm_compute. discriminate.
  - vm_compute. reflexivity.
  - intros Hp. apply Permutation_length in Hp. vm_compute in Hp. discriminate Hp.
Defined.

(** C5 as stated fails: with one UTxO of 1000, a payment of 300, fee 10 and
    a minimum change value of 1000 the only UTxO is taken and the change
    appended is 690, strictly between 0 and the minimum. *)
Lemma change_below_minimum_counterexample :
  ¬ ∀ ins outs,
      (@_get_tx_ins_outs elements_order (one_utxo_node 1000) "addr1" [] EmptyTuple
         [pay300] 10 (Some 0) [] [] false).2 = inr (ins, outs) →
      dust_free 1000 [pay300] outs.
Proof.
  intros Hclaim.
  specialize (Hclaim [txA] [pay300; TxOut.make "addr1" 690 DEFAULT_COIN]).
  assert (Hrun : (@_get_tx_ins_outs elements_order (one_utxo_node 1000) "addr1" []
                    EmptyTuple [pay300] 10 (Some 0) [] [] false).2
                 = inr ([txA], [pay300; TxOut.make "addr1" 690 DEFAULT_COIN]))
    by (vm_compute; reflexivity).
  specialize (Hclaim Hrun (TxOut.make "addr1" 690 DEFAULT_COIN)).
  assert (Hin : TxOut.make "addr1" 690 DEFAULT_COIN
                ∈ appended [pay300] [pay300; TxOut.make "addr1" 690 DEFAULT_COIN])
    by (vm_compute; left).
  specialize (Hclaim Hin eq_refl). simpl in Hclaim. lia.
Qed.

Example change_of_one_with_zero_fee :
  (@_get_tx_ins_outs elements_order
     (ClusterLib.mk (λ _, inr [ada "txA" 0 301 "addr1"; ada "txB" 0 500 "addr1"])
        (λ _, inr 0) 100)
     "addr1" [] EmptyTuple [pay300] 0 (Some 0) [] [] false).2
  = inr ([ada "txA" 0 301 "addr1"], [pay300; TxOut.make "addr1" 1 DEFAULT_COIN]).
Proof. vm_compute. reflexivity. Qed.


(** The conditions of the amended C5 are each needed.  In the four runs below
    a UTxO of the address is left unselected and the base-coin change
    appended is below the minimum change value of 100. *)

(** Withdrawals above the requested outputs plus the deposit: the selector
    funds the fee alone, [txA] covers it exactly, and the surplus of the
    withdrawals comes back as a change of 50. *)
Example change_of_withdrawal_surplus :
  (@_get_tx_ins_outs elements_order
     (node_with [ada "txA" 0 10 "addr1"; ada "txB" 0 500 "addr1"] 100)
     "addr1" [] EmptyTuple [pay300] 10 (Some 0)
     [TxOut.make "stake1" 350 DEFAULT_COIN] [] false).2
  = inr ([ada "txA" 0 10 "addr1"], [pay300; TxOut.make "addr1" 50 DEFAULT_COIN]).
Proof. vm_compute. reflexivity. Qed.

(** Another coin that needs inputs: [txA] covers the base coin exactly, the
    UTxO [txB] is taken for its 10 of [policy.T] and brings 5 of the base
    coin with it. *)
Example change_brought_by_token_input :
  (@_get_tx_ins_outs elements_order
     (node_with [ada "txA" 0 310 "addr1"; ada "txB" 0 5 "addr1";
                 token "txB" 0 10 "addr1"; ada "txC" 0 1000 "addr1"] 100)
     "addr1" [] EmptyTuple [pay300; TxOut.make "addr2" 10 "policy.T"] 10 (Some 0)
     [] [] false).2
  = inr ([ada "txA" 0 310 "addr1"; ada "txB" 0 5 "addr1"; token "txB" 0 10 "addr1"],
         [pay300; TxOut.make "addr2" 10 "policy.T";
          TxOut.make "addr1" 5 DEFAULT_COIN]).
Proof. vm_compute. reflexivity. Qed.

(** The same when the other coin is burnt rather than sent: minting -10 of
    [policy.T] needs [txB] as an input. *)
Example change_brought_by_burnt_input :
  (@_get_tx_ins_outs elements_order
     (node_with [ada "txA" 0 310 "addr1"; ada "txB" 0 5 "addr1";
                 token "txB" 0 10 "addr1"; ada "txC" 0 1000 "addr1"] 100)
     "addr1" [] EmptyTuple [pay300] 10 (Some 0)
     [] [TxOut.make "addr1" (-10) "policy.T"] false).2
  = inr ([ada "txA" 0 310 "addr1"; ada "txB" 0 5 "addr1"; token "txB" 0 10 "addr1"],
         [pay300; TxOut.make "addr1" 5 DEFAULT_COIN]).
Proof. vm_compute. reflexivity. Qed.

(** Two base-coin records under one id: the first covers the base coin
    exactly and the second comes with its id. *)
Example change_brought_by_shared_id :
  (@_get_tx_ins_outs elements_order
     (node_with [ada "txA" 0 310 "addr1"; ada "txA" 0 5 "addr1";
                 ada "txB" 0 1000 "addr1"] 100)
     "addr1" [] EmptyTuple [pay300] 10 (Some 0) [] [] false).2
  = inr ([ada "txA" 0 310 "addr1"; ada "txA" 0 5 "addr1"],
         [pay300; TxOut.make "addr1" 5 DEFAULT_COIN]).
Proof. vm_compute. reflexivity. Qed.
